(** * rFXGen: sound parameters, synthesis engine and .rfx persistence

    A shallow embedding of [src/rfxgen.old.c]: the [WaveParams] record, its
    defaults ([ResetWaveParams]), the preset generators and the randomizer,
    the synthesis loop of [GenerateWave], and [LoadWaveParams] /
    [SaveWaveParams].

    C [float] and [double] values are IEEE-754 binary32 and binary64 numbers,
    represented with the Standard Library's [spec_float] (no NaN payload, so
    one NaN per format); arithmetic on [float] operands is done in binary32
    and mixed [float]/[double] arithmetic in binary64, as the C usual
    arithmetic conversions prescribe (FLT_EVAL_METHOD 0).  C [int] values are
    integers in [Z]; no [int] computation of the program leaves the 32-bit
    range, except the conversions of out-of-range floating-point values,
    which are isolated in [int_of_fp].  *)

From Stdlib Require Import ZArith Bool Lia SpecFloat.
From Stdlib.Strings Require Import Byte Ascii.
From stdpp Require Import gmap strings list fin_maps pretty.

Local Open Scope Z_scope.

(* ===================================================================== *)
(** ** Floating-point layer *)
(* ===================================================================== *)

Module FP.

(** The two formats of the program. *)
Definition float := spec_float.
Definition double := spec_float.

Definition prec32 : Z := 24.
Definition emax32 : Z := 128.
Definition prec64 : Z := 53.
Definition emax64 : Z := 1024.

Definition INT_MIN : Z := - 2 ^ 31.
Definition INT_MAX : Z := 2 ^ 31 - 1.

(** binary32 arithmetic and comparisons. *)
Definition fadd : float -> float -> float := SFadd prec32 emax32.
Definition fsub : float -> float -> float := SFsub prec32 emax32.
Definition fmul : float -> float -> float := SFmul prec32 emax32.
Definition fdiv : float -> float -> float := SFdiv prec32 emax32.

(** binary64 arithmetic. *)
Definition dadd : double -> double -> double := SFadd prec64 emax64.
Definition dsub : double -> double -> double := SFsub prec64 emax64.
Definition dmul : double -> double -> double := SFmul prec64 emax64.
Definition ddiv : double -> double -> double := SFdiv prec64 emax64.

(** Unary minus and the C comparison operators (false on NaN, except
    [!=], which is true on NaN); the same for both formats. *)
Definition fneg : spec_float -> spec_float := SFopp.
Definition flt (x y : spec_float) : bool := SFltb x y.
Definition fgt (x y : spec_float) : bool := SFltb y x.
Definition fle (x y : spec_float) : bool := SFleb x y.
Definition fge (x y : spec_float) : bool := SFleb y x.
Definition feq (x y : spec_float) : bool := SFeqb x y.
Definition fne (x y : spec_float) : bool := negb (SFeqb x y).

Definition is_nan (x : spec_float) : bool :=
  match x with S754_nan => true | _ => false end.

Definition is_finite (x : spec_float) : bool :=
  match x with S754_zero _ | S754_finite _ _ _ => true | _ => false end.

(** Conversions.  [float] to [double] is exact; [double] to [float]
    rounds to nearest, ties to even. *)
Definition double_of_float (x : float) : double :=
  match x with
  | S754_finite s m e => binary_normalize prec64 emax64 (cond_Zopp s (Zpos m)) e s
  | _ => x
  end.

Definition float_of_double (x : double) : float :=
  match x with
  | S754_finite s m e => binary_normalize prec32 emax32 (cond_Zopp s (Zpos m)) e s
  | _ => x
  end.

Definition float_of_int (n : Z) : float := binary_normalize prec32 emax32 n 0 false.
Definition double_of_int (n : Z) : double := binary_normalize prec64 emax64 n 0 false.

(** [(int)x]: truncation toward zero.  The conversion of a NaN, an
    infinity or a value outside the range of [int] is undefined in C; the
    value given here, [INT_MIN], is what the x86 conversion instructions
    (cvttss2si, cvttsd2si) produce. *)
Definition int_of_fp (x : spec_float) : Z :=
  match x with
  | S754_zero _ => 0
  | S754_finite s m e =>
      let v := cond_Zopp s (Z.shiftl (Zpos m) e) in
      if (INT_MIN <=? v) && (v <=? INT_MAX) then v else INT_MIN
  | _ => INT_MIN
  end.

(** [abs] of <stdlib.h> on a 32-bit [int]: [abs(INT_MIN)] wraps to
    [INT_MIN]. *)
Definition c_abs (n : Z) : Z := if n =? INT_MIN then INT_MIN else Z.abs n.

(** Literals: [f32 n d] is the [float] nearest to the decimal [n/d], for
    [n] and [d] below 2^24 (both are then exact and the division rounds
    once); likewise [f64] below 2^53. *)
Definition f32 (n d : Z) : float := fdiv (float_of_int n) (float_of_int d).
Definition f64 (n d : Z) : double := ddiv (double_of_int n) (double_of_int d).

Definition fzero : spec_float := S754_zero false.

(** [x] lies in the closed interval [lo, hi] (false for a NaN). *)
Definition in_range (lo hi x : spec_float) : bool := fle lo x && fle x hi.

(** What the program's clamps establish: [x] is neither below [lo] nor
    above [hi]. *)
Definition clamped (lo hi x : spec_float) : bool := negb (flt x lo) && negb (fgt x hi).

(** The bit pattern of a [float] as an unsigned 32-bit integer, and back.
    The NaN is written as the default quiet NaN 0x7FC00000. *)
Definition bits_of_float (x : float) : Z :=
  match x with
  | S754_zero s => if s then 2 ^ 31 else 0
  | S754_infinity s => (if s then 2 ^ 31 else 0) + 255 * 2 ^ 23
  | S754_nan => 255 * 2 ^ 23 + 2 ^ 22
  | S754_finite s m e => (if s then 2 ^ 31 else 0) + (e + 149) * 2 ^ 23 + Zpos m
  end.

Definition float_of_bits (b : Z) : float :=
  let s := 2 ^ 31 <=? b in
  let ex := (b / 2 ^ 23) mod 256 in
  let fr := b mod 2 ^ 23 in
  if ex =? 255 then (if fr =? 0 then S754_infinity s else S754_nan)
  else if ex =? 0 then
    match fr with Zpos m => S754_finite s m (-149) | _ => S754_zero s end
  else
    match fr + 2 ^ 23 with Zpos m => S754_finite s m (ex - 150) | _ => S754_nan end.

(** A [spec_float] that is a binary32 value. *)
Definition is_float (x : float) : bool := valid_binary prec32 emax32 x.

End FP.
Import FP.


(* ===================================================================== *)
(** ** External collaborators *)
(* ===================================================================== *)

(** The C library's generator behind raylib's [GetRandomValue]:
    [srand(seed)] replaces the generator's state by one that depends on the
    seed alone, and [GetRandomValue(lo, hi)] draws from the shared state an
    integer between [lo] and [hi], both included.  Neither function is part
    of the repository; the program is verified for every generator with
    this interface. *)
Class RandomSource := {
  rng : Type;
  srand : Z -> rng;
  GetRandomValue : Z -> Z -> rng -> Z * rng;
  GetRandomValue_range :
    forall lo hi g, lo <= hi -> lo <= (GetRandomValue lo hi g).1 <= hi
}.

(** <math.h>: [pow] on [double], [sinf] on [float]. *)
Class Libm := {
  pow : double -> double -> double;
  sinf : float -> float
}.

(** raylib.h: [#define PI 3.14159265358979323846f], the [float] 0x40490FDB. *)
Definition PI : float := S754_finite false 13176795 (-22).

(* ===================================================================== *)
(** ** Data model *)
(* ===================================================================== *)

(** [struct WaveParams] (96 bytes: two [int] and twenty-two [float]). *)
Record WaveParams := {
  randSeed : Z;
  waveTypeValue : Z;
  attackTimeValue : float;
  sustainTimeValue : float;
  sustainPunchValue : float;
  decayTimeValue : float;
  startFrequencyValue : float;
  minFrequencyValue : float;
  slideValue : float;
  deltaSlideValue : float;
  vibratoDepthValue : float;
  vibratoSpeedValue : float;
  changeAmountValue : float;
  changeSpeedValue : float;
  squareDutyValue : float;
  dutySweepValue : float;
  repeatSpeedValue : float;
  phaserOffsetValue : float;
  phaserSweepValue : float;
  lpfCutoffValue : float;
  lpfCutoffSweepValue : float;
  lpfResonanceValue : float;
  hpfCutoffValue : float;
  hpfCutoffSweepValue : float
}.

(** Assignments to one member, [params.member = v]. *)
Definition set_randSeed (v : Z) (p : WaveParams) : WaveParams :=
  {| randSeed := v; waveTypeValue := waveTypeValue p; attackTimeValue := attackTimeValue p;
     sustainTimeValue := sustainTimeValue p; sustainPunchValue := sustainPunchValue p;
     decayTimeValue := decayTimeValue p; startFrequencyValue := startFrequencyValue p;
     minFrequencyValue := minFrequencyValue p; slideValue := slideValue p;
     deltaSlideValue := deltaSlideValue p; vibratoDepthValue := vibratoDepthValue p;
     vibratoSpeedValue := vibratoSpeedValue p; changeAmountValue := changeAmountValue p;
     changeSpeedValue := changeSpeedValue p; squareDutyValue := squareDutyValue p;
     dutySweepValue := dutySweepValue p; repeatSpeedValue := repeatSpeedValue p;
     phaserOffsetValue := phaserOffsetValue p; phaserSweepValue := phaserSweepValue p;
     lpfCutoffValue := lpfCutoffValue p; lpfCutoffSweepValue := lpfCutoffSweepValue p;
     lpfResonanceValue := lpfResonanceValue p; hpfCutoffValue := hpfCutoffValue p;
     hpfCutoffSweepValue := hpfCutoffSweepValue p |}.

Definition set_waveTypeValue (v : Z) (p : WaveParams) : WaveParams :=
  {| randSeed := randSeed p; waveTypeValue := v; attackTimeValue := attackTimeValue p;
     sustainTimeValue := sustainTimeValue p; sustainPunchValue := sustainPunchValue p;
     decayTimeValue := decayTimeValue p; startFrequencyValue := startFrequencyValue p;
     minFrequencyValue := minFrequencyValue p; slideValue := slideValue p;
     deltaSlideValue := deltaSlideValue p; vibratoDepthValue := vibratoDepthValue p;
     vibratoSpeedValue := vibratoSpeedValue p; changeAmountValue := changeAmountValue p;
     changeSpeedValue := changeSpeedValue p; squareDutyValue := squareDutyValue p;
     dutySweepValue := dutySweepValue p; repeatSpeedValue := repeatSpeedValue p;
     phaserOffsetValue := phaserOffsetValue p; phaserSweepValue := phaserSweepValue p;
     lpfCutoffValue := lpfCutoffValue p; lpfCutoffSweepValue := lpfCutoffSweepValue p;
     lpfResonanceValue := lpfResonanceValue p; hpfCutoffValue := hpfCutoffValue p;
     hpfCutoffSweepValue := hpfCutoffSweepValue p |}.

Definition set_attackTimeValue (v : float) (p : WaveParams) : WaveParams :=
  {| randSeed := randSeed p; waveTypeValue := waveTypeValue p; attackTimeValue := v;
     sustainTimeValue := sustainTimeValue p; sustainPunchValue := sustainPunchValue p;
     decayTimeValue := decayTimeValue p; startFrequencyValue := startFrequencyValue p;
     minFrequencyValue := minFrequencyValue p; slideValue := slideValue p;
     deltaSlideValue := deltaSlideValue p; vibratoDepthValue := vibratoDepthValue p;
     vibratoSpeedValue := vibratoSpeedValue p; changeAmountValue := changeAmountValue p;
     changeSpeedValue := changeSpeedValue p; squareDutyValue := squareDutyValue p;
     dutySweepValue := dutySweepValue p; repeatSpeedValue := repeatSpeedValue p;
     phaserOffsetValue := phaserOffsetValue p; phaserSweepValue := phaserSweepValue p;
     lpfCutoffValue := lpfCutoffValue p; lpfCutoffSweepValue := lpfCutoffSweepValue p;
     lpfResonanceValue := lpfResonanceValue p; hpfCutoffValue := hpfCutoffValue p;
     hpfCutoffSweepValue := hpfCutoffSweepValue p |}.

Definition set_sustainTimeValue (v : float) (p : WaveParams) : WaveParams :=
  {| randSeed := randSeed p; waveTypeValue := waveTypeValue p;
     attackTimeValue := attackTimeValue p; sustainTimeValue := v;
     sustainPunchValue := sustainPunchValue p; decayTimeValue := decayTimeValue p;
     startFrequencyValue := startFrequencyValue p; minFrequencyValue := minFrequencyValue p;
     slideValue := slideValue p; deltaSlideValue := deltaSlideValue p;
     vibratoDepthValue := vibratoDepthValue p; vibratoSpeedValue := vibratoSpeedValue p;
     changeAmountValue := changeAmountValue p; changeSpeedValue := changeSpeedValue p;
     squareDutyValue := squareDutyValue p; dutySweepValue := dutySweepValue p;
     repeatSpeedValue := repeatSpeedValue p; phaserOffsetValue := phaserOffsetValue p;
     phaserSweepValue := phaserSweepValue p; lpfCutoffValue := lpfCutoffValue p;
     lpfCutoffSweepValue := lpfCutoffSweepValue p; lpfResonanceValue := lpfResonanceValue p;
     hpfCutoffValue := hpfCutoffValue p; hpfCutoffSweepValue := hpfCutoffSweepValue p |}.

Definition set_sustainPunchValue (v : float) (p : WaveParams) : WaveParams :=
  {| randSeed := randSeed p; waveTypeValue := waveTypeValue p;
     attackTimeValue := attackTimeValue p; sustainTimeValue := sustainTimeValue p;
     sustainPunchValue := v; decayTimeValue := decayTimeValue p;
     startFrequencyValue := startFrequencyValue p; minFrequencyValue := minFrequencyValue p;
     slideValue := slideValue p; deltaSlideValue := deltaSlideValue p;
     vibratoDepthValue := vibratoDepthValue p; vibratoSpeedValue := vibratoSpeedValue p;
     changeAmountValue := changeAmountValue p; changeSpeedValue := changeSpeedValue p;
     squareDutyValue := squareDutyValue p; dutySweepValue := dutySweepValue p;
     repeatSpeedValue := repeatSpeedValue p; phaserOffsetValue := phaserOffsetValue p;
     phaserSweepValue := phaserSweepValue p; lpfCutoffValue := lpfCutoffValue p;
     lpfCutoffSweepValue := lpfCutoffSweepValue p; lpfResonanceValue := lpfResonanceValue p;
     hpfCutoffValue := hpfCutoffValue p; hpfCutoffSweepValue := hpfCutoffSweepValue p |}.

Definition set_decayTimeValue (v : float) (p : WaveParams) : WaveParams :=
  {| randSeed := randSeed p; waveTypeValue := waveTypeValue p;
     attackTimeValue := attackTimeValue p; sustainTimeValue := sustainTimeValue p;
     sustainPunchValue := sustainPunchValue p; decayTimeValue := v;
     startFrequencyValue := startFrequencyValue p; minFrequencyValue := minFrequencyValue p;
     slideValue := slideValue p; deltaSlideValue := deltaSlideValue p;
     vibratoDepthValue := vibratoDepthValue p; vibratoSpeedValue := vibratoSpeedValue p;
     changeAmountValue := changeAmountValue p; changeSpeedValue := changeSpeedValue p;
     squareDutyValue := squareDutyValue p; dutySweepValue := dutySweepValue p;
     repeatSpeedValue := repeatSpeedValue p; phaserOffsetValue := phaserOffsetValue p;
     phaserSweepValue := phaserSweepValue p; lpfCutoffValue := lpfCutoffValue p;
     lpfCutoffSweepValue := lpfCutoffSweepValue p; lpfResonanceValue := lpfResonanceValue p;
     hpfCutoffValue := hpfCutoffValue p; hpfCutoffSweepValue := hpfCutoffSweepValue p |}.

Definition set_startFrequencyValue (v : float) (p : WaveParams) : WaveParams :=
  {| randSeed := randSeed p; waveTypeValue := waveTypeValue p;
     attackTimeValue := attackTimeValue p; sustainTimeValue := sustainTimeValue p;
     sustainPunchValue := sustainPunchValue p; decayTimeValue := decayTimeValue p;
     startFrequencyValue := v; minFrequencyValue := minFrequencyValue p;
     slideValue := slideValue p; deltaSlideValue := deltaSlideValue p;
     vibratoDepthValue := vibratoDepthValue p; vibratoSpeedValue := vibratoSpeedValue p;
     changeAmountValue := changeAmountValue p; changeSpeedValue := changeSpeedValue p;
     squareDutyValue := squareDutyValue p; dutySweepValue := dutySweepValue p;
     repeatSpeedValue := repeatSpeedValue p; phaserOffsetValue := phaserOffsetValue p;
     phaserSweepValue := phaserSweepValue p; lpfCutoffValue := lpfCutoffValue p;
     lpfCutoffSweepValue := lpfCutoffSweepValue p; lpfResonanceValue := lpfResonanceValue p;
     hpfCutoffValue := hpfCutoffValue p; hpfCutoffSweepValue := hpfCutoffSweepValue p |}.

Definition set_minFrequencyValue (v : float) (p : WaveParams) : WaveParams :=
  {| randSeed := randSeed p; waveTypeValue := waveTypeValue p;
     attackTimeValue := attackTimeValue p; sustainTimeValue := sustainTimeValue p;
     sustainPunchValue := sustainPunchValue p; decayTimeValue := decayTimeValue p;
     startFrequencyValue := startFrequencyValue p; minFrequencyValue := v;
     slideValue := slideValue p; deltaSlideValue := deltaSlideValue p;
     vibratoDepthValue := vibratoDepthValue p; vibratoSpeedValue := vibratoSpeedValue p;
     changeAmountValue := changeAmountValue p; changeSpeedValue := changeSpeedValue p;
     squareDutyValue := squareDutyValue p; dutySweepValue := dutySweepValue p;
     repeatSpeedValue := repeatSpeedValue p; phaserOffsetValue := phaserOffsetValue p;
     phaserSweepValue := phaserSweepValue p; lpfCutoffValue := lpfCutoffValue p;
     lpfCutoffSweepValue := lpfCutoffSweepValue p; lpfResonanceValue := lpfResonanceValue p;
     hpfCutoffValue := hpfCutoffValue p; hpfCutoffSweepValue := hpfCutoffSweepValue p |}.

Definition set_slideValue (v : float) (p : WaveParams) : WaveParams :=
  {| randSeed := randSeed p; waveTypeValue := waveTypeValue p;
     attackTimeValue := attackTimeValue p; sustainTimeValue := sustainTimeValue p;
     sustainPunchValue := sustainPunchValue p; decayTimeValue := decayTimeValue p;
     startFrequencyValue := startFrequencyValue p; minFrequencyValue := minFrequencyValue p;
     slideValue := v; deltaSlideValue := deltaSlideValue p;
     vibratoDepthValue := vibratoDepthValue p; vibratoSpeedValue := vibratoSpeedValue p;
     changeAmountValue := changeAmountValue p; changeSpeedValue := changeSpeedValue p;
     squareDutyValue := squareDutyValue p; dutySweepValue := dutySweepValue p;
     repeatSpeedValue := repeatSpeedValue p; phaserOffsetValue := phaserOffsetValue p;
     phaserSweepValue := phaserSweepValue p; lpfCutoffValue := lpfCutoffValue p;
     lpfCutoffSweepValue := lpfCutoffSweepValue p; lpfResonanceValue := lpfResonanceValue p;
     hpfCutoffValue := hpfCutoffValue p; hpfCutoffSweepValue := hpfCutoffSweepValue p |}.

Definition set_deltaSlideValue (v : float) (p : WaveParams) : WaveParams :=
  {| randSeed := randSeed p; waveTypeValue := waveTypeValue p;
     attackTimeValue := attackTimeValue p; sustainTimeValue := sustainTimeValue p;
     sustainPunchValue := sustainPunchValue p; decayTimeValue := decayTimeValue p;
     startFrequencyValue := startFrequencyValue p; minFrequencyValue := minFrequencyValue p;
     slideValue := slideValue p; deltaSlideValue := v;
     vibratoDepthValue := vibratoDepthValue p; vibratoSpeedValue := vibratoSpeedValue p;
     changeAmountValue := changeAmountValue p; changeSpeedValue := changeSpeedValue p;
     squareDutyValue := squareDutyValue p; dutySweepValue := dutySweepValue p;
     repeatSpeedValue := repeatSpeedValue p; phaserOffsetValue := phaserOffsetValue p;
     phaserSweepValue := phaserSweepValue p; lpfCutoffValue := lpfCutoffValue p;
     lpfCutoffSweepValue := lpfCutoffSweepValue p; lpfResonanceValue := lpfResonanceValue p;
     hpfCutoffValue := hpfCutoffValue p; hpfCutoffSweepValue := hpfCutoffSweepValue p |}.

Definition set_vibratoDepthValue (v : float) (p : WaveParams) : WaveParams :=
  {| randSeed := randSeed p; waveTypeValue := waveTypeValue p;
     attackTimeValue := attackTimeValue p; sustainTimeValue := sustainTimeValue p;
     sustainPunchValue := sustainPunchValue p; decayTimeValue := decayTimeValue p;
     startFrequencyValue := startFrequencyValue p; minFrequencyValue := minFrequencyValue p;
     slideValue := slideValue p; deltaSlideValue := deltaSlideValue p; vibratoDepthValue := v;
     vibratoSpeedValue := vibratoSpeedValue p; changeAmountValue := changeAmountValue p;
     changeSpeedValue := changeSpeedValue p; squareDutyValue := squareDutyValue p;
     dutySweepValue := dutySweepValue p; repeatSpeedValue := repeatSpeedValue p;
     phaserOffsetValue := phaserOffsetValue p; phaserSweepValue := phaserSweepValue p;
     lpfCutoffValue := lpfCutoffValue p; lpfCutoffSweepValue := lpfCutoffSweepValue p;
     lpfResonanceValue := lpfResonanceValue p; hpfCutoffValue := hpfCutoffValue p;
     hpfCutoffSweepValue := hpfCutoffSweepValue p |}.

Definition set_vibratoSpeedValue (v : float) (p : WaveParams) : WaveParams :=
  {| randSeed := randSeed p; waveTypeValue := waveTypeValue p;
     attackTimeValue := attackTimeValue p; sustainTimeValue := sustainTimeValue p;
     sustainPunchValue := sustainPunchValue p; decayTimeValue := decayTimeValue p;
     startFrequencyValue := startFrequencyValue p; minFrequencyValue := minFrequencyValue p;
     slideValue := slideValue p; deltaSlideValue := deltaSlideValue p;
     vibratoDepthValue := vibratoDepthValue p; vibratoSpeedValue := v;
     changeAmountValue := changeAmountValue p; changeSpeedValue := changeSpeedValue p;
     squareDutyValue := squareDutyValue p; dutySweepValue := dutySweepValue p;
     repeatSpeedValue := repeatSpeedValue p; phaserOffsetValue := phaserOffsetValue p;
     phaserSweepValue := phaserSweepValue p; lpfCutoffValue := lpfCutoffValue p;
     lpfCutoffSweepValue := lpfCutoffSweepValue p; lpfResonanceValue := lpfResonanceValue p;
     hpfCutoffValue := hpfCutoffValue p; hpfCutoffSweepValue := hpfCutoffSweepValue p |}.

Definition set_changeAmountValue (v : float) (p : WaveParams) : WaveParams :=
  {| randSeed := randSeed p; waveTypeValue := waveTypeValue p;
     attackTimeValue := attackTimeValue p; sustainTimeValue := sustainTimeValue p;
     sustainPunchValue := sustainPunchValue p; decayTimeValue := decayTimeValue p;
     startFrequencyValue := startFrequencyValue p; minFrequencyValue := minFrequencyValue p;
     slideValue := slideValue p; deltaSlideValue := deltaSlideValue p;
     vibratoDepthValue := vibratoDepthValue p; vibratoSpeedValue := vibratoSpeedValue p;
     changeAmountValue := v; changeSpeedValue := changeSpeedValue p;
     squareDutyValue := squareDutyValue p; dutySweepValue := dutySweepValue p;
     repeatSpeedValue := repeatSpeedValue p; phaserOffsetValue := phaserOffsetValue p;
     phaserSweepValue := phaserSweepValue p; lpfCutoffValue := lpfCutoffValue p;
     lpfCutoffSweepValue := lpfCutoffSweepValue p; lpfResonanceValue := lpfResonanceValue p;
     hpfCutoffValue := hpfCutoffValue p; hpfCutoffSweepValue := hpfCutoffSweepValue p |}.

Definition set_changeSpeedValue (v : float) (p : WaveParams) : WaveParams :=
  {| randSeed := randSeed p; waveTypeValue := waveTypeValue p;
     attackTimeValue := attackTimeValue p; sustainTimeValue := sustainTimeValue p;
     sustainPunchValue := sustainPunchValue p; decayTimeValue := decayTimeValue p;
     startFrequencyValue := startFrequencyValue p; minFrequencyValue := minFrequencyValue p;
     slideValue := slideValue p; deltaSlideValue := deltaSlideValue p;
     vibratoDepthValue := vibratoDepthValue p; vibratoSpeedValue := vibratoSpeedValue p;
     changeAmountValue := changeAmountValue p; changeSpeedValue := v;
     squareDutyValue := squareDutyValue p; dutySweepValue := dutySweepValue p;
     repeatSpeedValue := repeatSpeedValue p; phaserOffsetValue := phaserOffsetValue p;
     phaserSweepValue := phaserSweepValue p; lpfCutoffValue := lpfCutoffValue p;
     lpfCutoffSweepValue := lpfCutoffSweepValue p; lpfResonanceValue := lpfResonanceValue p;
     hpfCutoffValue := hpfCutoffValue p; hpfCutoffSweepValue := hpfCutoffSweepValue p |}.

Definition set_squareDutyValue (v : float) (p : WaveParams) : WaveParams :=
  {| randSeed := randSeed p; waveTypeValue := waveTypeValue p;
     attackTimeValue := attackTimeValue p; sustainTimeValue := sustainTimeValue p;
     sustainPunchValue := sustainPunchValue p; decayTimeValue := decayTimeValue p;
     startFrequencyValue := startFrequencyValue p; minFrequencyValue := minFrequencyValue p;
     slideValue := slideValue p; deltaSlideValue := deltaSlideValue p;
     vibratoDepthValue := vibratoDepthValue p; vibratoSpeedValue := vibratoSpeedValue p;
     changeAmountValue := changeAmountValue p; changeSpeedValue := changeSpeedValue p;
     squareDutyValue := v; dutySweepValue := dutySweepValue p;
     repeatSpeedValue := repeatSpeedValue p; phaserOffsetValue := phaserOffsetValue p;
     phaserSweepValue := phaserSweepValue p; lpfCutoffValue := lpfCutoffValue p;
     lpfCutoffSweepValue := lpfCutoffSweepValue p; lpfResonanceValue := lpfResonanceValue p;
     hpfCutoffValue := hpfCutoffValue p; hpfCutoffSweepValue := hpfCutoffSweepValue p |}.

Definition set_dutySweepValue (v : float) (p : WaveParams) : WaveParams :=
  {| randSeed := randSeed p; waveTypeValue := waveTypeValue p;
     attackTimeValue := attackTimeValue p; sustainTimeValue := sustainTimeValue p;
     sustainPunchValue := sustainPunchValue p; decayTimeValue := decayTimeValue p;
     startFrequencyValue := startFrequencyValue p; minFrequencyValue := minFrequencyValue p;
     slideValue := slideValue p; deltaSlideValue := deltaSlideValue p;
     vibratoDepthValue := vibratoDepthValue p; vibratoSpeedValue := vibratoSpeedValue p;
     changeAmountValue := changeAmountValue p; changeSpeedValue := changeSpeedValue p;
     squareDutyValue := squareDutyValue p; dutySweepValue := v;
     repeatSpeedValue := repeatSpeedValue p; phaserOffsetValue := phaserOffsetValue p;
     phaserSweepValue := phaserSweepValue p; lpfCutoffValue := lpfCutoffValue p;
     lpfCutoffSweepValue := lpfCutoffSweepValue p; lpfResonanceValue := lpfResonanceValue p;
     hpfCutoffValue := hpfCutoffValue p; hpfCutoffSweepValue := hpfCutoffSweepValue p |}.

Definition set_repeatSpeedValue (v : float) (p : WaveParams) : WaveParams :=
  {| randSeed := randSeed p; waveTypeValue := waveTypeValue p;
     attackTimeValue := attackTimeValue p; sustainTimeValue := sustainTimeValue p;
     sustainPunchValue := sustainPunchValue p; decayTimeValue := decayTimeValue p;
     startFrequencyValue := startFrequencyValue p; minFrequencyValue := minFrequencyValue p;
     slideValue := slideValue p; deltaSlideValue := deltaSlideValue p;
     vibratoDepthValue := vibratoDepthValue p; vibratoSpeedValue := vibratoSpeedValue p;
     changeAmountValue := changeAmountValue p; changeSpeedValue := changeSpeedValue p;
     squareDutyValue := squareDutyValue p; dutySweepValue := dutySweepValue p;
     repeatSpeedValue := v; phaserOffsetValue := phaserOffsetValue p;
     phaserSweepValue := phaserSweepValue p; lpfCutoffValue := lpfCutoffValue p;
     lpfCutoffSweepValue := lpfCutoffSweepValue p; lpfResonanceValue := lpfResonanceValue p;
     hpfCutoffValue := hpfCutoffValue p; hpfCutoffSweepValue := hpfCutoffSweepValue p |}.

Definition set_phaserOffsetValue (v : float) (p : WaveParams) : WaveParams :=
  {| randSeed := randSeed p; waveTypeValue := waveTypeValue p;
     attackTimeValue := attackTimeValue p; sustainTimeValue := sustainTimeValue p;
     sustainPunchValue := sustainPunchValue p; decayTimeValue := decayTimeValue p;
     startFrequencyValue := startFrequencyValue p; minFrequencyValue := minFrequencyValue p;
     slideValue := slideValue p; deltaSlideValue := deltaSlideValue p;
     vibratoDepthValue := vibratoDepthValue p; vibratoSpeedValue := vibratoSpeedValue p;
     changeAmountValue := changeAmountValue p; changeSpeedValue := changeSpeedValue p;
     squareDutyValue := squareDutyValue p; dutySweepValue := dutySweepValue p;
     repeatSpeedValue := repeatSpeedValue p; phaserOffsetValue := v;
     phaserSweepValue := phaserSweepValue p; lpfCutoffValue := lpfCutoffValue p;
     lpfCutoffSweepValue := lpfCutoffSweepValue p; lpfResonanceValue := lpfResonanceValue p;
     hpfCutoffValue := hpfCutoffValue p; hpfCutoffSweepValue := hpfCutoffSweepValue p |}.

Definition set_phaserSweepValue (v : float) (p : WaveParams) : WaveParams :=
  {| randSeed := randSeed p; waveTypeValue := waveTypeValue p;
     attackTimeValue := attackTimeValue p; sustainTimeValue := sustainTimeValue p;
     sustainPunchValue := sustainPunchValue p; decayTimeValue := decayTimeValue p;
     startFrequencyValue := startFrequencyValue p; minFrequencyValue := minFrequencyValue p;
     slideValue := slideValue p; deltaSlideValue := deltaSlideValue p;
     vibratoDepthValue := vibratoDepthValue p; vibratoSpeedValue := vibratoSpeedValue p;
     changeAmountValue := changeAmountValue p; changeSpeedValue := changeSpeedValue p;
     squareDutyValue := squareDutyValue p; dutySweepValue := dutySweepValue p;
     repeatSpeedValue := repeatSpeedValue p; phaserOffsetValue := phaserOffsetValue p;
     phaserSweepValue := v; lpfCutoffValue := lpfCutoffValue p;
     lpfCutoffSweepValue := lpfCutoffSweepValue p; lpfResonanceValue := lpfResonanceValue p;
     hpfCutoffValue := hpfCutoffValue p; hpfCutoffSweepValue := hpfCutoffSweepValue p |}.

Definition set_lpfCutoffValue (v : float) (p : WaveParams) : WaveParams :=
  {| randSeed := randSeed p; waveTypeValue := waveTypeValue p;
     attackTimeValue := attackTimeValue p; sustainTimeValue := sustainTimeValue p;
     sustainPunchValue := sustainPunchValue p; decayTimeValue := decayTimeValue p;
     startFrequencyValue := startFrequencyValue p; minFrequencyValue := minFrequencyValue p;
     slideValue := slideValue p; deltaSlideValue := deltaSlideValue p;
     vibratoDepthValue := vibratoDepthValue p; vibratoSpeedValue := vibratoSpeedValue p;
     changeAmountValue := changeAmountValue p; changeSpeedValue := changeSpeedValue p;
     squareDutyValue := squareDutyValue p; dutySweepValue := dutySweepValue p;
     repeatSpeedValue := repeatSpeedValue p; phaserOffsetValue := phaserOffsetValue p;
     phaserSweepValue := phaserSweepValue p; lpfCutoffValue := v;
     lpfCutoffSweepValue := lpfCutoffSweepValue p; lpfResonanceValue := lpfResonanceValue p;
     hpfCutoffValue := hpfCutoffValue p; hpfCutoffSweepValue := hpfCutoffSweepValue p |}.

Definition set_lpfCutoffSweepValue (v : float) (p : WaveParams) : WaveParams :=
  {| randSeed := randSeed p; waveTypeValue := waveTypeValue p;
     attackTimeValue := attackTimeValue p; sustainTimeValue := sustainTimeValue p;
     sustainPunchValue := sustainPunchValue p; decayTimeValue := decayTimeValue p;
     startFrequencyValue := startFrequencyValue p; minFrequencyValue := minFrequencyValue p;
     slideValue := slideValue p; deltaSlideValue := deltaSlideValue p;
     vibratoDepthValue := vibratoDepthValue p; vibratoSpeedValue := vibratoSpeedValue p;
     changeAmountValue := changeAmountValue p; changeSpeedValue := changeSpeedValue p;
     squareDutyValue := squareDutyValue p; dutySweepValue := dutySweepValue p;
     repeatSpeedValue := repeatSpeedValue p; phaserOffsetValue := phaserOffsetValue p;
     phaserSweepValue := phaserSweepValue p; lpfCutoffValue := lpfCutoffValue p;
     lpfCutoffSweepValue := v; lpfResonanceValue := lpfResonanceValue p;
     hpfCutoffValue := hpfCutoffValue p; hpfCutoffSweepValue := hpfCutoffSweepValue p |}.

Definition set_lpfResonanceValue (v : float) (p : WaveParams) : WaveParams :=
  {| randSeed := randSeed p; waveTypeValue := waveTypeValue p;
     attackTimeValue := attackTimeValue p; sustainTimeValue := sustainTimeValue p;
     sustainPunchValue := sustainPunchValue p; decayTimeValue := decayTimeValue p;
     startFrequencyValue := startFrequencyValue p; minFrequencyValue := minFrequencyValue p;
     slideValue := slideValue p; deltaSlideValue := deltaSlideValue p;
     vibratoDepthValue := vibratoDepthValue p; vibratoSpeedValue := vibratoSpeedValue p;
     changeAmountValue := changeAmountValue p; changeSpeedValue := changeSpeedValue p;
     squareDutyValue := squareDutyValue p; dutySweepValue := dutySweepValue p;
     repeatSpeedValue := repeatSpeedValue p; phaserOffsetValue := phaserOffsetValue p;
     phaserSweepValue := phaserSweepValue p; lpfCutoffValue := lpfCutoffValue p;
     lpfCutoffSweepValue := lpfCutoffSweepValue p; lpfResonanceValue := v;
     hpfCutoffValue := hpfCutoffValue p; hpfCutoffSweepValue := hpfCutoffSweepValue p |}.

Definition set_hpfCutoffValue (v : float) (p : WaveParams) : WaveParams :=
  {| randSeed := randSeed p; waveTypeValue := waveTypeValue p;
     attackTimeValue := attackTimeValue p; sustainTimeValue := sustainTimeValue p;
     sustainPunchValue := sustainPunchValue p; decayTimeValue := decayTimeValue p;
     startFrequencyValue := startFrequencyValue p; minFrequencyValue := minFrequencyValue p;
     slideValue := slideValue p; deltaSlideValue := deltaSlideValue p;
     vibratoDepthValue := vibratoDepthValue p; vibratoSpeedValue := vibratoSpeedValue p;
     changeAmountValue := changeAmountValue p; changeSpeedValue := changeSpeedValue p;
     squareDutyValue := squareDutyValue p; dutySweepValue := dutySweepValue p;
     repeatSpeedValue := repeatSpeedValue p; phaserOffsetValue := phaserOffsetValue p;
     phaserSweepValue := phaserSweepValue p; lpfCutoffValue := lpfCutoffValue p;
     lpfCutoffSweepValue := lpfCutoffSweepValue p; lpfResonanceValue := lpfResonanceValue p;
     hpfCutoffValue := v; hpfCutoffSweepValue := hpfCutoffSweepValue p |}.

Definition set_hpfCutoffSweepValue (v : float) (p : WaveParams) : WaveParams :=
  {| randSeed := randSeed p; waveTypeValue := waveTypeValue p;
     attackTimeValue := attackTimeValue p; sustainTimeValue := sustainTimeValue p;
     sustainPunchValue := sustainPunchValue p; decayTimeValue := decayTimeValue p;
     startFrequencyValue := startFrequencyValue p; minFrequencyValue := minFrequencyValue p;
     slideValue := slideValue p; deltaSlideValue := deltaSlideValue p;
     vibratoDepthValue := vibratoDepthValue p; vibratoSpeedValue := vibratoSpeedValue p;
     changeAmountValue := changeAmountValue p; changeSpeedValue := changeSpeedValue p;
     squareDutyValue := squareDutyValue p; dutySweepValue := dutySweepValue p;
     repeatSpeedValue := repeatSpeedValue p; phaserOffsetValue := phaserOffsetValue p;
     phaserSweepValue := phaserSweepValue p; lpfCutoffValue := lpfCutoffValue p;
     lpfCutoffSweepValue := lpfCutoffSweepValue p; lpfResonanceValue := lpfResonanceValue p;
     hpfCutoffValue := hpfCutoffValue p; hpfCutoffSweepValue := v |}.

(** [WaveParams params = { 0 }]. *)
Definition zero_params : WaveParams :=
  {| randSeed := 0; waveTypeValue := 0; attackTimeValue := fzero; sustainTimeValue := fzero;
     sustainPunchValue := fzero; decayTimeValue := fzero; startFrequencyValue := fzero;
     minFrequencyValue := fzero; slideValue := fzero; deltaSlideValue := fzero;
     vibratoDepthValue := fzero; vibratoSpeedValue := fzero; changeAmountValue := fzero;
     changeSpeedValue := fzero; squareDutyValue := fzero; dutySweepValue := fzero;
     repeatSpeedValue := fzero; phaserOffsetValue := fzero; phaserSweepValue := fzero;
     lpfCutoffValue := fzero; lpfCutoffSweepValue := fzero; lpfResonanceValue := fzero;
     hpfCutoffValue := fzero; hpfCutoffSweepValue := fzero |}.

(** The values [ResetWaveParams] stores, with the seed it drew. *)
Definition default_params (seed : Z) : WaveParams :=
  {| randSeed := seed; waveTypeValue := 0;
     attackTimeValue := fzero; sustainTimeValue := f32 3 10;
     sustainPunchValue := fzero; decayTimeValue := f32 4 10;
     startFrequencyValue := f32 3 10; minFrequencyValue := fzero;
     slideValue := fzero; deltaSlideValue := fzero;
     vibratoDepthValue := fzero; vibratoSpeedValue := fzero;
     changeAmountValue := fzero; changeSpeedValue := fzero;
     squareDutyValue := fzero; dutySweepValue := fzero;
     repeatSpeedValue := fzero;
     phaserOffsetValue := fzero; phaserSweepValue := fzero;
     lpfCutoffValue := f32 1 1; lpfCutoffSweepValue := fzero;
     lpfResonanceValue := fzero; hpfCutoffValue := fzero;
     hpfCutoffSweepValue := fzero |}.

(** raylib's [Wave]: [data] holds [sampleCount] samples. *)
Record Wave := {
  sampleCount : Z;
  sampleRate : Z;
  sampleSize : Z;
  channels : Z;
  data : list float
}.

(* ===================================================================== *)
(** ** Program state and commands *)
(* ===================================================================== *)

Section Program.

Context {RS : RandomSource} {LM : Libm}.

(** The global variables of the program ([params], [volumeValue],
    [regenerate]), the state of the shared random generator, and the part of
    the environment the load and save functions touch: the files by name
    (with the names that [fopen(.., "wb")] refuses) and the text printed on
    the standard output. *)
Record Globals := {
  params : WaveParams;
  volumeValue : float;
  regenerate : bool;
  rand_state : rng;
  files : gmap string (list byte);
  readonly : gset string;
  console : list string
}.

Definition set_params (v : WaveParams) (st : Globals) : Globals :=
  {| params := v; volumeValue := volumeValue st; regenerate := regenerate st;
     rand_state := rand_state st; files := files st; readonly := readonly st;
     console := console st |}.

Definition set_volumeValue (v : float) (st : Globals) : Globals :=
  {| params := params st; volumeValue := v; regenerate := regenerate st;
     rand_state := rand_state st; files := files st; readonly := readonly st;
     console := console st |}.

Definition set_regenerate (v : bool) (st : Globals) : Globals :=
  {| params := params st; volumeValue := volumeValue st; regenerate := v;
     rand_state := rand_state st; files := files st; readonly := readonly st;
     console := console st |}.

Definition set_rand_state (v : rng) (st : Globals) : Globals :=
  {| params := params st; volumeValue := volumeValue st; regenerate := regenerate st;
     rand_state := v; files := files st; readonly := readonly st;
     console := console st |}.

Definition set_files (v : gmap string (list byte)) (st : Globals) : Globals :=
  {| params := params st; volumeValue := volumeValue st; regenerate := regenerate st;
     rand_state := rand_state st; files := v; readonly := readonly st;
     console := console st |}.

Definition set_console (v : list string) (st : Globals) : Globals :=
  {| params := params st; volumeValue := volumeValue st; regenerate := regenerate st;
     rand_state := rand_state st; files := files st; readonly := readonly st;
     console := v |}.

(** A command runs on the globals and returns a value. *)
Definition Cmd (A : Type) : Type := Globals -> A * Globals.

Definition ret {A} (a : A) : Cmd A := fun st => (a, st).
Definition bind {A B} (c : Cmd A) (k : A -> Cmd B) : Cmd B :=
  fun st => let (a, st') := c st in k a st'.
Definition get {A} (f : Globals -> A) : Cmd A := fun st => (f st, st).
Definition modify (f : Globals -> Globals) : Cmd unit := fun st => (tt, f st).
Definition exec {A} (c : Cmd A) (st : Globals) : Globals := (c st).2.
Definition when (b : bool) (c : Cmd unit) : Cmd unit := if b then c else ret tt.

Notation "x <- c ;; k" := (bind c (fun x => k))
  (at level 20, c at level 99, k at level 200, only parsing).
Notation "'do' c ;; k" := (bind c (fun _ => k))
  (at level 20, c at level 99, k at level 200, only parsing).

(** [params.member = v] on the global [params]. *)
Definition assign {V} (set : V -> WaveParams -> WaveParams) (v : V) : Cmd unit :=
  modify (fun st => set_params (set v (params st)) st).

(** [GetRandomValue(lo, hi)] and [srand(seed)] on the shared generator. *)
Definition rand_int (lo hi : Z) : Cmd Z :=
  fun st => let (v, g) := GetRandomValue lo hi (rand_state st) in (v, set_rand_state g st).

Definition seed_rng (seed : Z) : Cmd unit := modify (set_rand_state (srand seed)).

(** [#define frnd(range) ((float)GetRandomValue(0, 10000)/10000.0f*range)],
    as a function of the generator's state and as a command. *)
Definition frnd_value (range : float) (g : rng) : float * rng :=
  let (v, g') := GetRandomValue 0 10000 g in
  (fmul (fdiv (float_of_int v) (f32 10000 1)) range, g').

Definition frnd (range : float) : Cmd float :=
  fun st => let (x, g) := frnd_value range (rand_state st) in (x, set_rand_state g st).

(** [pow] called on [float] arguments: they are promoted to [double]. *)
Definition powd (x y : float) : double := pow (double_of_float x) (double_of_float y).

(** The result of [pow] on [float] arguments stored in a [float]. *)
Definition powf (x y : float) : float := float_of_double (powd x y).

(** *** ResetWaveParams *)

Definition ResetWaveParams : Cmd unit :=
  (* NOTE: Random seed is set to a random value *)
  seed <- rand_int 1 65534 ;;
  do assign set_randSeed seed ;;
  do seed_rng seed ;;
  do assign set_waveTypeValue 0 ;;
  do assign set_attackTimeValue fzero ;;
  do assign set_sustainTimeValue (f32 3 10) ;;
  do assign set_sustainPunchValue fzero ;;
  do assign set_decayTimeValue (f32 4 10) ;;
  do assign set_startFrequencyValue (f32 3 10) ;;
  do assign set_minFrequencyValue fzero ;;
  do assign set_slideValue fzero ;;
  do assign set_deltaSlideValue fzero ;;
  do assign set_vibratoDepthValue fzero ;;
  do assign set_vibratoSpeedValue fzero ;;
  do assign set_changeAmountValue fzero ;;
  do assign set_changeSpeedValue fzero ;;
  do assign set_squareDutyValue fzero ;;
  do assign set_dutySweepValue fzero ;;
  do assign set_repeatSpeedValue fzero ;;
  do assign set_phaserOffsetValue fzero ;;
  do assign set_phaserSweepValue fzero ;;
  do assign set_lpfCutoffValue (f32 1 1) ;;
  do assign set_lpfCutoffSweepValue fzero ;;
  do assign set_lpfResonanceValue fzero ;;
  do assign set_hpfCutoffValue fzero ;;
  assign set_hpfCutoffSweepValue fzero.

(** The current value of a member of the global [params]. *)
Definition member {V} (f : WaveParams -> V) : Cmd V := get (fun st => f (params st)).

(** *** Preset generators *)

(** Generate sound: Pickup/Coin *)
Definition GenPickupCoin : Cmd unit :=
  do ResetWaveParams ;;
  r <- frnd (f32 5 10) ;; do assign set_startFrequencyValue (fadd (f32 4 10) r) ;;
  do assign set_attackTimeValue fzero ;;
  r <- frnd (f32 1 10) ;; do assign set_sustainTimeValue r ;;
  r <- frnd (f32 4 10) ;; do assign set_decayTimeValue (fadd (f32 1 10) r) ;;
  r <- frnd (f32 3 10) ;; do assign set_sustainPunchValue (fadd (f32 3 10) r) ;;
  c <- rand_int 0 1 ;;
  do when (negb (c =? 0))
    (r <- frnd (f32 2 10) ;; do assign set_changeSpeedValue (fadd (f32 5 10) r) ;;
     r <- frnd (f32 4 10) ;; assign set_changeAmountValue (fadd (f32 2 10) r)) ;;
  modify (set_regenerate true).

(** Generate sound: Laser shoot *)
Definition GenLaserShoot : Cmd unit :=
  do ResetWaveParams ;;
  w <- rand_int 0 2 ;; do assign set_waveTypeValue w ;;
  do when (w =? 2)
    (c <- rand_int 0 1 ;;
     when (negb (c =? 0)) (w' <- rand_int 0 1 ;; assign set_waveTypeValue w')) ;;
  r <- frnd (f32 5 10) ;; do assign set_startFrequencyValue (fadd (f32 5 10) r) ;;
  sf <- member startFrequencyValue ;;
  r <- frnd (f32 6 10) ;; do assign set_minFrequencyValue (fsub (fsub sf (f32 2 10)) r) ;;
  mf <- member minFrequencyValue ;;
  do when (flt mf (f32 2 10)) (assign set_minFrequencyValue (f32 2 10)) ;;
  r <- frnd (f32 2 10) ;; do assign set_slideValue (fsub (fneg (f32 15 100)) r) ;;
  c <- rand_int 0 2 ;;
  do when (c =? 0)
    (r <- frnd (f32 6 10) ;; do assign set_startFrequencyValue (fadd (f32 3 10) r) ;;
     r <- frnd (f32 1 10) ;; do assign set_minFrequencyValue r ;;
     r <- frnd (f32 3 10) ;; assign set_slideValue (fsub (fneg (f32 35 100)) r)) ;;
  c <- rand_int 0 1 ;;
  do (if negb (c =? 0) then
        r <- frnd (f32 5 10) ;; do assign set_squareDutyValue r ;;
        r <- frnd (f32 2 10) ;; assign set_dutySweepValue r
      else
        r <- frnd (f32 5 10) ;; do assign set_squareDutyValue (fadd (f32 4 10) r) ;;
        r <- frnd (f32 7 10) ;; assign set_dutySweepValue (fneg r)) ;;
  do assign set_attackTimeValue fzero ;;
  r <- frnd (f32 2 10) ;; do assign set_sustainTimeValue (fadd (f32 1 10) r) ;;
  r <- frnd (f32 4 10) ;; do assign set_decayTimeValue r ;;
  c <- rand_int 0 1 ;;
  do when (negb (c =? 0)) (r <- frnd (f32 3 10) ;; assign set_sustainPunchValue r) ;;
  c <- rand_int 0 2 ;;
  do when (c =? 0)
    (r <- frnd (f32 2 10) ;; do assign set_phaserOffsetValue r ;;
     r <- frnd (f32 2 10) ;; assign set_phaserSweepValue (fneg r)) ;;
  c <- rand_int 0 1 ;;
  do when (negb (c =? 0)) (r <- frnd (f32 3 10) ;; assign set_hpfCutoffValue r) ;;
  modify (set_regenerate true).

(** Generate sound: Explosion *)
Definition GenExplosion : Cmd unit :=
  do ResetWaveParams ;;
  do assign set_waveTypeValue 3 ;;
  c <- rand_int 0 1 ;;
  do (if negb (c =? 0) then
        r <- frnd (f32 4 10) ;; do assign set_startFrequencyValue (fadd (f32 1 10) r) ;;
        r <- frnd (f32 4 10) ;; assign set_slideValue (fadd (fneg (f32 1 10)) r)
      else
        r <- frnd (f32 7 10) ;; do assign set_startFrequencyValue (fadd (f32 2 10) r) ;;
        r <- frnd (f32 2 10) ;; assign set_slideValue (fsub (fneg (f32 2 10)) r)) ;;
  sf <- member startFrequencyValue ;;
  do assign set_startFrequencyValue (fmul sf sf) ;;
  c <- rand_int 0 4 ;;
  do when (c =? 0) (assign set_slideValue fzero) ;;
  c <- rand_int 0 2 ;;
  do when (c =? 0) (r <- frnd (f32 5 10) ;; assign set_repeatSpeedValue (fadd (f32 3 10) r)) ;;
  do assign set_attackTimeValue fzero ;;
  r <- frnd (f32 3 10) ;; do assign set_sustainTimeValue (fadd (f32 1 10) r) ;;
  r <- frnd (f32 5 10) ;; do assign set_decayTimeValue r ;;
  c <- rand_int 0 1 ;;
  do when (c =? 0)
    (r <- frnd (f32 9 10) ;; do assign set_phaserOffsetValue (fadd (fneg (f32 3 10)) r) ;;
     r <- frnd (f32 3 10) ;; assign set_phaserSweepValue (fneg r)) ;;
  r <- frnd (f32 6 10) ;; do assign set_sustainPunchValue (fadd (f32 2 10) r) ;;
  c <- rand_int 0 1 ;;
  do when (negb (c =? 0))
    (r <- frnd (f32 7 10) ;; do assign set_vibratoDepthValue r ;;
     r <- frnd (f32 6 10) ;; assign set_vibratoSpeedValue r) ;;
  c <- rand_int 0 2 ;;
  do when (c =? 0)
    (r <- frnd (f32 3 10) ;; do assign set_changeSpeedValue (fadd (f32 6 10) r) ;;
     r <- frnd (f32 16 10) ;; assign set_changeAmountValue (fsub (f32 8 10) r)) ;;
  modify (set_regenerate true).

(** Generate sound: Powerup *)
Definition GenPowerup : Cmd unit :=
  do ResetWaveParams ;;
  c <- rand_int 0 1 ;;
  do (if negb (c =? 0) then assign set_waveTypeValue 1
      else r <- frnd (f32 6 10) ;; assign set_squareDutyValue r) ;;
  c <- rand_int 0 1 ;;
  do (if negb (c =? 0) then
        r <- frnd (f32 3 10) ;; do assign set_startFrequencyValue (fadd (f32 2 10) r) ;;
        r <- frnd (f32 4 10) ;; do assign set_slideValue (fadd (f32 1 10) r) ;;
        r <- frnd (f32 4 10) ;; assign set_repeatSpeedValue (fadd (f32 4 10) r)
      else
        r <- frnd (f32 3 10) ;; do assign set_startFrequencyValue (fadd (f32 2 10) r) ;;
        r <- frnd (f32 2 10) ;; do assign set_slideValue (fadd (f32 5 100) r) ;;
        c' <- rand_int 0 1 ;;
        when (negb (c' =? 0))
          (r <- frnd (f32 7 10) ;; do assign set_vibratoDepthValue r ;;
           r <- frnd (f32 6 10) ;; assign set_vibratoSpeedValue r)) ;;
  do assign set_attackTimeValue fzero ;;
  r <- frnd (f32 4 10) ;; do assign set_sustainTimeValue r ;;
  r <- frnd (f32 4 10) ;; do assign set_decayTimeValue (fadd (f32 1 10) r) ;;
  modify (set_regenerate true).

(** Generate sound: Hit/Hurt *)
Definition GenHitHurt : Cmd unit :=
  do ResetWaveParams ;;
  w <- rand_int 0 2 ;; do assign set_waveTypeValue w ;;
  do when (w =? 2) (assign set_waveTypeValue 3) ;;
  w <- member waveTypeValue ;;
  do when (w =? 0) (r <- frnd (f32 6 10) ;; assign set_squareDutyValue r) ;;
  r <- frnd (f32 6 10) ;; do assign set_startFrequencyValue (fadd (f32 2 10) r) ;;
  r <- frnd (f32 4 10) ;; do assign set_slideValue (fsub (fneg (f32 3 10)) r) ;;
  do assign set_attackTimeValue fzero ;;
  r <- frnd (f32 1 10) ;; do assign set_sustainTimeValue r ;;
  r <- frnd (f32 2 10) ;; do assign set_decayTimeValue (fadd (f32 1 10) r) ;;
  c <- rand_int 0 1 ;;
  do when (negb (c =? 0)) (r <- frnd (f32 3 10) ;; assign set_hpfCutoffValue r) ;;
  modify (set_regenerate true).

(** Generate sound: Jump *)
Definition GenJump : Cmd unit :=
  do ResetWaveParams ;;
  do assign set_waveTypeValue 0 ;;
  r <- frnd (f32 6 10) ;; do assign set_squareDutyValue r ;;
  r <- frnd (f32 3 10) ;; do assign set_startFrequencyValue (fadd (f32 3 10) r) ;;
  r <- frnd (f32 2 10) ;; do assign set_slideValue (fadd (f32 1 10) r) ;;
  do assign set_attackTimeValue fzero ;;
  r <- frnd (f32 3 10) ;; do assign set_sustainTimeValue (fadd (f32 1 10) r) ;;
  r <- frnd (f32 2 10) ;; do assign set_decayTimeValue (fadd (f32 1 10) r) ;;
  c <- rand_int 0 1 ;;
  do when (negb (c =? 0)) (r <- frnd (f32 3 10) ;; assign set_hpfCutoffValue r) ;;
  c <- rand_int 0 1 ;;
  do when (negb (c =? 0))
    (r <- frnd (f32 6 10) ;; assign set_lpfCutoffValue (fsub (f32 1 1) r)) ;;
  modify (set_regenerate true).

(** Generate sound: Blip/Select *)
Definition GenBlipSelect : Cmd unit :=
  do ResetWaveParams ;;
  w <- rand_int 0 1 ;; do assign set_waveTypeValue w ;;
  do when (w =? 0) (r <- frnd (f32 6 10) ;; assign set_squareDutyValue r) ;;
  r <- frnd (f32 4 10) ;; do assign set_startFrequencyValue (fadd (f32 2 10) r) ;;
  do assign set_attackTimeValue fzero ;;
  r <- frnd (f32 1 10) ;; do assign set_sustainTimeValue (fadd (f32 1 10) r) ;;
  r <- frnd (f32 2 10) ;; do assign set_decayTimeValue r ;;
  do assign set_hpfCutoffValue (f32 1 10) ;;
  modify (set_regenerate true).

(** *** Randomizer *)

(** [pow(frnd(2.0f) - 1.0f, k)] *)
Definition rnd_pow (k : float) : Cmd double :=
  r <- frnd (f32 2 1) ;; ret (powd (fsub r (f32 1 1)) k).

(** [frnd(2.0f) - 1.0f] *)
Definition rnd_signed : Cmd float :=
  r <- frnd (f32 2 1) ;; ret (fsub r (f32 1 1)).

(** Generate random sound.  The function is one sequence of statements;
    it is cut here where it passes from drawing members to correcting
    them. *)

(** The seed and the frequency members. *)
Definition draw_frequency : Cmd unit :=
  seed <- rand_int 0 65534 ;; do assign set_randSeed seed ;;
  v <- rnd_pow (f32 2 1) ;; do assign set_startFrequencyValue (float_of_double v) ;;
  c <- rand_int 0 1 ;;
  do when (negb (c =? 0))
    (v <- rnd_pow (f32 3 1) ;;
     assign set_startFrequencyValue (float_of_double (dadd v (double_of_float (f32 5 10))))) ;;
  do assign set_minFrequencyValue fzero ;;
  v <- rnd_pow (f32 5 1) ;; assign set_slideValue (float_of_double v).

(** The two [if] on [startFrequencyValue] and [slideValue]. *)
Definition correct_slide : Cmd unit :=
  sf <- member startFrequencyValue ;; sl <- member slideValue ;;
  do when (fgt sf (f32 7 10) && fgt sl (f32 2 10)) (assign set_slideValue (fneg sl)) ;;
  sf <- member startFrequencyValue ;; sl <- member slideValue ;;
  when (flt sf (f32 2 10) && flt sl (fneg (f32 5 100))) (assign set_slideValue (fneg sl)).

(** Delta slide, duty, vibrato and the envelope. *)
Definition draw_envelope : Cmd unit :=
  v <- rnd_pow (f32 3 1) ;; do assign set_deltaSlideValue (float_of_double v) ;;
  v <- rnd_signed ;; do assign set_squareDutyValue v ;;
  v <- rnd_pow (f32 3 1) ;; do assign set_dutySweepValue (float_of_double v) ;;
  v <- rnd_pow (f32 3 1) ;; do assign set_vibratoDepthValue (float_of_double v) ;;
  v <- rnd_signed ;; do assign set_vibratoSpeedValue v ;;
  v <- rnd_pow (f32 3 1) ;; do assign set_attackTimeValue (float_of_double v) ;;
  v <- rnd_pow (f32 2 1) ;; do assign set_sustainTimeValue (float_of_double v) ;;
  v <- rnd_signed ;; do assign set_decayTimeValue v ;;
  r <- frnd (f32 8 10) ;; assign set_sustainPunchValue (powf r (f32 2 1)).

(** The [if] on the summed envelope. *)
Definition correct_envelope : Cmd unit :=
  a <- member attackTimeValue ;; s <- member sustainTimeValue ;; d <- member decayTimeValue ;;
  when (flt (fadd (fadd a s) d) (f32 2 10))
    (r <- frnd (f32 3 10) ;; do assign set_sustainTimeValue (fadd s (fadd (f32 2 10) r)) ;;
     r <- frnd (f32 3 10) ;; assign set_decayTimeValue (fadd d (fadd (f32 2 10) r))).

(** The low-pass members. *)
Definition draw_lowpass : Cmd unit :=
  v <- rnd_signed ;; do assign set_lpfResonanceValue v ;;
  r <- frnd (f32 1 1) ;;
  do assign set_lpfCutoffValue
       (float_of_double (dsub (double_of_float (f32 1 1)) (powd r (f32 3 1)))) ;;
  v <- rnd_pow (f32 3 1) ;; assign set_lpfCutoffSweepValue (float_of_double v).

(** The [if] on the low-pass cutoff and its sweep. *)
Definition correct_lowpass : Cmd unit :=
  lc <- member lpfCutoffValue ;; ls <- member lpfCutoffSweepValue ;;
  when (flt lc (f32 1 10) && flt ls (fneg (f32 5 100)))
    (assign set_lpfCutoffSweepValue (fneg ls)).

(** High-pass, phaser, repeat and tone change. *)
Definition draw_effects : Cmd unit :=
  r <- frnd (f32 1 1) ;; do assign set_hpfCutoffValue (powf r (f32 5 1)) ;;
  v <- rnd_pow (f32 5 1) ;; do assign set_hpfCutoffSweepValue (float_of_double v) ;;
  v <- rnd_pow (f32 3 1) ;; do assign set_phaserOffsetValue (float_of_double v) ;;
  v <- rnd_pow (f32 3 1) ;; do assign set_phaserSweepValue (float_of_double v) ;;
  v <- rnd_signed ;; do assign set_repeatSpeedValue v ;;
  v <- rnd_signed ;; do assign set_changeSpeedValue v ;;
  v <- rnd_signed ;; assign set_changeAmountValue v.

Definition GenRandomize : Cmd unit :=
  do draw_frequency ;;
  do correct_slide ;;
  do draw_envelope ;;
  do correct_envelope ;;
  do draw_lowpass ;;
  do correct_lowpass ;;
  do draw_effects ;;
  modify (set_regenerate true).

(** *** Mutation *)

(** [if (GetRandomValue(0, 1)) params.member += frnd(0.1f) - 0.05f;] *)
Definition mutate (value : WaveParams -> float) (set : float -> WaveParams -> WaveParams)
    : Cmd unit :=
  c <- rand_int 0 1 ;;
  when (negb (c =? 0))
    (r <- frnd (f32 1 10) ;;
     x <- member value ;;
     assign set (fadd x (fsub r (f32 5 100)))).

(** Mutate current sound *)
Definition GenMutate : Cmd unit :=
  do mutate startFrequencyValue set_startFrequencyValue ;;
  do mutate slideValue set_slideValue ;;
  do mutate deltaSlideValue set_deltaSlideValue ;;
  do mutate squareDutyValue set_squareDutyValue ;;
  do mutate dutySweepValue set_dutySweepValue ;;
  do mutate vibratoDepthValue set_vibratoDepthValue ;;
  do mutate vibratoSpeedValue set_vibratoSpeedValue ;;
  do mutate attackTimeValue set_attackTimeValue ;;
  do mutate sustainTimeValue set_sustainTimeValue ;;
  do mutate decayTimeValue set_decayTimeValue ;;
  do mutate sustainPunchValue set_sustainPunchValue ;;
  do mutate lpfResonanceValue set_lpfResonanceValue ;;
  do mutate lpfCutoffValue set_lpfCutoffValue ;;
  do mutate lpfCutoffSweepValue set_lpfCutoffSweepValue ;;
  do mutate hpfCutoffValue set_hpfCutoffValue ;;
  do mutate hpfCutoffSweepValue set_hpfCutoffSweepValue ;;
  do mutate phaserOffsetValue set_phaserOffsetValue ;;
  do mutate phaserSweepValue set_phaserSweepValue ;;
  do mutate repeatSpeedValue set_repeatSpeedValue ;;
  do mutate changeSpeedValue set_changeSpeedValue ;;
  do mutate changeAmountValue set_changeAmountValue ;;
  modify (set_regenerate true).

End Program.

(* ===================================================================== *)
(** ** Synthesis engine: GenerateWave *)
(* ===================================================================== *)

Section Synthesis.

Context {RS : RandomSource} {LM : Libm}.

Definition MAX_WAVE_LENGTH_SECONDS : Z := 10.
Definition WAVE_SAMPLE_RATE : Z := 44100.
Definition MAX_SUPERSAMPLING : nat := 8.
Definition SAMPLE_SCALE_COEFICIENT : float := f32 2 10.

(** The local variables of [GenerateWave], grouped by the stage of the
    pipeline that owns them. *)

(** Period, slide, duty and arpeggio. *)
Record Tone := {
  fperiod : double;
  fmaxperiod : double;
  fslide : double;
  fdslide : double;
  period : Z;
  squareDuty : float;
  squareSlide : float;
  arpeggioTime : Z;
  arpeggioLimit : Z;
  arpeggioModulation : double
}.

Record Envelope := {
  envelopeStage : Z;
  envelopeTime : Z;
  envelopeLength : list Z;
  envelopeVolume : float
}.

Record Filter := {
  fltp : float;
  fltdp : float;
  fltw : float;
  fltwd : float;
  fltdmp : float;
  fltphp : float;
  flthp : float;
  flthpd : float
}.

Record Phaser := {
  fphase : float;
  fdphase : float;
  iphase : Z;
  phaserBuffer : list float;
  ipp : Z
}.

Record Vibrato := {
  vibratoPhase : float;
  vibratoSpeed : float;
  vibratoAmplitude : float
}.

(** All of them, with the oscillator phase, the noise table, the repeat
    counter, the loop flag and the state of the shared random generator. *)
Record Synth := {
  tone : Tone;
  envelope : Envelope;
  filter : Filter;
  phaser : Phaser;
  vibrato : Vibrato;
  phase : Z;
  noiseBuffer : list float;
  repeatTime : Z;
  repeatLimit : Z;
  generatingSample : bool;
  generator : rng
}.

Definition set_tone (v : Tone) (st : Synth) : Synth :=
  {| tone := v; envelope := envelope st; filter := filter st; phaser := phaser st;
     vibrato := vibrato st; phase := phase st; noiseBuffer := noiseBuffer st;
     repeatTime := repeatTime st; repeatLimit := repeatLimit st;
     generatingSample := generatingSample st; generator := generator st |}.

Definition set_envelope (v : Envelope) (st : Synth) : Synth :=
  {| tone := tone st; envelope := v; filter := filter st; phaser := phaser st;
     vibrato := vibrato st; phase := phase st; noiseBuffer := noiseBuffer st;
     repeatTime := repeatTime st; repeatLimit := repeatLimit st;
     generatingSample := generatingSample st; generator := generator st |}.

Definition set_filter (v : Filter) (st : Synth) : Synth :=
  {| tone := tone st; envelope := envelope st; filter := v; phaser := phaser st;
     vibrato := vibrato st; phase := phase st; noiseBuffer := noiseBuffer st;
     repeatTime := repeatTime st; repeatLimit := repeatLimit st;
     generatingSample := generatingSample st; generator := generator st |}.

Definition set_phaser (v : Phaser) (st : Synth) : Synth :=
  {| tone := tone st; envelope := envelope st; filter := filter st; phaser := v;
     vibrato := vibrato st; phase := phase st; noiseBuffer := noiseBuffer st;
     repeatTime := repeatTime st; repeatLimit := repeatLimit st;
     generatingSample := generatingSample st; generator := generator st |}.

Definition set_vibrato (v : Vibrato) (st : Synth) : Synth :=
  {| tone := tone st; envelope := envelope st; filter := filter st; phaser := phaser st;
     vibrato := v; phase := phase st; noiseBuffer := noiseBuffer st;
     repeatTime := repeatTime st; repeatLimit := repeatLimit st;
     generatingSample := generatingSample st; generator := generator st |}.

Definition set_phase (v : Z) (st : Synth) : Synth :=
  {| tone := tone st; envelope := envelope st; filter := filter st; phaser := phaser st;
     vibrato := vibrato st; phase := v; noiseBuffer := noiseBuffer st;
     repeatTime := repeatTime st; repeatLimit := repeatLimit st;
     generatingSample := generatingSample st; generator := generator st |}.

Definition set_noise (v : list float) (g : rng) (st : Synth) : Synth :=
  {| tone := tone st; envelope := envelope st; filter := filter st; phaser := phaser st;
     vibrato := vibrato st; phase := phase st; noiseBuffer := v;
     repeatTime := repeatTime st; repeatLimit := repeatLimit st;
     generatingSample := generatingSample st; generator := g |}.

Definition set_repeatTime (v : Z) (st : Synth) : Synth :=
  {| tone := tone st; envelope := envelope st; filter := filter st; phaser := phaser st;
     vibrato := vibrato st; phase := phase st; noiseBuffer := noiseBuffer st;
     repeatTime := v; repeatLimit := repeatLimit st;
     generatingSample := generatingSample st; generator := generator st |}.

Definition set_generatingSample (v : bool) (st : Synth) : Synth :=
  {| tone := tone st; envelope := envelope st; filter := filter st; phaser := phaser st;
     vibrato := vibrato st; phase := phase st; noiseBuffer := noiseBuffer st;
     repeatTime := repeatTime st; repeatLimit := repeatLimit st;
     generatingSample := v; generator := generator st |}.

(** *** Set-up *)

(** "HACK: Security check to avoid crash": the two clamps on the function's
    own copy of the parameters. *)
Definition working_copy (p : WaveParams) : WaveParams :=
  let p := if fgt (minFrequencyValue p) (startFrequencyValue p)
           then set_minFrequencyValue (startFrequencyValue p) p else p in
  if flt (slideValue p) (deltaSlideValue p)
  then set_slideValue (deltaSlideValue p) p else p.

(** [(int)(pow(1.0f - x, 2.0f)*20000 + 32)], the length of the arpeggio and
    repeat countdowns. *)
Definition countdown (x : float) : Z :=
  int_of_fp (dadd (dmul (powd (fsub (f32 1 1) x) (f32 2 1)) (double_of_int 20000))
                  (double_of_int 32)).

(** "Reset sample parameters": the computation made before the loop and
    made again, word for word, each time the repeat fires. *)
Definition reset_tone (p : WaveParams) : Tone :=
  let sf := startFrequencyValue p in
  let mf := minFrequencyValue p in
  let fperiod := ddiv (f64 100 1) (dadd (double_of_float (fmul sf sf)) (f64 1 1000)) in
  {| fperiod := fperiod;
     period := int_of_fp fperiod;
     fmaxperiod := ddiv (f64 100 1) (dadd (double_of_float (fmul mf mf)) (f64 1 1000));
     fslide := dsub (f64 1 1)
                 (dmul (pow (double_of_float (slideValue p)) (f64 3 1)) (f64 1 100));
     fdslide := dmul (fneg (pow (double_of_float (deltaSlideValue p)) (f64 3 1)))
                  (f64 1 1000000);
     squareDuty := fsub (f32 5 10) (fmul (squareDutyValue p) (f32 5 10));
     squareSlide := fmul (fneg (dutySweepValue p)) (f32 5 100000);
     arpeggioModulation :=
       (let ca := double_of_float (changeAmountValue p) in
        if fge (changeAmountValue p) fzero
        then dsub (f64 1 1) (dmul (pow ca (f64 2 1)) (f64 9 10))
        else dadd (f64 1 1) (dmul (pow ca (f64 2 1)) (f64 10 1)));
     arpeggioTime := 0;
     arpeggioLimit :=
       if feq (changeSpeedValue p) (f32 1 1) then 0 else countdown (changeSpeedValue p) |}.

Definition reset_filter (p : WaveParams) : Filter :=
  let fltw := float_of_double (dmul (powd (lpfCutoffValue p) (f32 3 1))
                                    (double_of_float (f32 1 10))) in
  let fltdmp :=
    float_of_double
      (dmul (ddiv (double_of_float (f32 5 1))
                  (dadd (double_of_float (f32 1 1))
                        (dmul (powd (lpfResonanceValue p) (f32 2 1))
                              (double_of_float (f32 20 1)))))
            (double_of_float (fadd (f32 1 100) fltw))) in
  {| fltp := fzero;
     fltdp := fzero;
     fltw := fltw;
     fltwd := fadd (f32 1 1) (fmul (lpfCutoffSweepValue p) (f32 1 10000));
     fltdmp := if fgt fltdmp (f32 8 10) then f32 8 10 else fltdmp;
     fltphp := fzero;
     flthp := float_of_double (dmul (powd (hpfCutoffValue p) (f32 2 1))
                                    (double_of_float (f32 1 10)));
     flthpd := float_of_double
                 (dadd (f64 1 1)
                       (double_of_float (fmul (hpfCutoffSweepValue p) (f32 3 10000)))) |}.

Definition reset_vibrato (p : WaveParams) : Vibrato :=
  {| vibratoPhase := fzero;
     vibratoSpeed := float_of_double (dmul (powd (vibratoSpeedValue p) (f32 2 1))
                                           (double_of_float (f32 1 100)));
     vibratoAmplitude := fmul (vibratoDepthValue p) (f32 5 10) |}.

Definition stage_length (x : float) : Z := int_of_fp (fmul (fmul x x) (f32 100000 1)).

Definition reset_envelope (p : WaveParams) : Envelope :=
  {| envelopeStage := 0;
     envelopeTime := 0;
     envelopeLength := [stage_length (attackTimeValue p);
                        stage_length (sustainTimeValue p);
                        stage_length (decayTimeValue p)];
     envelopeVolume := fzero |}.

Definition reset_phaser (p : WaveParams) : Phaser :=
  let signed (x v : float) := if flt x fzero then fneg v else v in
  let fphase := signed (phaserOffsetValue p)
                  (float_of_double (dmul (powd (phaserOffsetValue p) (f32 2 1))
                                         (double_of_float (f32 1020 1)))) in
  {| fphase := fphase;
     fdphase := signed (phaserSweepValue p)
                  (float_of_double (dmul (powd (phaserSweepValue p) (f32 2 1))
                                         (double_of_float (f32 1 1))));
     iphase := c_abs (int_of_fp fphase);
     phaserBuffer := replicate 1024 fzero;
     ipp := 0 |}.

(** [GetRandomFloat(2.0f) - 1.0f], and the 32 draws that fill the noise
    table, entry 0 first. *)
Definition noise_draw (g : rng) : float * rng :=
  let (v, g') := GetRandomValue 0 10000 g in
  (fsub (fmul (fdiv (float_of_int v) (f32 10000 1)) (f32 2 1)) (f32 1 1), g').

Fixpoint noise_table (n : nat) (g : rng) : list float * rng :=
  match n with
  | O => ([], g)
  | S n' =>
      let (x, g1) := noise_draw g in
      let (l, g2) := noise_table n' g1 in
      (x :: l, g2)
  end.

Definition repeat_limit (p : WaveParams) : Z :=
  if feq (repeatSpeedValue p) fzero then 0 else countdown (repeatSpeedValue p).

(** The state on entry to the loop; [p] is the working copy and [g] the
    state of the generator after the optional [srand]. *)
Definition reset_sample (p : WaveParams) (g : rng) : Synth :=
  let (noise, g') := noise_table 32 g in
  {| tone := reset_tone p;
     envelope := reset_envelope p;
     filter := reset_filter p;
     phaser := reset_phaser p;
     vibrato := reset_vibrato p;
     phase := 0;
     noiseBuffer := noise;
     repeatTime := 0;
     repeatLimit := repeat_limit p;
     generatingSample := true;
     generator := g' |}.

(** *** One pass of the loop body *)

(** The test on the repeat counter, after [repeatTime++]. *)
Definition repeat_fires (st : Synth) : bool :=
  negb (repeatLimit st =? 0) && (repeatLimit st <=? repeatTime st + 1).

(** "Reset sample parameters (only some of them)". *)
Definition repeat_reset (p : WaveParams) (st : Synth) : Synth :=
  set_tone (reset_tone p) (set_repeatTime 0 st).

Definition step_repeat (p : WaveParams) (st : Synth) : Synth :=
  if repeat_fires st then repeat_reset p st
  else set_repeatTime (repeatTime st + 1) st.

(** "Frequency envelopes/arpeggios", the frequency floor, the vibrato and
    the period of the sample. *)
Definition step_frequency (p : WaveParams) (st : Synth) : Synth :=
  let t := tone st in
  let arpeggioTime := arpeggioTime t + 1 in
  let arp := negb (arpeggioLimit t =? 0) && (arpeggioLimit t <=? arpeggioTime) in
  let arpeggioLimit := if arp then 0 else arpeggioLimit t in
  let fperiod := if arp then dmul (fperiod t) (arpeggioModulation t) else fperiod t in
  let fslide := dadd (fslide t) (fdslide t) in
  let fperiod := dmul fperiod fslide in
  let floor := fgt fperiod (fmaxperiod t) in
  let fperiod := if floor then fmaxperiod t else fperiod in
  let generating :=
    if floor && fgt (minFrequencyValue p) fzero then false else generatingSample st in
  let v := vibrato st in
  let vib := fgt (vibratoAmplitude v) fzero in
  let vibratoPhase := if vib then fadd (vibratoPhase v) (vibratoSpeed v) else vibratoPhase v in
  let rfperiod :=
    if vib
    then float_of_double
           (dmul fperiod
                 (dadd (f64 1 1)
                       (double_of_float (fmul (sinf vibratoPhase) (vibratoAmplitude v)))))
    else float_of_double fperiod in
  let period := int_of_fp rfperiod in
  let period := if period <? 8 then 8 else period in
  set_tone
    {| fperiod := fperiod; fmaxperiod := fmaxperiod t; fslide := fslide;
       fdslide := fdslide t; period := period; squareDuty := squareDuty t;
       squareSlide := squareSlide t; arpeggioTime := arpeggioTime;
       arpeggioLimit := arpeggioLimit; arpeggioModulation := arpeggioModulation t |}
    (set_vibrato
       {| vibratoPhase := vibratoPhase; vibratoSpeed := vibratoSpeed v;
          vibratoAmplitude := vibratoAmplitude v |}
       (set_generatingSample generating st)).

(** [if (x < lo) x = lo; if (x > hi) x = hi;] *)
Definition clamp (lo hi x : float) : float :=
  let x := if flt x lo then lo else x in
  if fgt x hi then hi else x.

Definition step_duty (st : Synth) : Synth :=
  let t := tone st in
  set_tone
    {| fperiod := fperiod t; fmaxperiod := fmaxperiod t; fslide := fslide t;
       fdslide := fdslide t; period := period t;
       squareDuty := clamp fzero (f32 5 10) (fadd (squareDuty t) (squareSlide t));
       squareSlide := squareSlide t; arpeggioTime := arpeggioTime t;
       arpeggioLimit := arpeggioLimit t; arpeggioModulation := arpeggioModulation t |}
    st.

(** [envelopeLength[k]]; the array has three entries. *)
Definition stage_len (e : Envelope) (k : Z) : Z := nth (Z.to_nat k) (envelopeLength e) 0.

(** "Volume envelope". *)
Definition step_envelope (p : WaveParams) (st : Synth) : Synth :=
  let e := envelope st in
  let envelopeTime := envelopeTime e + 1 in
  let next := stage_len e (envelopeStage e) <? envelopeTime in
  let envelopeTime := if next then 0 else envelopeTime in
  let envelopeStage := if next then envelopeStage e + 1 else envelopeStage e in
  let generating := if next && (envelopeStage =? 3) then false else generatingSample st in
  let ratio (k : Z) := fdiv (float_of_int envelopeTime) (float_of_int (stage_len e k)) in
  let volume := envelopeVolume e in
  let volume := if envelopeStage =? 0 then ratio 0 else volume in
  let volume :=
    if envelopeStage =? 1
    then float_of_double
           (dadd (double_of_float (f32 1 1))
                 (dmul (dmul (powd (fsub (f32 1 1) (ratio 1)) (f32 1 1))
                             (double_of_float (f32 2 1)))
                       (double_of_float (sustainPunchValue p))))
    else volume in
  let volume := if envelopeStage =? 2 then fsub (f32 1 1) (ratio 2) else volume in
  set_envelope
    {| envelopeStage := envelopeStage; envelopeTime := envelopeTime;
       envelopeLength := envelopeLength e; envelopeVolume := volume |}
    (set_generatingSample generating st).

(** "Phaser step". *)
Definition step_phaser (st : Synth) : Synth :=
  let ph := phaser st in
  let fphase := fadd (fphase ph) (fdphase ph) in
  let iphase := c_abs (int_of_fp fphase) in
  let iphase := if 1023 <? iphase then 1023 else iphase in
  set_phaser
    {| fphase := fphase; fdphase := fdphase ph; iphase := iphase;
       phaserBuffer := phaserBuffer ph; ipp := ipp ph |}
    st.

(** The sweep of the high-pass cutoff, skipped when [flthpd] is zero. *)
Definition step_hpf (st : Synth) : Synth :=
  let f := filter st in
  let flthp :=
    if fne (flthpd f) fzero
    then clamp (f32 1 100000) (f32 1 10) (fmul (flthp f) (flthpd f))
    else flthp f in
  set_filter
    {| fltp := fltp f; fltdp := fltdp f; fltw := fltw f; fltwd := fltwd f;
       fltdmp := fltdmp f; fltphp := fltphp f; flthp := flthp; flthpd := flthpd f |}
    st.

(** The base waveform at the current phase. *)
Definition waveform (p : WaveParams) (st : Synth) : float :=
  let fp := fdiv (float_of_int (phase st)) (float_of_int (period (tone st))) in
  match waveTypeValue p with
  | 0 => if flt fp (squareDuty (tone st)) then f32 5 10 else fneg (f32 5 10)
  | 1 => fsub (f32 1 1) (fmul fp (float_of_int 2))
  | 2 => sinf (fmul (fmul fp (float_of_int 2)) PI)
  | 3 => nth (Z.to_nat (Z.quot (phase st * 32) (period (tone st)))) (noiseBuffer st) fzero
  | _ => fzero
  end.

(** Advance the oscillator: [phase++], wrap, and on a wrap redraw the noise
    table when the wave is noise. *)
Definition step_phase (p : WaveParams) (st : Synth) : Synth :=
  let phase := phase st + 1 in
  if period (tone st) <=? phase then
    let st := set_phase (Z.rem phase (period (tone st))) st in
    if waveTypeValue p =? 3
    then let (noise, g) := noise_table 32 (generator st) in set_noise noise g st
    else st
  else set_phase phase st.

(** "LP filter" and "HP filter" on one sub-sample; returns the filtered
    sub-sample. *)
Definition step_filter (p : WaveParams) (sample : float) (f : Filter) : Filter * float :=
  let pp := fltp f in
  let fltw := clamp fzero (f32 1 10) (fmul (fltw f) (fltwd f)) in
  let on := fne (lpfCutoffValue p) (f32 1 1) in
  let fltdp :=
    if on
    then (let d := fadd (fltdp f) (fmul (fsub sample (fltp f)) fltw) in
          fsub d (fmul d (fltdmp f)))
    else fzero in
  let fltp := if on then fltp f else sample in
  let fltp := fadd fltp fltdp in
  let fltphp := fadd (fltphp f) (fsub fltp pp) in
  let fltphp := fsub fltphp (fmul fltphp (flthp f)) in
  ({| fltp := fltp; fltdp := fltdp; fltw := fltw; fltwd := fltwd f; fltdmp := fltdmp f;
      fltphp := fltphp; flthp := flthp f; flthpd := flthpd f |}, fltphp).

(** "Phaser" on one sub-sample: store it in the delay line and add the
    delayed one. *)
Definition step_delay (sample : float) (ph : Phaser) : Phaser * float :=
  let buffer := <[Z.to_nat (Z.land (ipp ph) 1023) := sample]> (phaserBuffer ph) in
  let delayed :=
    nth (Z.to_nat (Z.land (ipp ph - iphase ph + 1024) 1023)) buffer fzero in
  ({| fphase := fphase ph; fdphase := fdphase ph; iphase := iphase ph;
      phaserBuffer := buffer; ipp := Z.land (ipp ph + 1) 1023 |},
   fadd sample delayed).

(** One pass of the supersampling loop: [ssample] is the running sum. *)
Definition supersample (p : WaveParams) (acc : Synth * float) : Synth * float :=
  let (st, ssample) := acc in
  let st := step_phase p st in
  let sample := waveform p st in
  let (f, sample) := step_filter p sample (filter st) in
  let (ph, sample) := step_delay sample (phaser st) in
  (set_phaser ph (set_filter f st),
   fadd ssample (fmul sample (envelopeVolume (envelope st)))).

(** The part of the body before the supersampling loop. *)
Definition advance (p : WaveParams) (st : Synth) : Synth :=
  let st := step_repeat p st in
  let st := step_frequency p st in
  let st := step_duty st in
  let st := step_envelope p st in
  let st := step_phaser st in
  step_hpf st.

(** The whole body: the state after it and the value stored in
    [buffer[i]]. *)
Definition render_sample (p : WaveParams) (st : Synth) : Synth * float :=
  let st := advance p st in
  let (st, ssample) := Nat.iter MAX_SUPERSAMPLING (supersample p) (st, fzero) in
  let ssample :=
    fmul (fdiv ssample (float_of_int (Z.of_nat MAX_SUPERSAMPLING))) SAMPLE_SCALE_COEFICIENT in
  let ssample := if fgt ssample (f32 1 1) then f32 1 1 else ssample in
  let ssample := if flt ssample (fneg (f32 1 1)) then fneg (f32 1 1) else ssample in
  (st, ssample).

(** *** The loop and the function *)

(** The [for] loop from index [i] with [fuel] indices left below the bound.
    [buffer] holds the samples stored so far, [buffer[0]] first (the rest of
    the allocated block still holds the zeros of [calloc]).  The result
    is the final value of [sampleCount], which is assigned only on the
    [break], with the buffer and the last state. *)
Fixpoint render_loop (fuel : nat) (p : WaveParams) (i : Z) (st : Synth)
    (buffer : list float) : Z * list float * Synth :=
  match fuel with
  | O => (0, buffer, st)
  | S fuel' =>
      if negb (generatingSample st) then (i, buffer, st)
      else
        let (st', ssample) := render_sample p st in
        render_loop fuel' p (i + 1) st' (buffer ++ [ssample])
  end.

(** The state on entry to the loop for the argument [p], when the shared
    generator is in state [g]: the generator is first reseeded if the seed
    is not zero. *)
Definition entry (p : WaveParams) (g : rng) : Synth :=
  reset_sample (working_copy p)
    (if negb (randSeed p =? 0) then srand (randSeed p) else g).

(** The whole run of the loop: the final [sampleCount], the samples stored
    in the buffer and the last state. *)
Definition rendered (p : WaveParams) (g : rng) : Z * list float * Synth :=
  render_loop (Z.to_nat (MAX_WAVE_LENGTH_SECONDS * WAVE_SAMPLE_RATE))
    (working_copy p) 0 (entry p g) [].

(** The state after [n] passes of the loop body. *)
Definition loop_state (p : WaveParams) (g : rng) (n : nat) : Synth :=
  Nat.iter n (fun st => (render_sample (working_copy p) st).1) (entry p g).

(** Generates new wave from wave parameters.  The argument is passed by
    value: the function works on its own copy. *)
Definition GenerateWave (p : WaveParams) : Cmd Wave :=
  fun st =>
    let '(count, buffer, final) := rendered p (rand_state st) in
    ({| sampleCount := count;
        sampleRate := WAVE_SAMPLE_RATE;
        sampleSize := 32;
        channels := 1;
        data := take (Z.to_nat (count * 1)) buffer |},
     set_rand_state (generator final) st).

End Synthesis.

(* ===================================================================== *)
(** ** Persistence: LoadWaveParams and SaveWaveParams *)
(* ===================================================================== *)

(** *** Objects as bytes *)

Module Bytes.

Definition byte_of_Z (z : Z) : byte :=
  match Byte.of_N (Z.to_N (z mod 256)) with Some b => b | None => x00 end.

Definition Z_of_byte (b : byte) : Z := Z.of_N (Byte.to_N b).

(** A 32-bit word, least significant byte first (the byte order of the
    machines the tool runs on). *)
Definition word_bytes (w : Z) : list byte :=
  [byte_of_Z w; byte_of_Z (w / 2 ^ 8); byte_of_Z (w / 2 ^ 16); byte_of_Z (w / 2 ^ 24)].

Definition word_of_bytes (bs : list byte) : Z :=
  Z_of_byte (nth 0 bs x00) + 2 ^ 8 * Z_of_byte (nth 1 bs x00)
  + 2 ^ 16 * Z_of_byte (nth 2 bs x00) + 2 ^ 24 * Z_of_byte (nth 3 bs x00).

(** An [int] in two's complement. *)
Definition int_bytes (n : Z) : list byte := word_bytes (n mod 2 ^ 32).
Definition int_of_bytes (bs : list byte) : Z :=
  let w := word_of_bytes bs in if w <? 2 ^ 31 then w else w - 2 ^ 32.

(** A [float] as its four bytes.  [spec_float] has one NaN, written here
    as the quiet NaN 0x7FC00000: the sign and payload that a NaN of the C
    type carries, and that [fwrite] copies, are not represented. *)
Definition float_bytes (x : float) : list byte := word_bytes (bits_of_float x).
Definition float_of_bytes (bs : list byte) : float := float_of_bits (word_of_bytes bs).

(** The 96 bytes of a [WaveParams] object: its members in order, without
    padding. *)
Definition params_bytes (p : WaveParams) : list byte :=
  int_bytes (randSeed p) ++ int_bytes (waveTypeValue p)
  ++ concat (map float_bytes
       [attackTimeValue p; sustainTimeValue p; sustainPunchValue p; decayTimeValue p;
        startFrequencyValue p; minFrequencyValue p; slideValue p; deltaSlideValue p;
        vibratoDepthValue p; vibratoSpeedValue p; changeAmountValue p; changeSpeedValue p;
        squareDutyValue p; dutySweepValue p; repeatSpeedValue p; phaserOffsetValue p;
        phaserSweepValue p; lpfCutoffValue p; lpfCutoffSweepValue p; lpfResonanceValue p;
        hpfCutoffValue p; hpfCutoffSweepValue p]).

Definition params_of_bytes (bs : list byte) : WaveParams :=
  let i (k : nat) := int_of_bytes (drop (4 * k) bs) in
  let f (k : nat) := float_of_bytes (drop (4 * k) bs) in
  {| randSeed := i 0%nat; waveTypeValue := i 1%nat;
     attackTimeValue := f 2%nat; sustainTimeValue := f 3%nat;
     sustainPunchValue := f 4%nat; decayTimeValue := f 5%nat;
     startFrequencyValue := f 6%nat; minFrequencyValue := f 7%nat;
     slideValue := f 8%nat; deltaSlideValue := f 9%nat;
     vibratoDepthValue := f 10%nat; vibratoSpeedValue := f 11%nat;
     changeAmountValue := f 12%nat; changeSpeedValue := f 13%nat;
     squareDutyValue := f 14%nat; dutySweepValue := f 15%nat;
     repeatSpeedValue := f 16%nat; phaserOffsetValue := f 17%nat;
     phaserSweepValue := f 18%nat; lpfCutoffValue := f 19%nat;
     lpfCutoffSweepValue := f 20%nat; lpfResonanceValue := f 21%nat;
     hpfCutoffValue := f 22%nat; hpfCutoffSweepValue := f 23%nat |}.

(** [fread(&object, 1, n, file)]: the bytes the file still has, at most
    [n], overwrite the beginning of the object; the result is the object's
    new bytes and the rest of the file. *)
Definition fread (n : nat) (object : list byte) (file : list byte)
    : list byte * list byte :=
  let got := take n file in
  (got ++ drop (length got) object, drop n file).

Definition fread_int (old : Z) (file : list byte) : Z * list byte :=
  let (bs, rest) := fread 4 (int_bytes old) file in (int_of_bytes bs, rest).

Definition fread_float (old : float) (file : list byte) : float * list byte :=
  let (bs, rest) := fread 4 (float_bytes old) file in (float_of_bytes bs, rest).

(** The signature of an .rfx file, ["rFX "]. *)
Definition signature : list byte := [x72; x46; x58; x20].

End Bytes.
Import Bytes.

(** raylib's file-name helpers, which are not part of the repository.
    [GetExtension] returns a pointer into the name, or NULL ([None]): the
    dialogs of the program test it against NULL.  [IsFileExtension] takes a
    file name and an extension written with its dot; the command line and
    the dialogs hand it whole names, [LoadWaveParams] and [SaveWaveParams]
    hand it what [GetExtension] returned. *)
Class FileNames := {
  GetExtension : string -> option string;
  IsFileExtension : string -> string -> bool
}.

(** The text holds a dot. *)
Fixpoint dotted (text : string) : bool :=
  match text with
  | EmptyString => false
  | String c rest => Ascii.eqb c "."%char || dotted rest
  end.

(** The two helpers as raylib 2.x, the version that the header of the
    source names, has them: [GetExtension] returns the text that follows the
    last dot of the name, and [IsFileExtension] compares the extension with
    the name from its last dot on, so that it is false of a name without a
    dot. *)
Definition raylib_names {FN : FileNames} : Prop :=
  (forall fileName e, GetExtension fileName = Some e -> dotted e = false)
  /\ (forall fileName ext, IsFileExtension fileName ext = true -> dotted fileName = true).

(** A [WaveParams] object as the C type has it: two 32-bit [int] and
    twenty-two binary32 numbers. *)
Definition is_int (n : Z) : bool := (INT_MIN <=? n) && (n <=? INT_MAX).

Definition float_members (p : WaveParams) : list float :=
  [attackTimeValue p; sustainTimeValue p; sustainPunchValue p; decayTimeValue p;
   startFrequencyValue p; minFrequencyValue p; slideValue p; deltaSlideValue p;
   vibratoDepthValue p; vibratoSpeedValue p; changeAmountValue p; changeSpeedValue p;
   squareDutyValue p; dutySweepValue p; repeatSpeedValue p; phaserOffsetValue p;
   phaserSweepValue p; lpfCutoffValue p; lpfCutoffSweepValue p; lpfResonanceValue p;
   hpfCutoffValue p; hpfCutoffSweepValue p].

Definition well_formed (p : WaveParams) : bool :=
  is_int (randSeed p) && is_int (waveTypeValue p) && forallb is_float (float_members p).

Section Persistence.

Context {RS : RandomSource} {FN : FileNames}.

(** What the two automatic variables that [LoadWaveParams] declares without
    an initializer ([signature] and, in the .rfx branch, [version]) hold
    before [fread] writes to them: indeterminate, hence arbitrary. *)
Variable indeterminate_signature : list byte.
Variable indeterminate_version : Z.

Notation "x <- c ;; k" := (bind c (fun x => k))
  (at level 20, c at level 99, k at level 200, only parsing).
Notation "'do' c ;; k" := (bind c (fun _ => k))
  (at level 20, c at level 99, k at level 200, only parsing).

(** [IsFileExtension(GetExtension(fileName), ext)].  When [GetExtension]
    returns NULL the call hands NULL to [IsFileExtension], which expects a
    file name: the behaviour is undefined ([None]). *)
Definition has_extension (fileName ext : string) : option bool :=
  match GetExtension fileName with
  | Some extension => Some (IsFileExtension extension ext)
  | None => None
  end.

(** [if (c) a else b] on a test [c] that may be undefined; the result is
    [None] from there on. *)
Definition test {A} (c : option bool) (a b : Cmd (option A)) : Cmd (option A) :=
  match c with
  | Some true => a
  | Some false => b
  | None => ret None
  end.

Definition newline : string := String (Ascii.ascii_of_nat 10) "".

Definition printf (text : string) : Cmd unit :=
  modify (fun st => set_console (console st ++ [text]) st).

(** The three diagnostics of [LoadWaveParams]. *)
Definition msg_sfs_version (fileName : string) : string :=
  "[" +:+ fileName +:+ "] SFS file version not supported" +:+ newline.
Definition msg_rfx_version (fileName : string) : string :=
  "[" +:+ fileName +:+ "] Wrong rFX file version (100)" +:+ newline.
Definition msg_rfx_invalid (fileName : string) : string :=
  "[" +:+ fileName +:+ "] rFX file does not seem to be valid" +:+ newline.

(** The body of an .sfs file after its version: what each [fread] of the
    sequence fills. *)
Inductive SfsItem :=
| SfsWaveType
| SfsVolume
| SfsFloat (member : WaveParams -> float) (set : float -> WaveParams -> WaveParams)
| SfsUnused (size : nat).

Definition sfs_layout (version : Z) : list SfsItem :=
  [SfsWaveType]
  ++ (if version =? 102 then [SfsVolume] else [])
  ++ [SfsFloat startFrequencyValue set_startFrequencyValue;
      SfsFloat minFrequencyValue set_minFrequencyValue;
      SfsFloat slideValue set_slideValue]
  ++ (if 101 <=? version then [SfsFloat deltaSlideValue set_deltaSlideValue] else [])
  ++ [SfsFloat squareDutyValue set_squareDutyValue;
      SfsFloat dutySweepValue set_dutySweepValue;
      SfsFloat vibratoDepthValue set_vibratoDepthValue;
      SfsFloat vibratoSpeedValue set_vibratoSpeedValue;
      SfsUnused 4 (* vibratoPhaseDelay *);
      SfsFloat attackTimeValue set_attackTimeValue;
      SfsFloat sustainTimeValue set_sustainTimeValue;
      SfsFloat decayTimeValue set_decayTimeValue;
      SfsFloat sustainPunchValue set_sustainPunchValue;
      SfsUnused 1 (* filterOn *);
      SfsFloat lpfResonanceValue set_lpfResonanceValue;
      SfsFloat lpfCutoffValue set_lpfCutoffValue;
      SfsFloat lpfCutoffSweepValue set_lpfCutoffSweepValue;
      SfsFloat hpfCutoffValue set_hpfCutoffValue;
      SfsFloat hpfCutoffSweepValue set_hpfCutoffSweepValue;
      SfsFloat phaserOffsetValue set_phaserOffsetValue;
      SfsFloat phaserSweepValue set_phaserSweepValue;
      SfsFloat repeatSpeedValue set_repeatSpeedValue]
  ++ (if 101 <=? version
      then [SfsFloat changeSpeedValue set_changeSpeedValue;
            SfsFloat changeAmountValue set_changeAmountValue]
      else []).

(** One [fread] of the sequence, on the local [params], the global
    [volumeValue] and the rest of the file. *)
Definition sfs_read (acc : WaveParams * float * list byte) (item : SfsItem)
    : WaveParams * float * list byte :=
  let '(p, volume, file) := acc in
  match item with
  | SfsWaveType =>
      let (v, rest) := fread_int (waveTypeValue p) file in (set_waveTypeValue v p, volume, rest)
  | SfsVolume =>
      let (v, rest) := fread_float volume file in (p, v, rest)
  | SfsFloat member set =>
      let (v, rest) := fread_float (member p) file in (set v p, volume, rest)
  | SfsUnused size => (p, volume, drop size file)
  end.

(** Load .rfx (rFXGen) or .sfs (sfxr) sound parameters file *)
Definition LoadWaveParams (fileName : string) : Cmd (option WaveParams) :=
  let params := zero_params in
  test (has_extension fileName ".sfs")
    (file <- get (fun st => files st !! fileName) ;;
     match file with
     | None => ret (Some params)
     | Some content =>
         let (version, rest) := fread_int 0 content in
         if (version =? 100) || (version =? 101) || (version =? 102) then
           let '(params, volume, _) :=
             fold_left sfs_read (sfs_layout version) (params, f32 5 10, rest) in
           do modify (set_volumeValue volume) ;;
           ret (Some params)
         else
           do printf (msg_sfs_version fileName) ;;
           ret (Some params)
     end)
    (test (has_extension fileName ".rfx")
       (file <- get (fun st => files st !! fileName) ;;
        match file with
        | None => ret (Some params)
        | Some content =>
            let (sig, rest) := fread 4 indeterminate_signature content in
            if Byte.eqb (nth 0 sig x00) x72 && Byte.eqb (nth 1 sig x00) x46
               && Byte.eqb (nth 2 sig x00) x58 && Byte.eqb (nth 3 sig x00) x20 then
              let (version, rest) := fread_int indeterminate_version rest in
              if version =? 100 then
                do printf (msg_rfx_version fileName) ;;
                ret (Some params)
              else if version =? 120 then
                ret (Some (params_of_bytes (fread 96 (params_bytes params) rest).1))
              else ret (Some params)
            else
              do printf (msg_rfx_invalid fileName) ;;
              ret (Some params)
        end)
       (ret (Some params))).

Definition TOOL_VERSION_TEXT_BINARY : Z := 120.

(** Save .rfx sound parameters file *)
Definition SaveWaveParams (params : WaveParams) (fileName : string) : Cmd (option unit) :=
  test (has_extension fileName ".rfx")
    (denied <- get (fun st => bool_decide (fileName ∈ readonly st)) ;;
     if denied then ret (Some tt)
     else
       do modify (fun st =>
            set_files
              (<[fileName := signature ++ word_bytes TOOL_VERSION_TEXT_BINARY
                             ++ params_bytes params]> (files st))
              st) ;;
       ret (Some tt))
    (ret (Some tt)).

End Persistence.

(* ===================================================================== *)
(** ** Command line: ProcessCommandLine *)
(* ===================================================================== *)

(** [Wave wave = { 0 }]. *)
Definition zero_wave : Wave :=
  {| sampleCount := 0; sampleRate := 0; sampleSize := 0; channels := 0; data := [] |}.

(** What [ProcessCommandLine] calls outside the repository: the C library's
    [atoi], raylib's [SplitText] (the pieces of a text between the
    delimiters, [numValues] being their number), and raylib's audio
    functions, which read and write files.  [PlayWaveCLI] is a function of
    the program, but all it does is drive the audio device and wait on the
    clock; it is taken here for the text it prints. *)
Class CommandLineLibrary := {
  atoi : string -> Z;
  SplitText : string -> Ascii.ascii -> list string;
  LoadWave : string -> gmap string (list byte) -> Wave;
  WaveFormat : Wave -> Z -> Z -> Z -> Wave;
  ExportWave : Wave -> string -> gmap string (list byte) -> gmap string (list byte);
  ExportWaveAsCode : Wave -> string -> gmap string (list byte) -> gmap string (list byte);
  PlayWaveCLI : Wave -> list string
}.

Module CommandLine.

(** The local variables of [ProcessCommandLine]. *)
Record Options := {
  showUsageInfo : bool;
  inFileName : string;
  outFileName : string;
  playFileName : string;
  sampleRate : Z;
  sampleSize : Z;
  channels : Z
}.

Definition set_showUsageInfo (v : bool) (o : Options) : Options :=
  {| showUsageInfo := v; inFileName := inFileName o; outFileName := outFileName o;
     playFileName := playFileName o; sampleRate := sampleRate o; sampleSize := sampleSize o;
     channels := channels o |}.

Definition set_inFileName (v : string) (o : Options) : Options :=
  {| showUsageInfo := showUsageInfo o; inFileName := v; outFileName := outFileName o;
     playFileName := playFileName o; sampleRate := sampleRate o; sampleSize := sampleSize o;
     channels := channels o |}.

Definition set_outFileName (v : string) (o : Options) : Options :=
  {| showUsageInfo := showUsageInfo o; inFileName := inFileName o; outFileName := v;
     playFileName := playFileName o; sampleRate := sampleRate o; sampleSize := sampleSize o;
     channels := channels o |}.

Definition set_playFileName (v : string) (o : Options) : Options :=
  {| showUsageInfo := showUsageInfo o; inFileName := inFileName o;
     outFileName := outFileName o; playFileName := v; sampleRate := sampleRate o;
     sampleSize := sampleSize o; channels := channels o |}.

Definition set_format (rate size chans : Z) (o : Options) : Options :=
  {| showUsageInfo := showUsageInfo o; inFileName := inFileName o;
     outFileName := outFileName o; playFileName := playFileName o; sampleRate := rate;
     sampleSize := size; channels := chans |}.

(** The initializers: no file names, 44100 Hz, 16 bits, mono. *)
Definition initial : Options :=
  {| showUsageInfo := false; inFileName := ""; outFileName := ""; playFileName := "";
     sampleRate := 44100; sampleSize := 16; channels := 1 |}.

Definition TOOL_VERSION_TEXT : string := "2.0".

(** [strcpy] into one of the [char name[256]] arrays: defined when the
    text and its terminator fit, undefined (no result) when they do not. *)
Definition strcpy (src : string) : option string :=
  if (String.length src <? 256)%nat then Some src else None.

(** [(strcmp(arg, short) == 0) || (strcmp(arg, long) == 0)] *)
Definition is_option (short long arg : string) : bool :=
  String.eqb arg short || String.eqb arg long.

(** [arg[0] == '-'] *)
Definition is_dash (arg : string) : bool :=
  match arg with
  | String c _ => Ascii.eqb c "-"%char
  | EmptyString => false
  end.

(** [name[0] != '\0'] *)
Definition given (name : string) : bool :=
  match name with
  | String _ _ => true
  | EmptyString => false
  end.

Definition warning (text : string) : string := "WARNING: " +:+ text +:+ newline.

(** The text of [ShowCommandLineInfo], one entry for each [printf]. *)
Definition usage : list string :=
  [newline +:+ "//////////////////////////////////////////////////////////////////////////////////" +:+ newline;
   "//                                                                              //" +:+ newline;
   "// rFXGen v" +:+ TOOL_VERSION_TEXT +:+ " - A simple and easy-to-use fx sounds generator                   //" +:+ newline;
   "// powered by raylib v2.0 (www.raylib.com) and raygui v2.0                      //" +:+ newline;
   "// more info and bugs-report: github.com/raysan5/rfxgen                         //" +:+ newline;
   "//                                                                              //" +:+ newline;
   "// Copyright (c) 2016-2018 raylib technologies (@raylibtech)                    //" +:+ newline;
   "//                                                                              //" +:+ newline;
   "//////////////////////////////////////////////////////////////////////////////////" +:+ newline +:+ newline;
   "USAGE:" +:+ newline +:+ newline;
   "    > rfxgen [--help] --input <filename.ext> [--output <filename.ext>]" +:+ newline;
   "             [--format <sample_rate> <sample_size> <channels>] [--play <filename.ext>]" +:+ newline;
   newline +:+ "OPTIONS:" +:+ newline +:+ newline;
   "    -h, --help                      : Show tool version and command line usage help" +:+ newline;
   "    -i, --input <filename.ext>      : Define input file." +:+ newline;
   "                                      Supported extensions: .rfx, .sfs, .wav" +:+ newline;
   "    -o, --output <filename.ext>     : Define output file." +:+ newline;
   "                                      Supported extensions: .wav, .h" +:+ newline;
   "                                      NOTE: If not specified, defaults to: output.wav" +:+ newline +:+ newline;
   "    -f, --format <sample_rate>,<sample_size>,<channels>" +:+ newline;
   "                                    : Define output wave format. Comma separated values." +:+ newline;
   "                                      Supported values:" +:+ newline;
   "                                          Sample rate:      22050, 44100" +:+ newline;
   "                                          Sample size:      8, 16, 32" +:+ newline;
   "                                          Channels:         1 (mono), 2 (stereo)" +:+ newline;
   "                                      NOTE: If not specified, defaults to: 44100, 16, 1" +:+ newline +:+ newline;
   "    -p, --play <filename.ext>       : Play provided sound." +:+ newline;
   "                                      Supported extensions: .wav, .ogg, .flac, .mp3" +:+ newline;
   newline +:+ "EXAMPLES:" +:+ newline +:+ newline;
   "    > rfxgen --input sound.rfx --output jump.wav" +:+ newline;
   "        Process <sound.rfx> to generate <sound.wav> at 44100 Hz, 32 bit, Mono" +:+ newline +:+ newline;
   "    > rfxgen --input sound.rfx --output jump.wav --format 22050 16 2" +:+ newline;
   "        Process <sound.rfx> to generate <jump.wav> at 22050 Hz, 16 bit, Stereo" +:+ newline +:+ newline;
   "    > rfxgen --input sound.rfx --play output.wav" +:+ newline;
   "        Process <sound.rfx> to generate <output.wav> and play <output.wav>" +:+ newline +:+ newline;
   "    > rfxgen --input sound.wav --output jump.wav --format 22050,8,1 --play jump.wav" +:+ newline;
   "        Process <sound.wav> to generate <jump.wav> at 22050 Hz, 8 bit, Stereo." +:+ newline;
   "        Plays generated sound <jump.wav>." +:+ newline].

Section Process.

Context {RS : RandomSource} {LM : Libm} {FN : FileNames} {CL : CommandLineLibrary}.

Variable indeterminate_signature : list byte.
Variable indeterminate_version : Z.

Notation "x <- c ;; k" := (bind c (fun x => k))
  (at level 20, c at level 99, k at level 200, only parsing).
Notation "'do' c ;; k" := (bind c (fun _ => k))
  (at level 20, c at level 99, k at level 200, only parsing).

(** Show command line usage info *)
Definition ShowCommandLineInfo : Cmd unit :=
  modify (fun st => set_console (console st ++ usage) st).

(** [IsFileExtension(name, e1) || IsFileExtension(name, e2) || ...] *)
Definition has_one_of (extensions : list string) (name : string) : bool :=
  existsb (IsFileExtension name) extensions.

(** The test on the argument that follows an option that takes a file
    name, once that argument is known to exist. *)
Definition file_name_accepted (extensions : list string) (arg : string) : bool :=
  negb (is_dash arg) && has_one_of extensions arg.

(** The body of the [--format] branch once the values are split: the
    three values are read with [atoi], and each unsupported one is replaced
    by its default with a warning. *)
Definition read_format (values : list string) (o : Options) (out : list string)
    : Options * list string :=
  match values with
  | [v0; v1; v2] =>
      let rate := atoi v0 in
      let size := atoi v1 in
      let chans := atoi v2 in
      let bad_rate := negb (rate =? 44100) && negb (rate =? 22050) in
      let bad_size := negb (size =? 8) && negb (size =? 16) && negb (size =? 32) in
      let bad_chans := negb (chans =? 1) && negb (chans =? 2) in
      (set_format (if bad_rate then 44100 else rate) (if bad_size then 16 else size)
         (if bad_chans then 1 else chans) o,
       out
       ++ (if bad_rate then [warning "Sample rate not supported. Default: 44100 Hz"] else [])
       ++ (if bad_size then [warning "Sample size not supported. Default: 16 bit"] else [])
       ++ (if bad_chans then [warning "Channels number not supported. Default: 1 (mono)"]
           else []))
  | _ => (o, out ++ [warning "Incorrect number of format values"])
  end.

(** "Process command line arguments": the [for] loop over [argv], from the
    entry [args] starts with.  A pass consumes one entry, or two when an
    option takes the next entry as its file name ([i++]); the [--format]
    branch reads the next entry and leaves it to the next pass.  The
    result is the options and the lines printed, or nothing when a file
    name does not fit its array. *)
Fixpoint process_arguments (args : list string) (o : Options) (out : list string)
    : option (Options * list string) :=
  match args with
  | [] => Some (o, out)
  | arg :: rest =>
      if is_option "-h" "--help" arg then
        process_arguments rest (set_showUsageInfo true o) out
      else if is_option "-i" "--input" arg then
        let refused :=
          process_arguments rest o (out ++ [warning "Input file extension not recognized"]) in
        match rest with
        | next :: rest' =>
            if file_name_accepted [".rfx"; ".sfs"; ".wav"] next then
              match strcpy next with
              | Some name => process_arguments rest' (set_inFileName name o) out
              | None => None
              end
            else refused
        | [] => refused
        end
      else if is_option "-o" "--output" arg then
        let refused :=
          process_arguments rest o (out ++ [warning "Output file extension not recognized"]) in
        match rest with
        | next :: rest' =>
            if file_name_accepted [".wav"; ".h"] next then
              match strcpy next with
              | Some name => process_arguments rest' (set_outFileName name o) out
              | None => None
              end
            else refused
        | [] => refused
        end
      else if is_option "-f" "--format" arg then
        let refused :=
          process_arguments rest o (out ++ [warning "Format parameters provided not valid"]) in
        match rest with
        | next :: _ =>
            if negb (is_dash next) then
              let (o', out') := read_format (SplitText next ","%char) o out in
              process_arguments rest o' out'
            else refused
        | [] => refused
        end
      else if is_option "-p" "--play" arg then
        let refused :=
          process_arguments rest o (out ++ [warning "Play file extension not supported"]) in
        match rest with
        | next :: rest' =>
            if file_name_accepted [".wav"; ".ogg"; ".flac"; ".mp3"] next then
              match strcpy next with
              | Some name => process_arguments rest' (set_playFileName name o) out
              | None => None
              end
            else refused
        | [] => refused
        end
      else process_arguments rest o out
  end.

(** One pass of that loop on its own: the entries left for the next pass,
    the options and the lines printed. *)
Definition take_file_name (extensions : list string) (refusal : string)
    (set : string -> Options -> Options) (rest : list string) (o : Options)
    (out : list string) : option (list string * Options * list string) :=
  match rest with
  | next :: rest' =>
      if file_name_accepted extensions next then
        match strcpy next with
        | Some name => Some (rest', set name o, out)
        | None => None
        end
      else Some (rest, o, out ++ [warning refusal])
  | [] => Some (rest, o, out ++ [warning refusal])
  end.

Definition pass (arg : string) (rest : list string) (o : Options) (out : list string)
    : option (list string * Options * list string) :=
  if is_option "-h" "--help" arg then Some (rest, set_showUsageInfo true o, out)
  else if is_option "-i" "--input" arg then
    take_file_name [".rfx"; ".sfs"; ".wav"] "Input file extension not recognized"
      set_inFileName rest o out
  else if is_option "-o" "--output" arg then
    take_file_name [".wav"; ".h"] "Output file extension not recognized"
      set_outFileName rest o out
  else if is_option "-f" "--format" arg then
    match rest with
    | next :: _ =>
        if negb (is_dash next) then
          let (o', out') := read_format (SplitText next ","%char) o out in
          Some (rest, o', out')
        else Some (rest, o, out ++ [warning "Format parameters provided not valid"])
    | [] => Some (rest, o, out ++ [warning "Format parameters provided not valid"])
    end
  else if is_option "-p" "--play" arg then
    take_file_name [".wav"; ".ogg"; ".flac"; ".mp3"] "Play file extension not supported"
      set_playFileName rest o out
  else Some (rest, o, out).

(** "Process input file if provided".  The result is [None] when
    [LoadWaveParams] is undefined on the input name. *)
Definition process_input (o : Options) : Cmd (option unit) :=
  let outFileName := if given (outFileName o) then outFileName o else "output.wav" in
  do printf (newline +:+ "Input file:       " +:+ inFileName o) ;;
  do printf (newline +:+ "Output file:      " +:+ outFileName) ;;
  do printf (newline +:+ "Output format:    " +:+ pretty (sampleRate o) +:+ " Hz, "
             +:+ pretty (sampleSize o) +:+ " bits, "
             +:+ (if channels o =? 1 then "Mono" else "Stereo") +:+ newline +:+ newline) ;;
  wave <- (if IsFileExtension (inFileName o) ".rfx" || IsFileExtension (inFileName o) ".sfs"
           then
             loaded <- LoadWaveParams indeterminate_signature indeterminate_version
                         (inFileName o) ;;
             match loaded with
             | None => ret None
             | Some loaded =>
                 do modify (set_params loaded) ;;
                 wave <- GenerateWave loaded ;;
                 ret (Some wave)
             end
           else if IsFileExtension (inFileName o) ".wav"
           then wave <- get (fun st => LoadWave (inFileName o) (files st)) ;; ret (Some wave)
           else ret (Some zero_wave)) ;;
  match wave with
  | None => ret None
  | Some wave =>
      let wave := WaveFormat wave (sampleRate o) (sampleSize o) (channels o) in
      do (if IsFileExtension outFileName ".wav"
          then modify (fun st => set_files (ExportWave wave outFileName (files st)) st)
          else if IsFileExtension outFileName ".h"
          then modify (fun st => set_files (ExportWaveAsCode wave outFileName (files st)) st)
          else ret tt) ;;
      ret (Some tt)
  end.

(** "Play audio file if provided". *)
Definition process_play (o : Options) : Cmd unit :=
  wave <- get (fun st => LoadWave (playFileName o) (files st)) ;;
  modify (fun st => set_console (console st ++ PlayWaveCLI wave) st).

(** Process command line input.  The result is [None] when a [strcpy] of
    the argument loop overruns its array, or when [LoadWaveParams] is
    undefined on the input name. *)
Definition ProcessCommandLine (argv : list string) : Cmd (option unit) :=
  match process_arguments (drop 1 argv) initial [] with
  | None => ret None
  | Some (o, out) =>
      do modify (fun st => set_console (console st ++ out) st) ;;
      input <- (if given (inFileName o) then process_input o else ret (Some tt)) ;;
      match input with
      | None => ret None
      | Some _ =>
          do when (given (playFileName o)) (process_play o) ;;
          do when (showUsageInfo o) ShowCommandLineInfo ;;
          ret (Some tt)
      end
  end.

End Process.

(** The formats that [WaveFormat] is documented to support: 22050 or
    44100 Hz, 8, 16 or 32 bits, one or two channels. *)
Definition supported (o : Options) : bool :=
  ((sampleRate o =? 44100) || (sampleRate o =? 22050))
  && ((sampleSize o =? 8) || (sampleSize o =? 16) || (sampleSize o =? 32))
  && ((channels o =? 1) || (channels o =? 2)).

(** What a pass does to the three file names: it leaves a name as it was,
    or replaces it by the entry after the option, which does not start with
    a dash, has one of the option's extensions and fits the array. *)
Definition taken {FN : FileNames} (extensions : list string) (args : list string) (old new : string) : Prop :=
  new = old
  \/ (In new args /\ file_name_accepted extensions new = true
      /\ (String.length new < 256)%nat).

(** The text fits one of the arrays of 256 characters, terminator
    included. *)
Definition fits (arg : string) : Prop := (String.length arg < 256)%nat.

End CommandLine.




(* ===================================================================== *)
(** ** Vocabulary of the properties *)
(* ===================================================================== *)

(** *** Parameter records *)

(** The defaults with an attack time of 3.0: the attack stage alone lasts
    900000 samples, more than the 441000 the buffer holds. *)
Definition long_attack (seed : Z) : WaveParams :=
  set_attackTimeValue (f32 3 1) (default_params seed).

(** The corrective rules as the specification words them, on a parameter
    record. *)

(** If [startFrequency > 0.7] and [slide > 0.2], negate [slide]. *)
Definition slide_rule_high (p : WaveParams) : WaveParams :=
  if fgt (startFrequencyValue p) (f32 7 10) && fgt (slideValue p) (f32 2 10)
  then set_slideValue (fneg (slideValue p)) p else p.

(** If [startFrequency < 0.2] and [slide < -0.05], negate [slide]. *)
Definition slide_rule_low (p : WaveParams) : WaveParams :=
  if flt (startFrequencyValue p) (f32 2 10) && flt (slideValue p) (fneg (f32 5 100))
  then set_slideValue (fneg (slideValue p)) p else p.

(** If [attack + sustain + decay < 0.2], add [0.2 + r1] to [sustain] and
    [0.2 + r2] to [decay], for two draws [r1], [r2] of [frnd(0.3)]. *)
Definition envelope_rule (r1 r2 : float) (p : WaveParams) : WaveParams :=
  if flt (fadd (fadd (attackTimeValue p) (sustainTimeValue p)) (decayTimeValue p)) (f32 2 10)
  then set_decayTimeValue (fadd (decayTimeValue p) (fadd (f32 2 10) r2))
         (set_sustainTimeValue (fadd (sustainTimeValue p) (fadd (f32 2 10) r1)) p)
  else p.

(** If [lpfCutoff < 0.1] and [lpfCutoffSweep < -0.05], negate the sweep. *)
Definition lowpass_rule (p : WaveParams) : WaveParams :=
  if flt (lpfCutoffValue p) (f32 1 10) && flt (lpfCutoffSweepValue p) (fneg (f32 5 100))
  then set_lpfCutoffSweepValue (fneg (lpfCutoffSweepValue p)) p else p.

(** The header of an .rfx file with format version [v], followed by
    [body]. *)
Definition rfx_file (v : Z) (body : list byte) : list byte :=
  signature ++ int_bytes v ++ body.

(** *** Random draws *)

(** [(float)v/10000.0f], the factor of [frnd(range)] when
    [GetRandomValue(0, 10000)] returns [v], and the value of [frnd(range)]
    then. *)
Definition unit_draw (v : Z) : float := fdiv (float_of_int v) (f32 10000 1).

Definition draw (range : float) (v : Z) : float := fmul (unit_draw v) range.

(** The [n] integers from [z] on. *)
Fixpoint upto (n : nat) (z : Z) : list Z :=
  match n with
  | O => []
  | S n => z :: upto n (z + 1)
  end.

(** The 10001 factors, for [v] from 0 to 10000, evaluated once. *)
Definition unit_draws : list float := Eval vm_compute in
  map unit_draw (upto (Z.to_nat 10001) 0).

(** A property of the factor that holds of all of them. *)
Definition all_draws (P : float -> bool) : bool := forallb P unit_draws.

(** A property of [frnd(range)] that holds whatever the draw. *)
Definition all_frnd (range : float) (P : float -> bool) : bool :=
  all_draws (fun u => P (fmul u range)).

(** The ranges that the program passes to [frnd] and [GetRandomFloat]. *)
Definition frnd_ranges : list float :=
  [f32 1 10; f32 2 10; f32 3 10; f32 4 10; f32 5 10; f32 6 10; f32 7 10; f32 8 10;
   f32 9 10; f32 1 1; f32 16 10; f32 2 1].

(** *** Sliders *)

(** The ranges of the sliders of the main window, [0, 1] and [-1, 1], and
    the four wave types of its toggle group. *)
Definition unit_range (x : float) : bool := in_range fzero (f32 1 1) x.
Definition signed_range (x : float) : bool := in_range (fneg (f32 1 1)) (f32 1 1) x.

(** Every member but [minFrequencyValue] is on its slider. *)
Definition in_sliders_but_min (p : WaveParams) : bool :=
  (0 <=? waveTypeValue p) && (waveTypeValue p <=? 3)
  && unit_range (attackTimeValue p)
  && unit_range (sustainTimeValue p)
  && unit_range (sustainPunchValue p)
  && unit_range (decayTimeValue p)
  && unit_range (startFrequencyValue p)
  && signed_range (slideValue p)
  && signed_range (deltaSlideValue p)
  && unit_range (vibratoDepthValue p)
  && unit_range (vibratoSpeedValue p)
  && signed_range (changeAmountValue p)
  && unit_range (changeSpeedValue p)
  && unit_range (squareDutyValue p)
  && signed_range (dutySweepValue p)
  && unit_range (repeatSpeedValue p)
  && signed_range (phaserOffsetValue p)
  && signed_range (phaserSweepValue p)
  && unit_range (lpfCutoffValue p)
  && signed_range (lpfCutoffSweepValue p)
  && unit_range (lpfResonanceValue p)
  && unit_range (hpfCutoffValue p)
  && signed_range (hpfCutoffSweepValue p).

(** Every member is on its slider. *)
Definition in_sliders (p : WaveParams) : bool :=
  in_sliders_but_min p && unit_range (minFrequencyValue p).

(** *** Mutation *)

(** A member after [GenMutate]: as it was, or moved by a step between
    -0.05 and 0.05. *)
Definition nudged (old new : float) : Prop :=
  new = old
  \/ exists step, in_range (fneg (f32 5 100)) (f32 5 100) step = true
                  /\ new = fadd old step.

(** The members that [GenMutate] may move: all the [float] members but
    [minFrequencyValue]. *)
Definition mutated_members : list (WaveParams -> float) :=
  [startFrequencyValue; slideValue; deltaSlideValue; squareDutyValue; dutySweepValue;
   vibratoDepthValue; vibratoSpeedValue; attackTimeValue; sustainTimeValue; decayTimeValue;
   sustainPunchValue; lpfResonanceValue; lpfCutoffValue; lpfCutoffSweepValue;
   hpfCutoffValue; hpfCutoffSweepValue; phaserOffsetValue; phaserSweepValue;
   repeatSpeedValue; changeSpeedValue; changeAmountValue].

Section Vocabulary.

Context {RS : RandomSource} {LM : Libm}.

(** *** States of the synthesis loop *)

Definition MAX_SAMPLES : Z := MAX_WAVE_LENGTH_SECONDS * WAVE_SAMPLE_RATE.


(** The per-sample variables: everything but the oscillator phase, the
    noise table, the filter and phaser state and the generator. *)
Definition same_control (a b : Synth) : Prop :=
  tone a = tone b /\ envelope a = envelope b /\ vibrato a = vibrato b
  /\ repeatTime a = repeatTime b /\ repeatLimit a = repeatLimit b
  /\ generatingSample a = generatingSample b.

(** [x] lies in [lo, hi], or is a NaN. *)
Definition in_range_or_nan (lo hi x : spec_float) : bool := in_range lo hi x || is_nan x.

(** The bounds on the working state as the specification states them, on
    the state after a pass of the loop body. *)
Definition clamping_claim (st : Synth) : bool :=
  in_range fzero (f32 5 10) (squareDuty (tone st))
  && (8 <=? period (tone st))
  && in_range fzero (f32 1 10) (fltw (filter st))
  && in_range (f32 1 100000) (f32 1 10) (flthp (filter st))
  && fle (fltdmp (filter st)) (f32 8 10).

(** The bounds that the code keeps: a NaN passes every comparison, and the
    high-pass cutoff is swept and clamped only while [flthpd] is not zero. *)
Definition clamping_kept (st : Synth) : bool :=
  in_range_or_nan fzero (f32 5 10) (squareDuty (tone st))
  && (8 <=? period (tone st))
  && in_range_or_nan fzero (f32 1 10) (fltw (filter st))
  && (feq (flthpd (filter st)) fzero
      || in_range_or_nan (f32 1 100000) (f32 1 10) (flthp (filter st)))
  && (fle (fltdmp (filter st)) (f32 8 10) || is_nan (fltdmp (filter st))).

(** The passes of the loop body left before the envelope ends, when each
    stage has a length that is not negative: a stage of length [l] takes
    [l + 1] passes. *)
Definition envelope_passes (e : Envelope) : Z :=
  let l (k : Z) := stage_len e k in
  let t := envelopeTime e in
  match envelopeStage e with
  | 0 => (l 0 - t + 1) + (l 1 + 1) + (l 2 + 1)
  | 1 => (l 1 - t + 1) + (l 2 + 1)
  | 2 => l 2 - t + 1
  | _ => 0
  end.

(** The envelope is inside one of its three stages. *)
Definition envelope_running (e : Envelope) : Prop :=
  0 <= envelopeStage e <= 2
  /\ length (envelopeLength e) = 3%nat
  /\ Forall (fun l => 0 <= l) (envelopeLength e)
  /\ 0 <= envelopeTime e <= stage_len e (envelopeStage e).

(** The oscillator phase is not negative and both tables have the size
    they were declared with: [noiseBuffer[32]] and [phaserBuffer[1024]]. *)
Definition tables_sized (st : Synth) : Prop :=
  0 <= phase st
  /\ length (noiseBuffer st) = 32%nat
  /\ length (phaserBuffer (phaser st)) = 1024%nat.

(** *** Commands *)

(** A command that leaves a member of the global [params] as it was. *)
Definition keeps {V A : Type} (f : WaveParams -> V) (c : Cmd A) : Prop :=
  forall st, f (params (c st).2) = f (params st).


(** A command whose result and whose effect on [params] and on the
    generator depend on [params] and the generator alone. *)
Definition sound_local {A : Type} (c : Cmd A) : Prop :=
  forall s1 s2, params s1 = params s2 -> rand_state s1 = rand_state s2 ->
    (c s1).1 = (c s2).1
    /\ params (c s1).2 = params (c s2).2
    /\ rand_state (c s1).2 = rand_state (c s2).2.

(** A command that takes parameters with the property [P] to parameters
    with the property [Q]. *)
Definition carries {A : Type} (P Q : WaveParams -> Prop) (c : Cmd A) : Prop :=
  forall st, P (params st) -> Q (params (c st).2).

Definition on_sliders (p : WaveParams) : Prop := in_sliders_but_min p = true.

(** The seven preset generators. *)
Definition presets : list (Cmd unit) :=
  [GenPickupCoin; GenLaserShoot; GenExplosion; GenPowerup; GenHitHurt; GenJump;
   GenBlipSelect].

End Vocabulary.

(* ===================================================================== *)
(** ** Reference instances of the external collaborators *)
(* ===================================================================== *)

(** The concrete evaluations below need one generator and one <math.h>.
    The generator is the linear congruential [rand] of the C standard's
    example with raylib's reduction [rand()%(abs(max - min) + 1) + min]; the
    power function multiplies, for the exponents the program uses (1, 2, 3
    and 5); the sine is a Taylor polynomial around zero. *)
Module Reference.

Definition lcg_next (g : Z) : Z := (g * 1103515245 + 12345) mod 2 ^ 32.
Definition lcg_rand (g : Z) : Z := (lcg_next g / 65536) mod 32768.

Definition lcg_value (lo hi : Z) (g : Z) : Z * Z :=
  let (lo, hi) := if hi <? lo then (hi, lo) else (lo, hi) in
  (lcg_rand g mod (Z.abs (hi - lo) + 1) + lo, lcg_next g).

Lemma lcg_value_range lo hi g : lo <= hi -> lo <= (lcg_value lo hi g).1 <= hi.
Proof.
  intros Hle. unfold lcg_value.
  destruct (hi <? lo) eqn:E; [apply Z.ltb_lt in E; lia|]. cbn [fst].
  rewrite Z.abs_eq by lia.
  pose proof (Z.mod_pos_bound (lcg_rand g) (hi - lo + 1) ltac:(lia)). lia.
Qed.

#[export] Instance lcg : RandomSource :=
  {| rng := Z;
     srand := fun seed => seed mod 2 ^ 32;
     GetRandomValue := lcg_value;
     GetRandomValue_range := lcg_value_range |}.

Definition ref_pow (x y : double) : double :=
  if feq y (f64 1 1) then x
  else if feq y (f64 2 1) then dmul x x
  else if feq y (f64 3 1) then dmul (dmul x x) x
  else if feq y (f64 5 1) then dmul (dmul (dmul x x) (dmul x x)) x
  else S754_nan.

Definition ref_sinf (x : float) : float :=
  let d := double_of_float x in
  let d2 := dmul d d in
  let term (t : double) (k : Z) := ddiv (dmul t d2) (double_of_int k) in
  let t3 := term d 6 in
  let t5 := term t3 20 in
  let t7 := term t5 42 in
  float_of_double (dsub (dadd (dsub d t3) t5) t7).

#[export] Instance libm : Libm := {| pow := ref_pow; sinf := ref_sinf |}.

(** File names as in raylib 2.x.  [last_dot] is [strrchr(s, '.')], the
    text from the last dot on.  [IsFileExtension] compares it with the
    extension ([strcmp]); [GetExtension] returns the text after that dot,
    and NULL when the name has no dot or begins with its last dot. *)
Fixpoint last_dot (s : string) : option string :=
  match s with
  | EmptyString => None
  | String c rest =>
      match last_dot rest with
      | Some e => Some e
      | None => if Ascii.eqb c "."%char then Some s else None
      end
  end.

Definition get_extension (fileName : string) : option string :=
  match last_dot fileName with
  | Some (String _ extension) =>
      if (String.length extension + 1 =? String.length fileName)%nat then None
      else Some extension
  | _ => None
  end.

Definition is_file_extension (fileName ext : string) : bool :=
  match last_dot fileName with
  | Some e => String.eqb e ext
  | None => false
  end.

#[export] Instance names : FileNames :=
  {| GetExtension := get_extension; IsFileExtension := is_file_extension |}.

(** The command line: [atoi] on decimal digits, [SplitText] cutting at
    every delimiter, and stand-ins for the audio functions ([WaveFormat]
    relabels the wave, the exports write an empty file, nothing is read or
    played). *)
Fixpoint digits (text : string) (value : Z) : Z :=
  match text with
  | EmptyString => value
  | String c rest =>
      let d := Z.of_nat (nat_of_ascii c) - 48 in
      if (0 <=? d) && (d <=? 9) then digits rest (value * 10 + d) else value
  end.

Fixpoint split_text (delimiter : ascii) (text : string) : list string :=
  match text with
  | EmptyString => [EmptyString]
  | String c rest =>
      if Ascii.eqb c delimiter then EmptyString :: split_text delimiter rest
      else match split_text delimiter rest with
           | piece :: pieces => String c piece :: pieces
           | [] => [String c EmptyString]
           end
  end.

#[export] Instance command_line : CommandLineLibrary :=
  {| atoi := fun text => digits text 0;
     SplitText := fun text delimiter => split_text delimiter text;
     LoadWave := fun _ _ => zero_wave;
     WaveFormat := fun wave rate size chans =>
       {| sampleCount := sampleCount wave; sampleRate := rate; sampleSize := size;
          channels := chans; data := data wave |};
     ExportWave := fun _ fileName files => <[fileName := []]> files;
     ExportWaveAsCode := fun _ fileName files => <[fileName := []]> files;
     PlayWaveCLI := fun _ => [] |}.

(** The globals at program start, with the generator in state [g]. *)
Definition start (g : Z) : Globals :=
  {| params := zero_params; volumeValue := f32 6 10; regenerate := false;
     rand_state := g; files := ∅; readonly := ∅; console := [] |}.

End Reference.

(** *** Inputs of the concrete runs *)

(** The defaults with [hpfCutoffSweepValue = -3333.3333f]: the product
    with [0.0003f] rounds to -1, so [flthpd] is exactly zero. *)
Definition hpf_gate_params : WaveParams :=
  set_hpfCutoffSweepValue (S754_finite true 13653333 (-12)) (default_params 1).

(** The defaults with a sustain punch of about 2.86e38, a finite [float]:
    the envelope volume of the sustain stage overflows to infinity. *)
Definition punch_params : WaveParams :=
  set_sustainPunchValue (S754_finite false 14105550 104) (default_params 1).

(** A short noise with seed zero. *)
Definition noise_params : WaveParams :=
  set_waveTypeValue 3
    (set_sustainTimeValue (f32 1 100) (set_decayTimeValue (f32 1 100) (default_params 0))).

(** The defaults with a minimum frequency above the start frequency and a
    slide below the delta slide. *)
Definition unordered_params : WaveParams :=
  set_minFrequencyValue (f32 9 10)
    (set_slideValue (fneg (f32 5 10)) (set_deltaSlideValue (f32 2 10) (default_params 1))).

(** The defaults with the noise wave selected, and the generator in the
    state 4235699843, from which [GetRandomValue(0, 0xFFFE)] returns 0. *)
Definition noise_selected : Globals :=
  set_params (set_waveTypeValue 3 (default_params 1)) (Reference.start 4235699843).

(** A file name of 260 characters with the extension .rfx. *)
Definition long_name : string :=
  (fix pad (n : nat) : string :=
     match n with
     | O => ".rfx"
     | S n' => String "a" (pad n')
     end) 256%nat.


(** The globals with one file, "sound.rfx", that holds the defaults with
    seed 7 in the format of [SaveWaveParams]. *)
Definition stored_sound : Globals :=
  set_files {["sound.rfx" := rfx_file 120 (params_bytes (default_params 7))]}
    (Reference.start 1).

(** The globals with one file, "sound.rfx", holding the header of format
    version 119. *)
Definition version_119 : Globals :=
  set_files {["sound.rfx" := rfx_file 119 []]} (Reference.start 1).

(* ===================================================================== *)
(** ** Facts about the floating-point layer *)
(* ===================================================================== *)

Section FloatFacts.

Lemma SFcompare_antisym (x y : spec_float) :
  SFcompare y x = option_map CompOpp (SFcompare x y).
Proof.
  destruct x as [sx|sx| |sx mx ex], y as [sy|sy| |sy my ey]; cbn; try reflexivity;
    try (destruct sx; reflexivity); try (destruct sy; reflexivity);
    try (destruct sx, sy; reflexivity).
  pose proof (Pos.compare_cont_antisym mx my Eq) as Hm. cbn in Hm.
  destruct sx, sy; cbn; try reflexivity; f_equal;
    rewrite (Z.compare_antisym ey ex);
    destruct (ey ?= ex); cbn; try reflexivity;
    rewrite <- Hm; destruct (Pos.compare_cont Eq mx my); reflexivity.
Qed.

Lemma SFcompare_None (x y : spec_float) :
  SFcompare x y = None <-> is_nan x = true \/ is_nan y = true.
Proof.
  destruct x as [sx|sx| |sx mx ex], y as [sy|sy| |sy my ey]; cbn;
    split; intros H; try discriminate; try tauto;
    destruct H; discriminate.
Qed.

(** Not below the bound means at or above it, for numbers. *)
Lemma flt_false_fle (x lo : spec_float) :
  is_nan x = false -> is_nan lo = false -> flt x lo = false -> fle lo x = true.
Proof.
  unfold flt, fle, SFltb, SFleb. intros Hx Hlo.
  rewrite (SFcompare_antisym x lo).
  destruct (SFcompare x lo) as [[]|] eqn:E; cbn; try congruence.
  apply SFcompare_None in E. destruct E; congruence.
Qed.

Lemma fgt_false_fle (x hi : spec_float) :
  is_nan x = false -> is_nan hi = false -> fgt x hi = false -> fle x hi = true.
Proof.
  unfold fgt, fle, SFltb, SFleb. intros Hx Hhi.
  rewrite (SFcompare_antisym x hi).
  destruct (SFcompare x hi) as [[]|] eqn:E; cbn; try congruence.
  apply SFcompare_None in E. destruct E; congruence.
Qed.

(** A clamped value lies in the interval unless it is a NaN, which no
    comparison catches. *)
Lemma clamped_in_range (lo hi x : spec_float) :
  is_nan lo = false -> is_nan hi = false ->
  clamped lo hi x = true -> in_range lo hi x || is_nan x = true.
Proof.
  intros Hlo Hhi. unfold clamped, in_range.
  rewrite andb_true_iff, !negb_true_iff. intros [H1 H2].
  destruct (is_nan x) eqn:Hx; [apply orb_true_r|].
  rewrite (flt_false_fle x lo), (fgt_false_fle x hi) by assumption. reflexivity.
Qed.

Lemma in_range_clamped (lo hi x : spec_float) :
  in_range lo hi x = true -> clamped lo hi x = true.
Proof.
  unfold clamped, in_range, fle, flt, fgt, SFleb, SFltb.
  rewrite (SFcompare_antisym x hi).
  rewrite (SFcompare_antisym x lo) at 1.
  destruct (SFcompare x lo) as [[]|], (SFcompare x hi) as [[]|]; cbn; congruence.
Qed.

(** The program's clamp, for bounds that are ordered numbers. *)
Lemma clamp_clamped (lo hi x : float) :
  fle lo hi = true -> clamped lo hi (clamp lo hi x) = true.
Proof.
  intros Hb. unfold clamp, clamped.
  assert (Hlo : flt lo lo = false).
  { unfold flt, SFltb. pose proof (SFcompare_antisym lo lo) as H.
    destruct (SFcompare lo lo) as [[]|]; cbn in H; congruence. }
  assert (Hhi : fgt hi hi = false).
  { unfold fgt, SFltb. pose proof (SFcompare_antisym hi hi) as H.
    destruct (SFcompare hi hi) as [[]|]; cbn in H; congruence. }
  assert (Hhl : flt hi lo = false).
  { revert Hb. unfold fle, flt, SFleb, SFltb. rewrite (SFcompare_antisym lo hi).
    destruct (SFcompare lo hi) as [[]|]; cbn; congruence. }
  destruct (flt x lo) eqn:E1.
  - destruct (fgt lo hi) eqn:E2.
    + rewrite Hhl, Hhi. reflexivity.
    + rewrite Hlo, E2. reflexivity.
  - destruct (fgt x hi) eqn:E2.
    + rewrite Hhl, Hhi. reflexivity.
    + rewrite E1, E2. reflexivity.
Qed.

End FloatFacts.

(** *** Bit patterns *)

Section BitFacts.

Lemma digits2_pos_bounds (m : positive) :
  2 ^ (Zpos (digits2_pos m) - 1) <= Zpos m < 2 ^ Zpos (digits2_pos m).
Proof.
  induction m as [m IH|m IH|]; cbn [digits2_pos].
  - rewrite Pos2Z.inj_succ.
    replace (Z.succ (Zpos (digits2_pos m)) - 1) with (Z.succ (Zpos (digits2_pos m) - 1)) by lia.
    rewrite !Z.pow_succ_r by lia. lia.
  - rewrite Pos2Z.inj_succ.
    replace (Z.succ (Zpos (digits2_pos m)) - 1) with (Z.succ (Zpos (digits2_pos m) - 1)) by lia.
    rewrite !Z.pow_succ_r by lia. lia.
  - cbn. lia.
Qed.

(** The mantissa and exponent of a finite binary32 number. *)
Lemma is_float_finite (s : bool) (m : positive) (e : Z) :
  is_float (S754_finite s m e) = true ->
  Zpos m < 2 ^ 24 /\ -149 <= e <= 104 /\ (Zpos m < 2 ^ 23 -> e = -149).
Proof.
  unfold is_float, valid_binary, bounded, canonical_mantissa, fexp, emin, prec32, emax32.
  rewrite andb_true_iff, Z.eqb_eq, Z.leb_le. intros [Hc He].
  pose proof (digits2_pos_bounds m) as [Hlo Hhi].
  set (d := Zpos (digits2_pos m)) in *.
  assert (Hd : d <= 24) by lia.
  split; [|split; [lia|]].
  - eapply Z.lt_le_trans; [exact Hhi|]. apply Z.pow_le_mono_r; lia.
  - intros Hm.
    assert (d - 1 < 23).
    { apply (Z.pow_lt_mono_r_iff 2); [lia|lia|]. lia. }
    lia.
Qed.

Lemma float_of_bits_of_float (x : float) :
  is_float x = true -> float_of_bits (bits_of_float x) = x.
Proof.
  destruct x as [s|s| |s m e]; intros Hv.
  - destruct s; reflexivity.
  - destruct s; reflexivity.
  - reflexivity.
  - apply is_float_finite in Hv. destruct Hv as (Hm & He & Hsub).
    unfold float_of_bits, bits_of_float.
    change (2 ^ 31) with 2147483648 in *. change (2 ^ 23) with 8388608 in *.
    change (2 ^ 24) with 16777216 in *.
    set (b := (if s then 2147483648 else 0) + (e + 149) * 8388608 + Zpos m).
    assert (Hs : (2147483648 <=? b) = s).
    { subst b. destruct s; [apply Z.leb_le|apply Z.leb_gt]; lia. }
    rewrite Hs.
    destruct (Z_lt_le_dec (Zpos m) 8388608) as [Hsmall|Hbig].
    + specialize (Hsub Hsmall). subst e.
      assert (Hex : (b / 8388608) mod 256 = 0).
      { subst b. destruct s; Z.div_mod_to_equations; lia. }
      assert (Hfr : b mod 8388608 = Zpos m).
      { subst b. destruct s; Z.div_mod_to_equations; lia. }
      rewrite Hex, Hfr. reflexivity.
    + assert (Hex : (b / 8388608) mod 256 = e + 150).
      { subst b. destruct s; Z.div_mod_to_equations; lia. }
      assert (Hfr : b mod 8388608 + 8388608 = Zpos m).
      { subst b. destruct s; Z.div_mod_to_equations; lia. }
      rewrite Hex, Hfr.
      destruct (e + 150 =? 255) eqn:E1; [apply Z.eqb_eq in E1; lia|].
      destruct (e + 150 =? 0) eqn:E2; [apply Z.eqb_eq in E2; lia|].
      f_equal. lia.
Qed.

Lemma bits_of_float_range (x : float) :
  is_float x = true -> 0 <= bits_of_float x < 2 ^ 32.
Proof.
  destruct x as [s|s| |s m e]; intros Hv; cbn [bits_of_float].
  - destruct s; lia.
  - destruct s; lia.
  - lia.
  - apply is_float_finite in Hv. destruct Hv as (Hm & He & _).
    change (2 ^ 31) with 2147483648. change (2 ^ 23) with 8388608.
    change (2 ^ 24) with 16777216 in *. change (2 ^ 32) with 4294967296.
    destruct s; lia.
Qed.

Lemma Z_of_byte_of_Z (z : Z) : Z_of_byte (byte_of_Z z) = z mod 256.
Proof.
  unfold Z_of_byte, byte_of_Z.
  pose proof (Z.mod_pos_bound z 256 ltac:(lia)) as Hb.
  destruct (Byte.of_N (Z.to_N (z mod 256))) as [b|] eqn:E.
  - apply Byte.to_of_N in E. rewrite E. lia.
  - apply Byte.of_N_None_iff in E. lia.
Qed.

Lemma word_of_bytes_word_bytes (w : Z) :
  0 <= w < 2 ^ 32 -> word_of_bytes (word_bytes w) = w.
Proof.
  intros Hw. unfold word_of_bytes, word_bytes. cbn [nth].
  rewrite !Z_of_byte_of_Z.
  change (2 ^ 8) with 256. change (2 ^ 16) with 65536. change (2 ^ 24) with 16777216.
  change (2 ^ 32) with 4294967296 in Hw.
  Z.div_mod_to_equations. lia.
Qed.

Lemma word_of_bytes_app (w : Z) (rest : list byte) :
  word_of_bytes (word_bytes w ++ rest) = word_of_bytes (word_bytes w).
Proof. reflexivity. Qed.

Lemma int_of_bytes_int_bytes (n : Z) (rest : list byte) :
  is_int n = true -> int_of_bytes (int_bytes n ++ rest) = n.
Proof.
  unfold is_int, INT_MIN, INT_MAX. rewrite andb_true_iff, Z.leb_le, Z.leb_le.
  intros [Hlo Hhi]. unfold int_of_bytes, int_bytes.
  rewrite word_of_bytes_app, word_of_bytes_word_bytes by (apply Z.mod_pos_bound; lia).
  change (2 ^ 31) with 2147483648 in *. change (2 ^ 32) with 4294967296 in *.
  destruct (n mod 4294967296 <? 2147483648) eqn:E;
    [apply Z.ltb_lt in E|apply Z.ltb_ge in E]; Z.div_mod_to_equations; lia.
Qed.

Lemma float_of_bytes_float_bytes (x : float) (rest : list byte) :
  is_float x = true -> float_of_bytes (float_bytes x ++ rest) = x.
Proof.
  intros Hv. unfold float_of_bytes, float_bytes.
  rewrite word_of_bytes_app, word_of_bytes_word_bytes by (apply bits_of_float_range; exact Hv).
  apply float_of_bits_of_float; exact Hv.
Qed.

End BitFacts.

(* ===================================================================== *)
(** ** Persistence: the .rfx container *)
(* ===================================================================== *)

Section PersistenceFacts.

Context {RS : RandomSource} {FN : FileNames}.

Lemma well_formed_members (p : WaveParams) :
  well_formed p = true ->
  is_int (randSeed p) = true /\ is_int (waveTypeValue p) = true
  /\ Forall (fun x => is_float x = true) (float_members p).
Proof.
  unfold well_formed. rewrite !andb_true_iff, forallb_forall, Forall_forall.
  intros [[H1 H2] H3]. repeat split; try assumption.
  intros x Hx. apply H3. apply list_elem_of_In. exact Hx.
Qed.

(** The record read back from its own 96 bytes. *)
Lemma params_of_bytes_params_bytes (p : WaveParams) :
  well_formed p = true -> params_of_bytes (params_bytes p) = p.
Proof.
  intros Hwf. apply well_formed_members in Hwf. destruct Hwf as (Hs & Hw & Hf).
  unfold float_members in Hf.
  repeat match goal with
         | H : Forall _ (_ :: _) |- _ => apply Forall_cons in H; destruct H as [? H]
         end.
  destruct p. cbn [randSeed waveTypeValue attackTimeValue sustainTimeValue sustainPunchValue
    decayTimeValue startFrequencyValue minFrequencyValue slideValue deltaSlideValue
    vibratoDepthValue vibratoSpeedValue changeAmountValue changeSpeedValue squareDutyValue
    dutySweepValue repeatSpeedValue phaserOffsetValue phaserSweepValue lpfCutoffValue
    lpfCutoffSweepValue lpfResonanceValue hpfCutoffValue hpfCutoffSweepValue] in *.
  unfold params_of_bytes, params_bytes.
  cbn [randSeed waveTypeValue attackTimeValue sustainTimeValue sustainPunchValue
    decayTimeValue startFrequencyValue minFrequencyValue slideValue deltaSlideValue
    vibratoDepthValue vibratoSpeedValue changeAmountValue changeSpeedValue squareDutyValue
    dutySweepValue repeatSpeedValue phaserOffsetValue phaserSweepValue lpfCutoffValue
    lpfCutoffSweepValue lpfResonanceValue hpfCutoffValue hpfCutoffSweepValue
    map concat app drop Nat.mul Nat.add int_bytes float_bytes word_bytes].
  f_equal;
    first [ apply (int_of_bytes_int_bytes _ _); assumption
          | apply (float_of_bytes_float_bytes _ _); assumption ].
Qed.

Lemma length_params_bytes (p : WaveParams) : length (params_bytes p) = 96%nat.
Proof. reflexivity. Qed.

Lemma fread_signature (object rest : list byte) :
  fread 4 object (signature ++ rest) = (signature ++ drop 4 object, rest).
Proof. reflexivity. Qed.

Lemma fread_int_int_bytes (old v : Z) (rest : list byte) :
  is_int v = true -> fread_int old (int_bytes v ++ rest) = (v, rest).
Proof.
  intros Hv. unfold fread_int.
  replace (fread 4 (int_bytes old) (int_bytes v ++ rest)) with (int_bytes v ++ [], rest)
    by reflexivity.
  rewrite int_of_bytes_int_bytes by exact Hv. reflexivity.
Qed.

(** With the helpers of raylib 2.x neither test on the extension is ever
    true: what [GetExtension] returns has no dot, and [IsFileExtension]
    looks for one. *)
Lemma has_extension_raylib (fileName e ext : string) :
  raylib_names -> GetExtension fileName = Some e ->
  has_extension fileName ext = Some false.
Proof.
  intros [Hget His] He. unfold has_extension. rewrite He. f_equal.
  destruct (IsFileExtension e ext) eqn:E; [|reflexivity].
  apply His in E. rewrite (Hget fileName e He) in E. discriminate.
Qed.

Lemma has_extension_defined (fileName ext ext' : string) (b : bool) :
  has_extension fileName ext = Some b -> exists b', has_extension fileName ext' = Some b'.
Proof.
  unfold has_extension. destruct (GetExtension fileName); [|discriminate].
  intros _. eexists. reflexivity.
Qed.

(** *** The two branches of LoadWaveParams, when they are entered *)

(** What [LoadWaveParams] does with an .rfx file whose signature matches:
    the outcome depends on the version alone. *)
Lemma LoadWaveParams_rfx (sig0 : list byte) (v0 : Z) (fileName : string) (st : Globals)
    (v : Z) (body : list byte) :
  has_extension fileName ".sfs" = Some false ->
  has_extension fileName ".rfx" = Some true ->
  files st !! fileName = Some (rfx_file v body) ->
  is_int v = true ->
  LoadWaveParams sig0 v0 fileName st =
    if v =? 100
    then (Some zero_params, set_console (console st ++ [msg_rfx_version fileName]) st)
    else if v =? 120
         then (Some (params_of_bytes (fread 96 (params_bytes zero_params) body).1), st)
         else (Some zero_params, st).
Proof.
  intros Hsfs Hrfx Hfile Hv. unfold LoadWaveParams.
  rewrite Hsfs, Hrfx. unfold test, bind, get. rewrite Hfile.
  unfold rfx_file. rewrite fread_signature, (fread_int_int_bytes v0 v body Hv).
  cbn [signature app nth].
  change (Byte.eqb x72 x72 && Byte.eqb x46 x46 && Byte.eqb x58 x58 && Byte.eqb x20 x20)
    with true. cbv iota.
  destruct (v =? 100); [reflexivity|].
  destruct (v =? 120); reflexivity.
Qed.

(** Were the name accepted by the two tests, the file written by
    [SaveWaveParams] (signature "rFX ", version 120, then the 96 bytes of
    the record) would be read back by [LoadWaveParams] as the record that
    was saved: the two branches agree on the format. *)
Lemma SaveWaveParams_LoadWaveParams_accepted (sig0 : list byte) (v0 : Z) (p : WaveParams)
    (fileName : string) (st : Globals) :
  well_formed p = true ->
  has_extension fileName ".sfs" = Some false ->
  has_extension fileName ".rfx" = Some true ->
  fileName ∉ readonly st ->
  let saved := exec (SaveWaveParams p fileName) st in
  files saved !! fileName
    = Some (signature ++ word_bytes 120 ++ params_bytes p)
  /\ (LoadWaveParams sig0 v0 fileName saved).1 = Some p
  /\ console (LoadWaveParams sig0 v0 fileName saved).2 = console st.
Proof.
  intros Hwf Hsfs Hrfx Hw saved.
  assert (Hsaved : saved = set_files (<[fileName := rfx_file 120 (params_bytes p)]> (files st)) st).
  { subst saved. unfold exec, SaveWaveParams. rewrite Hrfx. unfold test, bind, get, modify.
    rewrite bool_decide_eq_false_2 by exact Hw. reflexivity. }
  assert (Hfile : files saved !! fileName = Some (rfx_file 120 (params_bytes p))).
  { rewrite Hsaved. cbn [files set_files]. apply lookup_insert_eq. }
  split; [exact Hfile|].
  rewrite (LoadWaveParams_rfx sig0 v0 fileName saved 120 (params_bytes p) Hsfs Hrfx Hfile eq_refl).
  cbn [Z.eqb Pos.eqb fst snd].
  split.
  - unfold fread. rewrite take_ge by (rewrite length_params_bytes; lia).
    rewrite drop_ge by (rewrite !length_params_bytes; lia). rewrite app_nil_r.
    f_equal. apply params_of_bytes_params_bytes. exact Hwf.
  - rewrite Hsaved. reflexivity.
Qed.

(** A file whose first four bytes are not the signature: zeroed
    parameters and the "does not seem to be valid" diagnostic. *)
Lemma LoadWaveParams_bad_signature (sig0 : list byte) (v0 : Z) (fileName : string)
    (st : Globals) (b0 b1 b2 b3 : byte) (rest : list byte) :
  has_extension fileName ".sfs" = Some false ->
  has_extension fileName ".rfx" = Some true ->
  files st !! fileName = Some (b0 :: b1 :: b2 :: b3 :: rest) ->
  [b0; b1; b2; b3] <> signature ->
  LoadWaveParams sig0 v0 fileName st
  = (Some zero_params, set_console (console st ++ [msg_rfx_invalid fileName]) st).
Proof.
  intros Hsfs Hrfx Hfile Hsig. unfold LoadWaveParams.
  rewrite Hsfs, Hrfx. unfold test, bind, get. rewrite Hfile.
  change (fread 4 sig0 (b0 :: b1 :: b2 :: b3 :: rest))
    with (b0 :: b1 :: b2 :: b3 :: drop 4 sig0, rest).
  cbn [nth].
  destruct (Byte.eqb b0 x72 && Byte.eqb b1 x46 && Byte.eqb b2 x58 && Byte.eqb b3 x20) eqn:E;
    [|reflexivity].
  rewrite !andb_true_iff in E. destruct E as [[[E0 E1] E2] E3].
  apply Byte.byte_dec_bl in E0, E1, E2, E3. subst. contradiction.
Qed.

(** The superseded version 100: zeroed parameters and the "wrong version"
    diagnostic. *)
Lemma LoadWaveParams_version_100 (sig0 : list byte) (v0 : Z) (fileName : string)
    (st : Globals) (body : list byte) :
  has_extension fileName ".sfs" = Some false ->
  has_extension fileName ".rfx" = Some true ->
  files st !! fileName = Some (rfx_file 100 body) ->
  LoadWaveParams sig0 v0 fileName st
  = (Some zero_params, set_console (console st ++ [msg_rfx_version fileName]) st).
Proof.
  intros Hsfs Hrfx Hfile.
  rewrite (LoadWaveParams_rfx sig0 v0 fileName st 100 body Hsfs Hrfx Hfile eq_refl).
  reflexivity.
Qed.

(** The sibling branch for .sfs files reports every version it does not
    know. *)
Lemma LoadWaveParams_sfs_version (sig0 : list byte) (v0 : Z) (fileName : string)
    (st : Globals) (v : Z) (body : list byte) :
  has_extension fileName ".sfs" = Some true ->
  files st !! fileName = Some (int_bytes v ++ body) ->
  is_int v = true -> v <> 100 -> v <> 101 -> v <> 102 ->
  LoadWaveParams sig0 v0 fileName st
  = (Some zero_params, set_console (console st ++ [msg_sfs_version fileName]) st).
Proof.
  intros Hsfs Hfile Hv H100 H101 H102. unfold LoadWaveParams.
  rewrite Hsfs. unfold test, bind, get. rewrite Hfile.
  rewrite (fread_int_int_bytes 0 v body Hv).
  destruct (v =? 100) eqn:E1; [apply Z.eqb_eq in E1; contradiction|].
  destruct (v =? 101) eqn:E2; [apply Z.eqb_eq in E2; contradiction|].
  destruct (v =? 102) eqn:E3; [apply Z.eqb_eq in E3; contradiction|].
  reflexivity.
Qed.

(** *** What the program does *)

(** A name that neither test accepts, or a file that [fopen] does not
    find: nothing is read. *)
Lemma LoadWaveParams_skipped (sig0 : list byte) (v0 : Z) (fileName : string)
    (st : Globals) :
  has_extension fileName ".sfs" = Some false ->
  has_extension fileName ".rfx" = Some false ->
  LoadWaveParams sig0 v0 fileName st = (Some zero_params, st).
Proof. intros Hsfs Hrfx. unfold LoadWaveParams. rewrite Hsfs, Hrfx. reflexivity. Qed.

Lemma SaveWaveParams_skipped (p : WaveParams) (fileName : string) (st : Globals) :
  has_extension fileName ".rfx" = Some false ->
  SaveWaveParams p fileName st = (Some tt, st).
Proof. intros Hrfx. unfold SaveWaveParams. rewrite Hrfx. reflexivity. Qed.

(** C3 (round trip), where the code departs from it.  [SaveWaveParams] and
    [LoadWaveParams] test [IsFileExtension(GetExtension(fileName), ".rfx")]:
    with the helpers of raylib 2.x the test is false of every name that has
    an extension, ".rfx" included.  [SaveWaveParams] then writes no file
    and [LoadWaveParams] opens none: it returns the zeroed record, whatever
    was to be saved, and the state of the program, files and console
    included, is as it was. *)
Theorem SaveWaveParams_LoadWaveParams_lost (sig0 : list byte) (v0 : Z) (p : WaveParams)
    (fileName e : string) (st : Globals) :
  raylib_names ->
  GetExtension fileName = Some e ->
  SaveWaveParams p fileName st = (Some tt, st)
  /\ LoadWaveParams sig0 v0 fileName st = (Some zero_params, st).
Proof.
  intros Hnames He. split.
  - apply SaveWaveParams_skipped. apply (has_extension_raylib fileName e _ Hnames He).
  - apply LoadWaveParams_skipped; apply (has_extension_raylib fileName e _ Hnames He).
Qed.

(** C5 (malformed input), where the code departs from it.  A file with
    the signature of an .rfx file and a format version that is neither 100
    nor 120 is loaded as the zeroed record, as the claim says, but nothing
    is printed: the state, console included, is left as it was.  This holds
    whether the test on the .rfx extension accepts the name (the chain of
    tests on the version has no last [else]) or not (the file is not
    opened). *)
Theorem LoadWaveParams_unrecognized_version (sig0 : list byte) (v0 : Z) (fileName : string)
    (st : Globals) (v : Z) (body : list byte) :
  has_extension fileName ".sfs" = Some false ->
  files st !! fileName = Some (rfx_file v body) ->
  is_int v = true -> v <> 100 -> v <> 120 ->
  LoadWaveParams sig0 v0 fileName st = (Some zero_params, st).
Proof.
  intros Hsfs Hfile Hv H100 H120.
  destruct (has_extension_defined fileName ".sfs" ".rfx" false Hsfs) as [[|] Hrfx].
  - rewrite (LoadWaveParams_rfx sig0 v0 fileName st v body Hsfs Hrfx Hfile Hv).
    destruct (v =? 100) eqn:E1; [apply Z.eqb_eq in E1; contradiction|].
    destruct (v =? 120) eqn:E2; [apply Z.eqb_eq in E2; contradiction|].
    reflexivity.
  - apply LoadWaveParams_skipped; assumption.
Qed.

End PersistenceFacts.

(* ===================================================================== *)
(** ** Edges of the persistence functions *)
(* ===================================================================== *)

Section PersistenceEdges.

Context {RS : RandomSource} {FN : FileNames}.

(** *** SaveWaveParams *)

(** [SaveWaveParams] does nothing at all, and reports nothing, when the
    test on the extension is false or when [fopen] refuses the file (the
    name has an extension in both cases: without one the test itself is
    undefined). *)
Lemma SaveWaveParams_refused (p : WaveParams) (fileName : string) (st : Globals) :
  has_extension fileName ".rfx" = Some false
  \/ (has_extension fileName ".rfx" <> None /\ fileName ∈ readonly st) ->
  SaveWaveParams p fileName st = (Some tt, st).
Proof.
  intros H. unfold SaveWaveParams.
  destruct (has_extension fileName ".rfx") as [[|]|]; [|reflexivity|].
  - destruct H as [H|[_ H]]; [discriminate|].
    unfold test, bind, get. rewrite bool_decide_eq_true_2 by exact H. reflexivity.
  - destruct H as [H|[H _]]; [discriminate|contradiction].
Qed.

(** *** LoadWaveParams *)

(** A name with an extension that neither test accepts, or a file that
    [fopen] does not find: the zeroed record, silently. *)
Lemma LoadWaveParams_nothing_to_read (sig0 : list byte) (v0 : Z) (fileName : string)
    (st : Globals) :
  (has_extension fileName ".sfs" = Some false /\ has_extension fileName ".rfx" = Some false)
  \/ (GetExtension fileName <> None /\ files st !! fileName = None) ->
  LoadWaveParams sig0 v0 fileName st = (Some zero_params, st).
Proof.
  intros H. unfold LoadWaveParams.
  destruct H as [[-> ->]|[He Hnone]]; [reflexivity|].
  unfold has_extension. destruct (GetExtension fileName) as [e|]; [|contradiction].
  unfold test.
  destruct (IsFileExtension e ".sfs");
    [unfold bind, get; rewrite Hnone; reflexivity|].
  destruct (IsFileExtension e ".rfx"); [|reflexivity].
  unfold bind, get. rewrite Hnone. reflexivity.
Qed.


End PersistenceEdges.

(* ===================================================================== *)
(** ** The synthesis loop *)
(* ===================================================================== *)

Section Engine.

Context {RS : RandomSource} {LM : Libm}.

(** *** What the supersampling loop leaves alone *)

Lemma same_control_refl (a : Synth) : same_control a a.
Proof. repeat split. Qed.

Lemma same_control_trans (a b c : Synth) :
  same_control a b -> same_control b c -> same_control a c.
Proof.
  unfold same_control. intros (?&?&?&?&?&?) (?&?&?&?&?&?).
  repeat split; congruence.
Qed.

Lemma step_phase_control (p : WaveParams) (st : Synth) :
  same_control (step_phase p st) st.
Proof.
  unfold step_phase.
  destruct (period (tone st) <=? phase st + 1); [|repeat split].
  destruct (waveTypeValue p =? 3); [|repeat split].
  cbn [generator set_phase].
  destruct (noise_table 32 (generator st)); repeat split.
Qed.

Lemma supersample_control (p : WaveParams) (acc : Synth * float) :
  same_control (supersample p acc).1 acc.1.
Proof.
  destruct acc as [st ssample]. unfold supersample.
  destruct (step_filter p (waveform p (step_phase p st)) (filter (step_phase p st))) as [f x].
  destruct (step_delay x (phaser (step_phase p st))) as [ph y].
  cbn [fst]. eapply same_control_trans; [|apply step_phase_control].
  repeat split.
Qed.

Lemma supersampling_control (p : WaveParams) (n : nat) (acc : Synth * float) :
  same_control (Nat.iter n (supersample p) acc).1 acc.1.
Proof.
  induction n as [|n IH]; cbn [Nat.iter nat_rect].
  - apply same_control_refl.
  - eapply same_control_trans; [apply supersample_control|exact IH].
Qed.

(** What each step before the supersampling loop leaves alone. *)
Lemma step_repeat_frame (p : WaveParams) (st : Synth) :
  envelope (step_repeat p st) = envelope st /\ filter (step_repeat p st) = filter st
  /\ phaser (step_repeat p st) = phaser st /\ vibrato (step_repeat p st) = vibrato st
  /\ generatingSample (step_repeat p st) = generatingSample st.
Proof. unfold step_repeat, repeat_reset. destruct (repeat_fires st); repeat split. Qed.

Lemma step_frequency_frame (p : WaveParams) (st : Synth) :
  envelope (step_frequency p st) = envelope st /\ filter (step_frequency p st) = filter st
  /\ phaser (step_frequency p st) = phaser st.
Proof. repeat split. Qed.

Lemma step_frequency_generatingSample (p : WaveParams) (st : Synth) :
  fgt (minFrequencyValue p) fzero = false ->
  generatingSample (step_frequency p st) = generatingSample st.
Proof.
  intros Hmin. unfold step_frequency.
  cbn [generatingSample set_tone set_vibrato set_generatingSample].
  rewrite Hmin, andb_false_r. reflexivity.
Qed.

Lemma step_duty_frame (st : Synth) :
  envelope (step_duty st) = envelope st /\ filter (step_duty st) = filter st
  /\ phaser (step_duty st) = phaser st /\ vibrato (step_duty st) = vibrato st
  /\ generatingSample (step_duty st) = generatingSample st.
Proof. repeat split. Qed.

Lemma step_envelope_frame (p : WaveParams) (st : Synth) :
  tone (step_envelope p st) = tone st /\ filter (step_envelope p st) = filter st
  /\ phaser (step_envelope p st) = phaser st /\ vibrato (step_envelope p st) = vibrato st.
Proof. repeat split. Qed.

Lemma step_phaser_frame (st : Synth) :
  tone (step_phaser st) = tone st /\ envelope (step_phaser st) = envelope st
  /\ filter (step_phaser st) = filter st /\ vibrato (step_phaser st) = vibrato st
  /\ generatingSample (step_phaser st) = generatingSample st.
Proof. repeat split. Qed.

Lemma step_hpf_frame (st : Synth) :
  tone (step_hpf st) = tone st /\ envelope (step_hpf st) = envelope st
  /\ phaser (step_hpf st) = phaser st /\ vibrato (step_hpf st) = vibrato st
  /\ generatingSample (step_hpf st) = generatingSample st.
Proof. repeat split. Qed.

Lemma render_sample_control (p : WaveParams) (st : Synth) :
  same_control (render_sample p st).1 (advance p st).
Proof.
  unfold render_sample.
  pose proof (supersampling_control p MAX_SUPERSAMPLING (advance p st, fzero)) as H.
  destruct (Nat.iter MAX_SUPERSAMPLING (supersample p) (advance p st, fzero)) as [st' s].
  exact H.
Qed.

(** *** The counters after one pass *)



Lemma loop_state_S (p : WaveParams) (g : rng) (n : nat) :
  loop_state p g (S n) = (render_sample (working_copy p) (loop_state p g n)).1.
Proof. reflexivity. Qed.






(** *** The length of the result *)

(** The loop either runs out of indices, and [sampleCount] is still 0 with
    every index stored, or breaks at an index [c] below the bound, and
    exactly the indices before [c] are stored. *)
Lemma render_loop_count (fuel : nat) (p : WaveParams) (i : Z) (st : Synth)
    (buffer : list float) :
  let '(c, b, _) := render_loop fuel p i st buffer in
  (c = 0 /\ length b = (length buffer + fuel)%nat)
  \/ (i <= c < i + Z.of_nat fuel
      /\ Z.of_nat (length b) = Z.of_nat (length buffer) + (c - i)).
Proof.
  revert i st buffer. induction fuel as [|fuel IH]; intros i st buffer; cbn [render_loop].
  - left. split; [reflexivity|lia].
  - destruct (generatingSample st); cbn [negb].
    + destruct (render_sample p st) as [st' x].
      specialize (IH (i + 1) st' (buffer ++ [x])).
      destruct (render_loop fuel p (i + 1) st' (buffer ++ [x])) as [[c b] final].
      rewrite length_app in IH. cbn [length] in IH.
      destruct IH as [[Hc Hb]|[Hc Hb]]; [left|right]; split; lia.
    + right. split; lia.
Qed.

(** The loop breaks at once when the flag is down. *)
Lemma render_loop_stopped (fuel : nat) (p : WaveParams) (i : Z) (st : Synth)
    (buffer : list float) :
  generatingSample st = false ->
  render_loop (S fuel) p i st buffer = (i, buffer, st).
Proof. intros H. cbn [render_loop]. rewrite H. reflexivity. Qed.

(** What [GenerateWave] returns, in general: fewer samples than the buffer
    can hold, and either all the samples that were stored or, when the loop
    ran to its bound, none of them. *)
Lemma GenerateWave_sampleCount (p : WaveParams) (st : Globals) :
  let w := (GenerateWave p st).1 in
  let stored := length (rendered p (rand_state st)).1.2 in
  0 <= sampleCount w < MAX_SAMPLES
  /\ Z.of_nat (length (data w)) = sampleCount w
  /\ (Z.of_nat stored = sampleCount w
      \/ (sampleCount w = 0 /\ Z.of_nat stored = MAX_SAMPLES)).
Proof.
  unfold GenerateWave, rendered.
  pose proof (render_loop_count (Z.to_nat (MAX_WAVE_LENGTH_SECONDS * WAVE_SAMPLE_RATE))
                (working_copy p) 0 (entry p (rand_state st)) []) as H.
  destruct (render_loop _ _ _ _ _) as [[c b] final].
  cbn [fst snd sampleCount data length] in *.
  rewrite Z2Nat.id in H by (unfold MAX_WAVE_LENGTH_SECONDS, WAVE_SAMPLE_RATE; lia).
  fold MAX_SAMPLES in H.
  assert (HM : 0 < MAX_SAMPLES) by (unfold MAX_SAMPLES, MAX_WAVE_LENGTH_SECONDS, WAVE_SAMPLE_RATE; lia).
  rewrite length_take.
  destruct H as [[Hc Hb]|[Hc Hb]].
  - subst c. repeat split; lia.
  - repeat split; lia.
Qed.

(** *** A render that reaches the bound *)

Lemma step_envelope_envelope (p : WaveParams) (a b : Synth) :
  envelope a = envelope b -> envelope (step_envelope p a) = envelope (step_envelope p b).
Proof. intros H. unfold step_envelope. cbn [envelope set_envelope]. rewrite H. reflexivity. Qed.

Lemma advance_envelope (p : WaveParams) (st : Synth) :
  envelope (advance p st) = envelope (step_envelope p st).
Proof.
  unfold advance.
  destruct (step_hpf_frame (step_phaser (step_envelope p
              (step_duty (step_frequency p (step_repeat p st)))))) as (_ & H1 & _).
  destruct (step_phaser_frame (step_envelope p
              (step_duty (step_frequency p (step_repeat p st))))) as (_ & H2 & _).
  rewrite H1, H2. apply step_envelope_envelope.
  destruct (step_duty_frame (step_frequency p (step_repeat p st))) as (H3 & _).
  destruct (step_frequency_frame p (step_repeat p st)) as (H4 & _).
  destruct (step_repeat_frame p st) as (H5 & _).
  congruence.
Qed.

(** The flag after the envelope step. *)
Lemma step_envelope_generatingSample (p : WaveParams) (st : Synth) :
  envelopeStage (envelope (step_envelope p st)) <> 3 ->
  generatingSample (step_envelope p st) = generatingSample st.
Proof.
  unfold step_envelope. cbn [generatingSample envelope set_envelope set_generatingSample
    envelopeStage].
  destruct (stage_len (envelope st) (envelopeStage (envelope st)) <? envelopeTime (envelope st) + 1);
    [|reflexivity].
  intros Hstage. cbn [andb].
  destruct (envelopeStage (envelope st) + 1 =? 3) eqn:E; [|reflexivity].
  apply Z.eqb_eq in E. contradiction.
Qed.

(** The flag after the part of the body that may lower it. *)
Lemma advance_generatingSample (p : WaveParams) (st : Synth) :
  fgt (minFrequencyValue p) fzero = false ->
  envelopeStage (envelope (step_envelope p st)) <> 3 ->
  generatingSample (advance p st) = generatingSample st.
Proof.
  intros Hmin Hstage. unfold advance.
  set (X := step_duty (step_frequency p (step_repeat p st))).
  destruct (step_hpf_frame (step_phaser (step_envelope p X))) as (_ & _ & _ & _ & H1).
  destruct (step_phaser_frame (step_envelope p X)) as (_ & _ & _ & _ & H2).
  rewrite H1, H2.
  assert (HX : generatingSample X = generatingSample st).
  { unfold X. destruct (step_duty_frame (step_frequency p (step_repeat p st)))
      as (_ & _ & _ & _ & H3).
    rewrite H3, (step_frequency_generatingSample p _ Hmin).
    apply step_repeat_frame. }
  assert (HE : envelope X = envelope st).
  { unfold X. destruct (step_duty_frame (step_frequency p (step_repeat p st))) as (H3 & _).
    destruct (step_frequency_frame p (step_repeat p st)) as (H4 & _).
    destruct (step_repeat_frame p st) as (H5 & _). congruence. }
  rewrite <- HX. apply step_envelope_generatingSample.
  rewrite (step_envelope_envelope p X st HE). exact Hstage.
Qed.

(** While the attack stage lasts, a pass only advances the envelope
    clock. *)
Lemma attack_pass (p : WaveParams) (st : Synth) (l0 : Z) (rest : list Z) :
  fgt (minFrequencyValue p) fzero = false ->
  envelopeStage (envelope st) = 0 ->
  envelopeLength (envelope st) = l0 :: rest ->
  envelopeTime (envelope st) + 1 <= l0 ->
  let st' := (render_sample p st).1 in
  generatingSample st' = generatingSample st
  /\ envelopeStage (envelope st') = 0
  /\ envelopeLength (envelope st') = l0 :: rest
  /\ envelopeTime (envelope st') = envelopeTime (envelope st) + 1.
Proof.
  intros Hmin Hs Hl Ht st'.
  destruct (render_sample_control p st) as (_ & He & _ & _ & _ & Hg).
  subst st'. rewrite Hg, He, advance_envelope.
  assert (Hnext : (stage_len (envelope st) (envelopeStage (envelope st))
                   <? envelopeTime (envelope st) + 1) = false).
  { unfold stage_len. rewrite Hs, Hl. change (Z.to_nat 0) with 0%nat. cbn [nth].
    apply Z.ltb_ge. lia. }
  assert (HE : envelopeStage (envelope (step_envelope p st)) = 0
               /\ envelopeLength (envelope (step_envelope p st)) = l0 :: rest
               /\ envelopeTime (envelope (step_envelope p st)) = envelopeTime (envelope st) + 1).
  { unfold step_envelope. cbn [envelope set_envelope envelopeStage envelopeLength envelopeTime].
    rewrite Hnext. repeat split; assumption. }
  destruct HE as (H1 & H2 & H3).
  split; [|repeat split; assumption].
  apply advance_generatingSample; [exact Hmin|]. rewrite H1. discriminate.
Qed.

(** With an attack stage at least as long as the loop bound and no minimum
    frequency, the loop runs out of indices. *)
Lemma render_loop_attack (fuel : nat) (p : WaveParams) (i : Z) (st : Synth)
    (buffer : list float) (l0 : Z) (rest : list Z) :
  fgt (minFrequencyValue p) fzero = false ->
  generatingSample st = true ->
  envelopeStage (envelope st) = 0 ->
  envelopeLength (envelope st) = l0 :: rest ->
  envelopeTime (envelope st) + Z.of_nat fuel <= l0 ->
  let '(c, b, _) := render_loop fuel p i st buffer in
  c = 0 /\ length b = (length buffer + fuel)%nat.
Proof.
  intros Hmin. revert i st buffer.
  induction fuel as [|fuel IH]; intros i st buffer Hg Hs Hl Ht; cbn [render_loop].
  - split; [reflexivity|lia].
  - rewrite Hg. cbn [negb].
    pose proof (attack_pass p st l0 rest Hmin Hs Hl ltac:(lia)) as H. cbn zeta in H.
    destruct (render_sample p st) as [st' x]. cbn [fst] in H.
    destruct H as (Hg' & Hs' & Hl' & Ht').
    specialize (IH (i + 1) st' (buffer ++ [x]) ltac:(congruence) Hs' Hl' ltac:(lia)).
    destruct (render_loop fuel p (i + 1) st' (buffer ++ [x])) as [[c b] final].
    rewrite length_app in IH. cbn [length] in IH. destruct IH as [Hc Hb].
    split; [exact Hc|lia].
Qed.

Lemma entry_control (p : WaveParams) (g : rng) :
  generatingSample (entry p g) = true
  /\ envelope (entry p g) = reset_envelope (working_copy p).
Proof. unfold entry, reset_sample. destruct (noise_table 32 _). split; reflexivity. Qed.

Lemma GenerateWave_of_rendered (p : WaveParams) (st : Globals) (c : Z) (b : list float)
    (final : Synth) :
  rendered p (rand_state st) = (c, b, final) ->
  (GenerateWave p st).1
  = {| sampleCount := c; sampleRate := WAVE_SAMPLE_RATE; sampleSize := 32; channels := 1;
       data := take (Z.to_nat (c * 1)) b |}.
Proof. intros H. unfold GenerateWave. rewrite H. reflexivity. Qed.

Lemma rendered_long_attack (seed : Z) (g : rng) :
  exists (b : list float) (final : Synth),
    rendered (long_attack seed) g = (0, b, final)
    /\ length b = Z.to_nat (MAX_WAVE_LENGTH_SECONDS * WAVE_SAMPLE_RATE).
Proof.
  unfold rendered.
  assert (Hfuel : Z.of_nat (Z.to_nat (MAX_WAVE_LENGTH_SECONDS * WAVE_SAMPLE_RATE)) <= 900000).
  { rewrite Z2Nat.id; unfold MAX_WAVE_LENGTH_SECONDS, WAVE_SAMPLE_RATE; lia. }
  generalize dependent (Z.to_nat (MAX_WAVE_LENGTH_SECONDS * WAVE_SAMPLE_RATE)).
  intros fuel Hfuel.
  assert (Hw : working_copy (long_attack seed) = long_attack seed) by reflexivity.
  pose proof (entry_control (long_attack seed) g) as [Hg He].
  rewrite Hw in *.
  assert (Hl : stage_length (f32 3 1) = 900000) by (vm_compute; reflexivity).
  pose proof (render_loop_attack fuel (long_attack seed) 0 (entry (long_attack seed) g) []
                900000 [stage_length (f32 3 10); stage_length (f32 4 10)] eq_refl Hg) as H.
  rewrite He in H.
  specialize (H eq_refl).
  specialize (H ltac:(unfold reset_envelope; cbn [envelopeLength]; f_equal; exact Hl)).
  specialize (H ltac:(unfold reset_envelope; cbn [envelopeTime]; lia)).
  destruct (render_loop fuel (long_attack seed) 0 (entry (long_attack seed) g) [])
    as [[c b] final].
  destruct H as [Hc Hb]. subst c. exists b, final. split; [reflexivity|exact Hb].
Qed.

(** C1 (length of the result), at a parameter set whose envelope outlasts
    the buffer.  The loop stores all 441000 samples, never takes the
    [break] that assigns [sampleCount], and [GenerateWave] returns a wave
    with [sampleCount] 0 and no data: the count is not the number of samples
    produced. *)
Theorem GenerateWave_long_attack (seed : Z) (st : Globals) :
  let w := (GenerateWave (long_attack seed) st).1 in
  Z.of_nat (length (rendered (long_attack seed) (rand_state st)).1.2) = 441000
  /\ sampleCount w = 0
  /\ data w = [].
Proof.
  destruct (rendered_long_attack seed (rand_state st)) as (b & final & Hr & Hb).
  cbv zeta. rewrite (GenerateWave_of_rendered _ _ _ _ _ Hr), Hr.
  cbn [fst snd sampleCount data]. rewrite Hb.
  split; [|split; reflexivity].
  rewrite Z2Nat.id; unfold MAX_WAVE_LENGTH_SECONDS, WAVE_SAMPLE_RATE; lia.
Qed.

(** *** Reseeding *)

(** With a seed other than zero the state on entry does not depend on the
    state of the shared generator. *)
Lemma entry_seeded (p : WaveParams) (g1 g2 : rng) :
  randSeed p <> 0 -> entry p g1 = entry p g2.
Proof.
  intros Hseed. unfold entry.
  destruct (randSeed p =? 0) eqn:E; [apply Z.eqb_eq in E; contradiction|]. reflexivity.
Qed.

(** C4 (determinism).  With [randSeed] other than zero, [GenerateWave]
    returns the same wave (count, format and samples) whatever the state of
    the shared generator and the other globals when it is called, and leaves
    the generator in the same state: two renders of the same parameters are
    identical. *)
Theorem GenerateWave_deterministic (p : WaveParams) (st1 st2 : Globals) :
  randSeed p <> 0 ->
  (GenerateWave p st1).1 = (GenerateWave p st2).1
  /\ rand_state (GenerateWave p st1).2 = rand_state (GenerateWave p st2).2.
Proof.
  intros Hseed. unfold GenerateWave, rendered.
  rewrite (entry_seeded p (rand_state st1) (rand_state st2) Hseed).
  destruct (render_loop _ _ _ _ _) as [[c b] final]. split; reflexivity.
Qed.

(** With seed zero the generator is used as it is found. *)
Lemma entry_unseeded (p : WaveParams) (g : rng) :
  randSeed p = 0 -> entry p g = reset_sample (working_copy p) g.
Proof. intros H. unfold entry. rewrite H. reflexivity. Qed.

(** *** The working copy *)

Lemma flt_irrefl (x : spec_float) : flt x x = false.
Proof.
  unfold flt, SFltb. pose proof (SFcompare_antisym x x) as H.
  destruct (SFcompare x x) as [[]|]; cbn in H; congruence.
Qed.

Lemma working_copy_clamped (p : WaveParams) :
  fgt (minFrequencyValue (working_copy p)) (startFrequencyValue (working_copy p)) = false
  /\ flt (slideValue (working_copy p)) (deltaSlideValue (working_copy p)) = false.
Proof.
  unfold working_copy.
  destruct (fgt (minFrequencyValue p) (startFrequencyValue p)) eqn:E1;
    match goal with |- context [if ?c then _ else _] => destruct c eqn:E2 end;
    cbn in *; rewrite ?flt_irrefl; try (split; [assumption || apply flt_irrefl|]);
    try assumption; try apply flt_irrefl; auto.
Qed.

Lemma working_copy_fixed (p : WaveParams) :
  fgt (minFrequencyValue p) (startFrequencyValue p) = false ->
  flt (slideValue p) (deltaSlideValue p) = false ->
  working_copy p = p.
Proof. intros H1 H2. unfold working_copy. rewrite H1, H2. reflexivity. Qed.

Lemma working_copy_idempotent (p : WaveParams) :
  working_copy (working_copy p) = working_copy p.
Proof. destruct (working_copy_clamped p). apply working_copy_fixed; assumption. Qed.

Lemma working_copy_randSeed (p : WaveParams) :
  randSeed (working_copy p) = randSeed p.
Proof.
  unfold working_copy.
  destruct (fgt (minFrequencyValue p) (startFrequencyValue p));
    match goal with |- context [if ?c then _ else _] => destruct c end; reflexivity.
Qed.

(** C6 (render-time clamping).  [GenerateWave] works on its own copy of the
    parameters, in which [minFrequencyValue] is lowered to
    [startFrequencyValue] when it exceeds it and [slideValue] is raised to
    [deltaSlideValue] when it is below it; in that copy
    [minFrequencyValue <= startFrequencyValue] and
    [slideValue >= deltaSlideValue] whenever the four members are numbers.
    The render reads the parameters through that copy only (rendering [p]
    and rendering its clamped copy are the same computation), and the
    global [params], like every global but the state of the generator, is
    after the call what it was before, also when the argument is [params]
    itself and is out of range. *)
Theorem GenerateWave_clamps_copy (p : WaveParams) (st : Globals) :
  let w := working_copy p in
  fgt (minFrequencyValue w) (startFrequencyValue w) = false
  /\ flt (slideValue w) (deltaSlideValue w) = false
  /\ (is_nan (minFrequencyValue p) = false -> is_nan (startFrequencyValue p) = false ->
      fle (minFrequencyValue w) (startFrequencyValue w) = true)
  /\ (is_nan (slideValue p) = false -> is_nan (deltaSlideValue p) = false ->
      fge (slideValue w) (deltaSlideValue w) = true)
  /\ GenerateWave p st = GenerateWave w st
  /\ params (GenerateWave p st).2 = params st
  /\ params (GenerateWave (params st) st).2 = params st
  /\ volumeValue (GenerateWave p st).2 = volumeValue st
  /\ regenerate (GenerateWave p st).2 = regenerate st
  /\ files (GenerateWave p st).2 = files st
  /\ console (GenerateWave p st).2 = console st.
Proof.
  intros w. destruct (working_copy_clamped p) as [H1 H2]. fold w in H1, H2.
  split; [exact H1|]. split; [exact H2|].
  split.
  { intros Hm Hs. apply fgt_false_fle; [| |exact H1]; subst w; unfold working_copy;
      destruct (fgt (minFrequencyValue p) (startFrequencyValue p));
      match goal with |- context [if ?c then _ else _] => destruct c end; assumption. }
  split.
  { intros Hs Hd. unfold fge. apply flt_false_fle; [| |exact H2]; subst w; unfold working_copy;
      destruct (fgt (minFrequencyValue p) (startFrequencyValue p));
      match goal with |- context [if ?c then _ else _] => destruct c end; assumption. }
  split.
  { unfold GenerateWave, rendered, entry. subst w.
    rewrite working_copy_idempotent, working_copy_randSeed. reflexivity. }
  unfold GenerateWave.
  destruct (rendered p (rand_state st)) as [[c b] final].
  destruct (rendered (params st) (rand_state st)) as [[c' b'] final'].
  repeat split.
Qed.

(** *** Clamping *)

Lemma clamp_in_range_or_nan (lo hi x : float) :
  fle lo hi = true -> in_range_or_nan lo hi (clamp lo hi x) = true.
Proof.
  intros Hb. apply clamped_in_range; [| |apply clamp_clamped; exact Hb];
    revert Hb; unfold fle, SFleb;
    destruct (SFcompare lo hi) eqn:E; try discriminate; intros _;
    [destruct (is_nan lo) eqn:N|destruct (is_nan hi) eqn:N]; try reflexivity;
    assert (SFcompare lo hi = None) by (apply SFcompare_None; auto); congruence.
Qed.

(** The two clamps on the sample, upper bound first. *)
Lemma sample_clamps (x : float) :
  let x1 := if fgt x (f32 1 1) then f32 1 1 else x in
  let x2 := if flt x1 (fneg (f32 1 1)) then fneg (f32 1 1) else x1 in
  in_range_or_nan (fneg (f32 1 1)) (f32 1 1) x2 = true.
Proof.
  cbv zeta. apply clamped_in_range; [reflexivity|reflexivity|]. unfold clamped.
  destruct (fgt x (f32 1 1)) eqn:E1; [reflexivity|].
  destruct (flt x (fneg (f32 1 1))) eqn:E2; [reflexivity|].
  rewrite E1, E2. reflexivity.
Qed.

Lemma render_sample_sample (p : WaveParams) (st : Synth) :
  in_range_or_nan (fneg (f32 1 1)) (f32 1 1) (render_sample p st).2 = true.
Proof.
  unfold render_sample.
  destruct (Nat.iter MAX_SUPERSAMPLING (supersample p) (advance p st, fzero)) as [st' s].
  cbn [snd]. apply sample_clamps.
Qed.

(** What one pass of the supersampling loop does to the filter
    coefficients. *)
Lemma supersample_filter (p : WaveParams) (acc : Synth * float) :
  let f := filter acc.1 in
  let f' := filter (supersample p acc).1 in
  fltw f' = clamp fzero (f32 1 10) (fmul (fltw f) (fltwd f))
  /\ fltwd f' = fltwd f /\ fltdmp f' = fltdmp f
  /\ flthp f' = flthp f /\ flthpd f' = flthpd f.
Proof.
  destruct acc as [st ssample]. cbn [fst].
  assert (Hf : filter (step_phase p st) = filter st).
  { unfold step_phase. destruct (period (tone st) <=? phase st + 1); [|reflexivity].
    destruct (waveTypeValue p =? 3); [|reflexivity].
    cbn [generator set_phase]. destruct (noise_table 32 (generator st)); reflexivity. }
  unfold supersample, step_filter, step_delay. cbn [fst filter set_phaser set_filter].
  rewrite Hf. repeat split.
Qed.

Lemma supersampling_filter (p : WaveParams) (n : nat) (acc : Synth * float) :
  let f := filter acc.1 in
  let f' := filter (Nat.iter n (supersample p) acc).1 in
  fltwd f' = fltwd f /\ fltdmp f' = fltdmp f
  /\ flthp f' = flthp f /\ flthpd f' = flthpd f
  /\ (n <> 0%nat -> in_range_or_nan fzero (f32 1 10) (fltw f') = true).
Proof.
  induction n as [|n IH];
    [|change (Nat.iter (S n) (supersample p) acc)
        with (supersample p (Nat.iter n (supersample p) acc))]; cbv zeta.
  - do 4 (split; [reflexivity|]). intros H; contradiction.
  - destruct (supersample_filter p (Nat.iter n (supersample p) acc)) as (H1 & H2 & H3 & H4 & H5).
    cbv zeta in *. destruct IH as (I2 & I3 & I4 & I5 & _).
    do 4 (split; [congruence|]).
    intros _. rewrite H1. apply clamp_in_range_or_nan. reflexivity.
Qed.

Lemma step_hpf_filter (st : Synth) :
  let f := filter st in
  let f' := filter (step_hpf st) in
  fltw f' = fltw f /\ fltwd f' = fltwd f /\ fltdmp f' = fltdmp f /\ flthpd f' = flthpd f
  /\ flthp f' = if fne (flthpd f) fzero
                then clamp (f32 1 100000) (f32 1 10) (fmul (flthp f) (flthpd f))
                else flthp f.
Proof. repeat split. Qed.

(** The filter coefficients before the supersampling loop. *)
Lemma advance_filter (p : WaveParams) (st : Synth) :
  let f := filter st in
  let f' := filter (advance p st) in
  fltw f' = fltw f /\ fltwd f' = fltwd f /\ fltdmp f' = fltdmp f /\ flthpd f' = flthpd f
  /\ flthp f' = if fne (flthpd f) fzero
                then clamp (f32 1 100000) (f32 1 10) (fmul (flthp f) (flthpd f))
                else flthp f.
Proof.
  set (X := step_phaser (step_envelope p (step_duty (step_frequency p (step_repeat p st))))).
  assert (Hf : filter X = filter st).
  { unfold X.
    destruct (step_phaser_frame (step_envelope p
                (step_duty (step_frequency p (step_repeat p st))))) as (_ & _ & H1 & _).
    destruct (step_envelope_frame p (step_duty (step_frequency p (step_repeat p st))))
      as (_ & H2 & _).
    destruct (step_duty_frame (step_frequency p (step_repeat p st))) as (_ & H3 & _).
    destruct (step_frequency_frame p (step_repeat p st)) as (_ & H4 & _).
    destruct (step_repeat_frame p st) as (_ & H5 & _). congruence. }
  pose proof (step_hpf_filter X) as H. cbv zeta in H. rewrite Hf in H. exact H.
Qed.

Lemma advance_tone (p : WaveParams) (st : Synth) :
  in_range_or_nan fzero (f32 5 10) (squareDuty (tone (advance p st))) = true
  /\ 8 <= period (tone (advance p st)).
Proof.
  set (Y := step_frequency p (step_repeat p st)).
  assert (Ht : tone (advance p st) = tone (step_duty Y)).
  { unfold advance. fold Y.
    destruct (step_hpf_frame (step_phaser (step_envelope p (step_duty Y)))) as (H1 & _).
    destruct (step_phaser_frame (step_envelope p (step_duty Y))) as (H2 & _).
    destruct (step_envelope_frame p (step_duty Y)) as (H3 & _). congruence. }
  rewrite Ht. unfold step_duty. cbn [tone set_tone squareDuty period].
  split; [apply clamp_in_range_or_nan; reflexivity|].
  unfold Y, step_frequency. cbn [tone set_tone period].
  match goal with |- context [if ?x <? 8 then _ else _] => destruct (x <? 8) eqn:E end;
    [lia|apply Z.ltb_ge in E; exact E].
Qed.

(** After any pass of the body, from any state whose damping is bounded. *)
Lemma render_sample_clamping (p : WaveParams) (st : Synth) :
  fle (fltdmp (filter st)) (f32 8 10) || is_nan (fltdmp (filter st)) = true ->
  clamping_kept (render_sample p st).1 = true.
Proof.
  intros Hd.
  destruct (render_sample_control p st) as (Ht & _).
  destruct (advance_tone p st) as [Hduty Hperiod].
  destruct (advance_filter p st) as (A1 & A2 & A3 & A4 & A5). cbv zeta in *.
  assert (HF : let f' := filter (render_sample p st).1 in
               fltdmp f' = fltdmp (filter st) /\ flthpd f' = flthpd (filter st)
               /\ flthp f' = flthp (filter (advance p st))
               /\ in_range_or_nan fzero (f32 1 10) (fltw f') = true).
  { unfold render_sample.
    pose proof (supersampling_filter p MAX_SUPERSAMPLING (advance p st, fzero)) as H.
    destruct (Nat.iter MAX_SUPERSAMPLING (supersample p) (advance p st, fzero)) as [st' s].
    cbn [fst] in *. destruct H as (_ & H3 & H4 & H5 & H6).
    do 3 (split; [congruence|]). apply H6. discriminate. }
  destruct HF as (F1 & F2 & F3 & F4).
  unfold clamping_kept. rewrite Ht, Hduty, F4, F1, Hd, F2, F3, A5.
  assert (H8 : (8 <=? period (tone (advance p st))) = true) by (apply Z.leb_le; exact Hperiod).
  rewrite H8. cbn [andb]. rewrite andb_true_r.
  unfold fne. destruct (SFeqb (flthpd (filter st)) fzero) eqn:E.
  - unfold feq. rewrite E. reflexivity.
  - cbn [negb]. rewrite clamp_in_range_or_nan by reflexivity. apply orb_true_r.
Qed.

Lemma reset_filter_fltdmp (p : WaveParams) :
  fle (fltdmp (reset_filter p)) (f32 8 10) || is_nan (fltdmp (reset_filter p)) = true.
Proof.
  unfold reset_filter. cbn [fltdmp].
  match goal with |- context [if fgt ?d _ then _ else _] => set (x := d) end.
  destruct (fgt x (f32 8 10)) eqn:E; [reflexivity|].
  destruct (is_nan x) eqn:N; [apply orb_true_r|].
  rewrite (fgt_false_fle x (f32 8 10) N eq_refl E). reflexivity.
Qed.

Lemma loop_state_fltdmp (p : WaveParams) (g : rng) (n : nat) :
  fltdmp (filter (loop_state p g n)) = fltdmp (reset_filter (working_copy p)).
Proof.
  induction n as [|n IH].
  - unfold loop_state, entry, reset_sample. cbn [Nat.iter nat_rect].
    destruct (noise_table 32 _). reflexivity.
  - rewrite loop_state_S. rewrite <- IH.
    set (st := loop_state p g n).
    unfold render_sample.
    pose proof (supersampling_filter (working_copy p) MAX_SUPERSAMPLING
                  (advance (working_copy p) st, fzero)) as H.
    destruct (Nat.iter MAX_SUPERSAMPLING (supersample (working_copy p))
                (advance (working_copy p) st, fzero)) as [st' s].
    cbn [fst] in *. destruct H as (_ & H3 & _).
    destruct (advance_filter (working_copy p) st) as (_ & _ & A3 & _). congruence.
Qed.

(** Every sample the loop stores is clamped. *)
Lemma render_loop_samples (fuel : nat) (p : WaveParams) (i : Z) (st : Synth)
    (buffer : list float) :
  Forall (fun x => in_range_or_nan (fneg (f32 1 1)) (f32 1 1) x = true) buffer ->
  Forall (fun x => in_range_or_nan (fneg (f32 1 1)) (f32 1 1) x = true)
    (render_loop fuel p i st buffer).1.2.
Proof.
  revert i st buffer. induction fuel as [|fuel IH]; intros i st buffer Hb; cbn [render_loop].
  - exact Hb.
  - destruct (generatingSample st); cbn [negb]; [|exact Hb].
    pose proof (render_sample_sample p st) as Hs.
    destruct (render_sample p st) as [st' x]. apply IH.
    apply Forall_app. split; [exact Hb|]. constructor; [exact Hs|constructor].
Qed.

(** C2 (clamping), as the code has it.  After every pass of the loop body:
    the period is at least 8; the duty, the low-pass cutoff [fltw] (also
    after each pass of the supersampling loop) and the low-pass damping
    [fltdmp] are within their bounds unless they are NaN; the high-pass
    cutoff [flthp] is within [0.00001, 0.1] unless it is a NaN or [flthpd]
    is zero, in which case the code skips its sweep and its clamp; and every
    sample stored in the buffer, hence every sample of the returned wave, is
    in [-1, 1] unless it is a NaN. *)
Theorem GenerateWave_clamping (p : WaveParams) (st : Globals) (n : nat) :
  clamping_kept (loop_state p (rand_state st) (S n)) = true
  /\ (forall acc : Synth * float,
        in_range_or_nan fzero (f32 1 10)
          (fltw (filter (supersample (working_copy p) acc).1)) = true)
  /\ Forall (fun x => in_range_or_nan (fneg (f32 1 1)) (f32 1 1) x = true)
       (rendered p (rand_state st)).1.2
  /\ Forall (fun x => in_range_or_nan (fneg (f32 1 1)) (f32 1 1) x = true)
       (data (GenerateWave p st).1).
Proof.
  split.
  { rewrite loop_state_S. apply render_sample_clamping.
    rewrite loop_state_fltdmp. apply reset_filter_fltdmp. }
  split.
  { intros acc. destruct (supersample_filter (working_copy p) acc) as (H & _).
    cbv zeta in H. rewrite H. apply clamp_in_range_or_nan. reflexivity. }
  assert (H : Forall (fun x => in_range_or_nan (fneg (f32 1 1)) (f32 1 1) x = true)
                (rendered p (rand_state st)).1.2).
  { unfold rendered. apply render_loop_samples. constructor. }
  split; [exact H|].
  unfold GenerateWave. destruct (rendered p (rand_state st)) as [[c b] final].
  cbn [fst snd data] in *. apply Forall_take. exact H.
Qed.

(** *** The buffer grows by its end *)

Lemma render_loop_prefix (fuel : nat) (p : WaveParams) (i : Z) (st : Synth)
    (buffer : list float) :
  buffer `prefix_of` (render_loop fuel p i st buffer).1.2.
Proof.
  revert i st buffer. induction fuel as [|fuel IH]; intros i st buffer; cbn [render_loop].
  - reflexivity.
  - destruct (generatingSample st); cbn [negb]; [|reflexivity].
    destruct (render_sample p st) as [st' x].
    etransitivity; [|apply IH]. apply prefix_app_r. reflexivity.
Qed.

(** A longer run of the loop stores the samples of a shorter one, and
    more. *)
Lemma render_loop_more_fuel (fuel fuel' : nat) (p : WaveParams) (i : Z) (st : Synth)
    (buffer : list float) :
  (fuel <= fuel')%nat ->
  (render_loop fuel p i st buffer).1.2 `prefix_of` (render_loop fuel' p i st buffer).1.2.
Proof.
  revert fuel' i st buffer.
  induction fuel as [|fuel IH]; intros fuel' i st buffer Hle.
  - apply render_loop_prefix.
  - destruct fuel' as [|fuel']; [lia|]. cbn [render_loop].
    destruct (generatingSample st); cbn [negb]; [|reflexivity].
    destruct (render_sample p st) as [st' x]. apply IH. lia.
Qed.

(** *** Array accesses *)

(** The model reads [envelopeLength[envelopeStage]] and [noiseBuffer[..]]
    with a default value outside the array; the program never reads there. *)

Lemma step_envelope_stage (p : WaveParams) (st : Synth) :
  0 <= envelopeStage (envelope st) <= 2 ->
  0 <= envelopeStage (envelope (step_envelope p st)) <= 3
  /\ (envelopeStage (envelope (step_envelope p st)) = 3 ->
      generatingSample (step_envelope p st) = false).
Proof.
  intros Hs. unfold step_envelope.
  cbn [envelope set_envelope envelopeStage generatingSample set_generatingSample].
  destruct (stage_len (envelope st) (envelopeStage (envelope st)) <? envelopeTime (envelope st) + 1).
  - split; [lia|]. intros H3. rewrite H3. reflexivity.
  - split; [lia|]. intros H3. lia.
Qed.

Lemma step_envelope_generatingSample_mono (p : WaveParams) (st : Synth) :
  generatingSample (step_envelope p st) = true -> generatingSample st = true.
Proof.
  unfold step_envelope. cbn [generatingSample set_envelope set_generatingSample].
  destruct (_ && _); [discriminate|]. trivial.
Qed.

Lemma step_frequency_generatingSample_mono (p : WaveParams) (st : Synth) :
  generatingSample (step_frequency p st) = true -> generatingSample st = true.
Proof.
  unfold step_frequency. cbn [generatingSample set_tone set_vibrato set_generatingSample].
  destruct (_ && _); [discriminate|]. trivial.
Qed.

(** The flag is never raised again. *)
Lemma render_sample_generatingSample_mono (p : WaveParams) (st : Synth) :
  generatingSample (render_sample p st).1 = true -> generatingSample st = true.
Proof.
  destruct (render_sample_control p st) as (_ & _ & _ & _ & _ & Hg). rewrite Hg.
  unfold advance.
  set (Y := step_repeat p st). set (X := step_duty (step_frequency p Y)).
  destruct (step_hpf_frame (step_phaser (step_envelope p X))) as (_ & _ & _ & _ & H1).
  destruct (step_phaser_frame (step_envelope p X)) as (_ & _ & _ & _ & H2).
  rewrite H1, H2. intros H. apply step_envelope_generatingSample_mono in H.
  destruct (step_duty_frame (step_frequency p Y)) as (_ & _ & _ & _ & H3).
  unfold X in H. rewrite H3 in H. apply step_frequency_generatingSample_mono in H.
  destruct (step_repeat_frame p st) as (_ & _ & _ & _ & H4).
  unfold Y in H. rewrite H4 in H. exact H.
Qed.

Lemma render_sample_stage (p : WaveParams) (st : Synth) :
  0 <= envelopeStage (envelope st) <= 2 ->
  0 <= envelopeStage (envelope (render_sample p st).1) <= 3
  /\ (envelopeStage (envelope (render_sample p st).1) = 3 ->
      generatingSample (render_sample p st).1 = false).
Proof.
  intros Hs.
  destruct (render_sample_control p st) as (_ & He & _ & _ & _ & Hg). rewrite He, Hg.
  unfold advance.
  set (X := step_duty (step_frequency p (step_repeat p st))).
  assert (HE : envelope X = envelope st).
  { unfold X. destruct (step_duty_frame (step_frequency p (step_repeat p st))) as (H3 & _).
    destruct (step_frequency_frame p (step_repeat p st)) as (H4 & _).
    destruct (step_repeat_frame p st) as (H5 & _). congruence. }
  destruct (step_hpf_frame (step_phaser (step_envelope p X))) as (_ & E1 & _ & _ & G1).
  destruct (step_phaser_frame (step_envelope p X)) as (_ & E2 & _ & _ & G2).
  rewrite E1, E2, G1, G2. apply step_envelope_stage. rewrite HE. exact Hs.
Qed.

(** Whenever the loop runs its body, the envelope stage indexes one of the
    three entries of [envelopeLength]. *)
Lemma envelopeStage_in_bounds (p : WaveParams) (g : rng) (n : nat) :
  generatingSample (loop_state p g n) = true ->
  0 <= envelopeStage (envelope (loop_state p g n)) <= 2.
Proof.
  induction n as [|n IH].
  - intros _. destruct (entry_control p g) as [_ He].
    cbn [loop_state Nat.iter nat_rect]. rewrite He. cbn [reset_envelope envelopeStage]. lia.
  - rewrite loop_state_S. intros Hg.
    pose proof (render_sample_generatingSample_mono _ _ Hg) as Hg0.
    destruct (render_sample_stage (working_copy p) (loop_state p g n) (IH Hg0)) as [Hb H3].
    set (st' := (render_sample (working_copy p) (loop_state p g n)).1) in *.
    destruct (Z.eq_dec (envelopeStage (envelope st')) 3) as [E|E].
    + specialize (H3 E). congruence.
    + clear -Hb E. lia.
Qed.

(** After the oscillator advances, the phase is below the period, so the
    index [phase*32/period] into the noise table is below 32. *)
Lemma step_phase_bounds (p : WaveParams) (st : Synth) :
  0 < period (tone st) -> 0 <= phase st ->
  let st' := step_phase p st in
  0 <= phase st' < period (tone st')
  /\ 0 <= Z.quot (phase st' * 32) (period (tone st')) < 32.
Proof.
  intros Hp Hph.
  assert (H : 0 <= phase (step_phase p st) < period (tone (step_phase p st))).
  { destruct (step_phase_control p st) as (Ht & _). rewrite Ht.
    unfold step_phase.
    destruct (period (tone st) <=? phase st + 1) eqn:E.
    - assert (Hr : 0 <= Z.rem (phase st + 1) (period (tone st)) < period (tone st))
        by (apply Z.rem_bound_pos; lia).
      destruct (waveTypeValue p =? 3); [|exact Hr].
      cbn [generator set_phase]. destruct (noise_table 32 (generator st)); exact Hr.
    - apply Z.leb_gt in E. cbn [phase set_phase]. lia. }
  cbv zeta. split; [exact H|].
  split.
  - apply Z.quot_pos; lia.
  - apply Z.quot_lt_upper_bound; lia.
Qed.

Lemma length_noise_table (n : nat) (g : rng) : length (noise_table n g).1 = n.
Proof.
  revert g. induction n as [|n IH]; intros g; cbn [noise_table]; [reflexivity|].
  destruct (noise_draw g) as [x g1]. specialize (IH g1).
  destruct (noise_table n g1) as [l g2]. cbn [fst length] in *. congruence.
Qed.

(** *** The length of a render that the envelope ends *)

(** The clock of the envelope after its step. *)
Lemma step_envelope_clock (p : WaveParams) (st : Synth) :
  let e := envelope st in
  let e' := envelope (step_envelope p st) in
  envelopeLength e' = envelopeLength e
  /\ (if stage_len e (envelopeStage e) <? envelopeTime e + 1
      then envelopeStage e' = envelopeStage e + 1 /\ envelopeTime e' = 0
      else envelopeStage e' = envelopeStage e /\ envelopeTime e' = envelopeTime e + 1).
Proof.
  cbv zeta. unfold step_envelope.
  cbn [envelope set_envelope envelopeStage envelopeTime envelopeLength].
  destruct (stage_len (envelope st) (envelopeStage (envelope st)) <? envelopeTime (envelope st) + 1);
    repeat split.
Qed.

(** The same on the clock alone: from a running envelope, one pass less is
    left, and the envelope is still running unless it reached stage 3 with
    nothing left. *)
Lemma envelope_clock_pass (e e' : Envelope) :
  envelope_running e ->
  envelopeLength e' = envelopeLength e ->
  (if stage_len e (envelopeStage e) <? envelopeTime e + 1
   then envelopeStage e' = envelopeStage e + 1 /\ envelopeTime e' = 0
   else envelopeStage e' = envelopeStage e /\ envelopeTime e' = envelopeTime e + 1) ->
  envelope_passes e' = envelope_passes e - 1
  /\ (envelope_running e' \/ (envelopeStage e' = 3 /\ envelope_passes e' = 0)).
Proof.
  destruct e as [s t ls v]. destruct e' as [s' t' ls' v'].
  unfold envelope_running, envelope_passes, stage_len.
  cbn [envelopeStage envelopeTime envelopeLength].
  intros (Hs & Hlen & Hpos & Ht) -> Hstep.
  destruct ls as [|l0 [|l1 [|l2 [|]]]]; try discriminate.
  apply Forall_cons in Hpos. destruct Hpos as [P0 Hpos].
  apply Forall_cons in Hpos. destruct Hpos as [P1 Hpos].
  apply Forall_cons in Hpos. destruct Hpos as [P2 _].
  assert (Hall : Forall (fun l => 0 <= l) [l0; l1; l2]) by (repeat constructor; assumption).
  assert (Hcase : s = 0 \/ s = 1 \/ s = 2) by lia. clear Hs.
  destruct Hcase as [-> | [-> | ->]];
    change (Z.to_nat 0) with 0%nat in *; change (Z.to_nat 1) with 1%nat in *;
    change (Z.to_nat 2) with 2%nat in *; cbn [nth] in *;
    match type of Hstep with
    | if ?c then _ else _ => destruct c eqn:N; destruct Hstep as [-> ->]
    end;
    [apply Z.ltb_lt in N|apply Z.ltb_ge in N|apply Z.ltb_lt in N|apply Z.ltb_ge in N
    |apply Z.ltb_lt in N|apply Z.ltb_ge in N];
    change (0 + 1) with 1; change (1 + 1) with 2; change (2 + 1) with 3;
    change (Z.to_nat 0) with 0%nat; change (Z.to_nat 1) with 1%nat;
    change (Z.to_nat 2) with 2%nat; change (Z.to_nat 3) with 3%nat;
    cbn [nth]; cbv beta iota;
    (split; [lia|]);
    first [ right; split; [reflexivity|lia]
          | left; split; [lia|]; split; [reflexivity|]; split; [exact Hall|]; lia ].
Qed.

(** One pass of the loop body, with no minimum frequency: one pass less is
    left, and the flag is lowered exactly when none is. *)
Lemma envelope_pass (p : WaveParams) (st : Synth) :
  fgt (minFrequencyValue p) fzero = false ->
  generatingSample st = true ->
  envelope_running (envelope st) ->
  let st' := (render_sample p st).1 in
  envelope_passes (envelope st') = envelope_passes (envelope st) - 1
  /\ ((generatingSample st' = true /\ envelope_running (envelope st'))
      \/ (generatingSample st' = false /\ envelope_passes (envelope st') = 0)).
Proof.
  intros Hmin Hg Hrun. cbv zeta.
  assert (Hs : 0 <= envelopeStage (envelope st) <= 2) by apply Hrun.
  destruct (render_sample_stage p st Hs) as [_ H3].
  destruct (render_sample_control p st) as (_ & He & _ & _ & _ & Hga).
  rewrite He, advance_envelope in *.
  destruct (step_envelope_clock p st) as [Hl Hstep]. cbv zeta in Hl, Hstep.
  destruct (envelope_clock_pass _ _ Hrun Hl Hstep) as [Hdec [Hrun'|[H3' Hzero]]].
  - split; [exact Hdec|]. left. split; [|exact Hrun'].
    rewrite Hga, advance_generatingSample; [exact Hg|exact Hmin|].
    destruct Hrun' as (Hs' & _). clear -Hs'. lia.
  - split; [exact Hdec|]. right. split; [apply H3; exact H3'|exact Hzero].
Qed.

(** With no minimum frequency, the loop breaks after as many passes as the
    envelope has left, if it has indices enough. *)
Lemma render_loop_envelope (fuel : nat) (p : WaveParams) (i : Z) (st : Synth)
    (buffer : list float) :
  fgt (minFrequencyValue p) fzero = false ->
  generatingSample st = true ->
  envelope_running (envelope st) ->
  envelope_passes (envelope st) < Z.of_nat fuel ->
  let '(c, b, _) := render_loop fuel p i st buffer in
  c = i + envelope_passes (envelope st)
  /\ Z.of_nat (length b) = Z.of_nat (length buffer) + envelope_passes (envelope st).
Proof.
  intros Hmin. revert i st buffer.
  induction fuel as [|fuel IH]; intros i st buffer Hg Hrun Hfuel.
  - assert (0 < envelope_passes (envelope st)); [|lia].
    destruct Hrun as (Hs & Hlen & Hpos & Ht).
    destruct (envelopeLength (envelope st)) as [|l0 [|l1 [|l2 [|]]]] eqn:EL; try discriminate.
    apply Forall_cons in Hpos. destruct Hpos as [P0 Hpos].
    apply Forall_cons in Hpos. destruct Hpos as [P1 Hpos].
    apply Forall_cons in Hpos. destruct Hpos as [P2 _].
    unfold envelope_passes, stage_len in *. rewrite EL in *.
    assert (Hcase : envelopeStage (envelope st) = 0 \/ envelopeStage (envelope st) = 1
                    \/ envelopeStage (envelope st) = 2) by lia.
    destruct Hcase as [E|[E|E]]; rewrite E in *;
      change (Z.to_nat 0) with 0%nat in *; change (Z.to_nat 1) with 1%nat in *;
      change (Z.to_nat 2) with 2%nat in *; cbn [nth] in *; lia.
  - cbn [render_loop]. rewrite Hg. cbn [negb].
    pose proof (envelope_pass p st Hmin Hg Hrun) as H. cbv zeta in H.
    destruct (render_sample p st) as [st' x]. cbn [fst] in H.
    destruct H as [Hdec [[Hg' Hrun']|[Hg' Hzero]]].
    + specialize (IH (i + 1) st' (buffer ++ [x]) Hg' Hrun' ltac:(lia)).
      destruct (render_loop fuel p (i + 1) st' (buffer ++ [x])) as [[c b] final].
      rewrite length_app in IH. cbn [length] in IH. lia.
    + destruct fuel as [|fuel]; [lia|].
      rewrite (render_loop_stopped fuel p (i + 1) st' (buffer ++ [x]) Hg').
      rewrite length_app. cbn [length]. lia.
Qed.

(** The length of the wave when the envelope ends the render: the three
    stage lengths plus three.  (For the defaults, 0 + 9000 + 16000 + 3.) *)
Lemma GenerateWave_envelope_length (p : WaveParams) (st : Globals) :
  let w := working_copy p in
  let total := stage_length (attackTimeValue w) + stage_length (sustainTimeValue w)
               + stage_length (decayTimeValue w) + 3 in
  fgt (minFrequencyValue w) fzero = false ->
  0 <= stage_length (attackTimeValue w) ->
  0 <= stage_length (sustainTimeValue w) ->
  0 <= stage_length (decayTimeValue w) ->
  total < MAX_SAMPLES ->
  sampleCount (GenerateWave p st).1 = total
  /\ Z.of_nat (length (data (GenerateWave p st).1)) = total
  /\ Z.of_nat (length (rendered p (rand_state st)).1.2) = total.
Proof.
  intros w total Hmin H0 H1 H2 Hmax.
  destruct (entry_control p (rand_state st)) as [Hg He]. fold w in He.
  assert (Hrun : envelope_running (envelope (entry p (rand_state st)))).
  { rewrite He. unfold envelope_running, reset_envelope, stage_len.
    cbn [envelopeStage envelopeLength envelopeTime length].
    change (Z.to_nat 0) with 0%nat. cbn [nth].
    repeat split; try lia. repeat constructor; assumption. }
  assert (Hpasses : envelope_passes (envelope (entry p (rand_state st))) = total).
  { rewrite He. unfold envelope_passes, reset_envelope, stage_len, total.
    cbn [envelopeStage envelopeLength envelopeTime].
    change (Z.to_nat 0) with 0%nat. change (Z.to_nat 1) with 1%nat.
    change (Z.to_nat 2) with 2%nat. cbn [nth]. lia. }
  assert (Hfuel : total < Z.of_nat (Z.to_nat (MAX_WAVE_LENGTH_SECONDS * WAVE_SAMPLE_RATE))).
  { rewrite Z2Nat.id; [exact Hmax|].
    unfold MAX_WAVE_LENGTH_SECONDS, WAVE_SAMPLE_RATE. lia. }
  revert Hfuel. unfold GenerateWave, rendered. fold w.
  generalize (Z.to_nat (MAX_WAVE_LENGTH_SECONDS * WAVE_SAMPLE_RATE)). intros fuel Hfuel.
  pose proof (render_loop_envelope fuel w 0 (entry p (rand_state st)) [] Hmin Hg Hrun
                ltac:(rewrite Hpasses; exact Hfuel)) as H.
  destruct (render_loop fuel w 0 (entry p (rand_state st)) []) as [[c b] final].
  rewrite Hpasses in H. cbn [length] in H. destruct H as [Hc Hb].
  cbn [fst snd sampleCount data]. rewrite length_take.
  assert (0 <= total) by (unfold total; lia).
  repeat split; lia.
Qed.

(** The first sample of a wave that has one is the sample of the first
    pass of the loop, from the state on entry. *)
Lemma GenerateWave_first_sample (p : WaveParams) (st : Globals) :
  0 < sampleCount (GenerateWave p st).1 ->
  head (data (GenerateWave p st).1)
  = Some (render_sample (working_copy p) (entry p (rand_state st))).2.
Proof.
  unfold GenerateWave, rendered.
  destruct (Z.to_nat (MAX_WAVE_LENGTH_SECONDS * WAVE_SAMPLE_RATE)) as [|fuel].
  - cbn [render_loop fst sampleCount]. lia.
  - cbn [render_loop]. destruct (entry_control p (rand_state st)) as [Hg _].
    rewrite Hg. cbn [negb].
    destruct (render_sample (working_copy p) (entry p (rand_state st))) as [st' x].
    pose proof (render_loop_prefix fuel (working_copy p) (0 + 1) st' ([] ++ [x])) as Hpre.
    destruct (render_loop fuel (working_copy p) (0 + 1) st' ([] ++ [x])) as [[c b] final].
    cbn [fst snd sampleCount data] in *. intros Hc.
    destruct Hpre as [k ->]. cbn [app].
    destruct (Z.to_nat (c * 1)) as [|m] eqn:E; [lia|]. reflexivity.
Qed.

(** The number of samples when the envelope ends the render. *)
Lemma rendered_envelope (p : WaveParams) (g : rng) :
  let w := working_copy p in
  let total := stage_length (attackTimeValue w) + stage_length (sustainTimeValue w)
               + stage_length (decayTimeValue w) + 3 in
  fgt (minFrequencyValue w) fzero = false ->
  0 <= stage_length (attackTimeValue w) ->
  0 <= stage_length (sustainTimeValue w) ->
  0 <= stage_length (decayTimeValue w) ->
  total < MAX_SAMPLES ->
  (rendered p g).1.1 = total.
Proof.
  intros w total Hmin H0 H1 H2 Hmax.
  destruct (entry_control p g) as [Hg He]. fold w in He.
  assert (Hrun : envelope_running (envelope (entry p g))).
  { rewrite He. unfold envelope_running, reset_envelope, stage_len.
    cbn [envelopeStage envelopeLength envelopeTime length].
    change (Z.to_nat 0) with 0%nat. cbn [nth].
    repeat split; try lia. repeat constructor; assumption. }
  assert (Hpasses : envelope_passes (envelope (entry p g)) = total).
  { rewrite He. unfold envelope_passes, reset_envelope, stage_len, total.
    cbn [envelopeStage envelopeLength envelopeTime].
    change (Z.to_nat 0) with 0%nat. change (Z.to_nat 1) with 1%nat.
    change (Z.to_nat 2) with 2%nat. cbn [nth]. lia. }
  assert (Hfuel : total < Z.of_nat (Z.to_nat (MAX_WAVE_LENGTH_SECONDS * WAVE_SAMPLE_RATE))).
  { rewrite Z2Nat.id; [exact Hmax|].
    unfold MAX_WAVE_LENGTH_SECONDS, WAVE_SAMPLE_RATE. lia. }
  revert Hfuel. unfold rendered. fold w.
  generalize (Z.to_nat (MAX_WAVE_LENGTH_SECONDS * WAVE_SAMPLE_RATE)). intros fuel Hfuel.
  pose proof (render_loop_envelope fuel w 0 (entry p g) [] Hmin Hg Hrun
                ltac:(rewrite Hpasses; exact Hfuel)) as H.
  destruct (render_loop fuel w 0 (entry p g) []) as [[c b] final].
  rewrite Hpasses in H. cbn [fst]. lia.
Qed.

Lemma GenerateWave_count (p : WaveParams) (st : Globals) :
  sampleCount (GenerateWave p st).1 = (rendered p (rand_state st)).1.1.
Proof.
  unfold GenerateWave. destruct (rendered p (rand_state st)) as [[c b] final]. reflexivity.
Qed.
End Engine.

(* ===================================================================== *)
(** ** The tables of the synthesis loop *)
(* ===================================================================== *)

Section Tables.

Context {RS : RandomSource} {LM : Libm}.

Lemma advance_tables (p : WaveParams) (st : Synth) :
  phase (advance p st) = phase st
  /\ noiseBuffer (advance p st) = noiseBuffer st
  /\ phaserBuffer (phaser (advance p st)) = phaserBuffer (phaser st).
Proof.
  unfold advance.
  set (s1 := step_repeat p st).
  set (s2 := step_frequency p s1).
  set (s3 := step_duty s2).
  set (s4 := step_envelope p s3).
  set (s5 := step_phaser s4).
  assert (H1 : phase s1 = phase st /\ noiseBuffer s1 = noiseBuffer st /\ phaser s1 = phaser st).
  { unfold s1, step_repeat, repeat_reset. destruct (repeat_fires st); repeat split. }
  assert (H2 : phase s2 = phase s1 /\ noiseBuffer s2 = noiseBuffer s1 /\ phaser s2 = phaser s1).
  { unfold s2, step_frequency.
    cbn [phase noiseBuffer phaser set_tone set_vibrato set_generatingSample]. repeat split. }
  assert (H3 : phase s3 = phase s2 /\ noiseBuffer s3 = noiseBuffer s2 /\ phaser s3 = phaser s2).
  { unfold s3, step_duty. cbn [phase noiseBuffer phaser set_tone]. repeat split. }
  assert (H4 : phase s4 = phase s3 /\ noiseBuffer s4 = noiseBuffer s3 /\ phaser s4 = phaser s3).
  { unfold s4, step_envelope.
    cbn [phase noiseBuffer phaser set_envelope set_generatingSample]. repeat split. }
  assert (H5 : phase s5 = phase s4 /\ noiseBuffer s5 = noiseBuffer s4
               /\ phaserBuffer (phaser s5) = phaserBuffer (phaser s4)).
  { unfold s5, step_phaser. cbn [phase noiseBuffer phaser set_phaser phaserBuffer]. repeat split. }
  assert (H6 : phase (step_hpf s5) = phase s5 /\ noiseBuffer (step_hpf s5) = noiseBuffer s5
               /\ phaser (step_hpf s5) = phaser s5).
  { unfold step_hpf. cbn [phase noiseBuffer phaser set_filter]. repeat split. }
  destruct H1 as (A1 & B1 & C1), H2 as (A2 & B2 & C2), H3 as (A3 & B3 & C3),
    H4 as (A4 & B4 & C4), H5 as (A5 & B5 & C5), H6 as (A6 & B6 & C6).
  repeat split; congruence.
Qed.

(** The oscillator's step: the phase advances by one and wraps below the
    period; the noise table is redrawn whole or kept. *)
Lemma step_phase_tables (p : WaveParams) (st : Synth) :
  0 < period (tone st) -> 0 <= phase st ->
  length (noiseBuffer st) = 32%nat ->
  length (noiseBuffer (step_phase p st)) = 32%nat
  /\ phaser (step_phase p st) = phaser st
  /\ phase (step_phase p st) <= phase st + 1.
Proof.
  intros Hp Hph Hn. unfold step_phase.
  destruct (period (tone st) <=? phase st + 1) eqn:E.
  - pose proof (Z.rem_le (phase st + 1) (period (tone st)) ltac:(lia) Hp) as Hle.
    destruct (waveTypeValue p =? 3).
    + cbn [generator set_phase].
      pose proof (length_noise_table 32 (generator st)) as Hl.
      destruct (noise_table 32 (generator st)) as [noise g]. cbn [fst] in Hl.
      cbn [noiseBuffer set_noise phaser phase set_phase tone].
      split; [exact Hl|]. split; [reflexivity|exact Hle].
    + cbn [noiseBuffer set_phase phaser phase tone].
      split; [exact Hn|]. split; [reflexivity|exact Hle].
  - cbn [noiseBuffer set_phase phaser phase]. split; [exact Hn|]. split; [reflexivity|lia].
Qed.

Lemma supersample_tables (p : WaveParams) (acc : Synth * float) :
  0 < period (tone acc.1) ->
  tables_sized acc.1 ->
  tables_sized (supersample p acc).1
  /\ phase (supersample p acc).1 <= phase acc.1 + 1
  /\ tone (supersample p acc).1 = tone acc.1.
Proof.
  intros Hp (Hph & Hn & Hb).
  destruct (supersample_control p acc) as (Ht & _).
  destruct acc as [st x]. cbn [fst] in *.
  destruct (step_phase_tables p st Hp Hph Hn) as (Hn' & Hphaser & Hle).
  destruct (step_phase_bounds p st Hp Hph) as [[Hpos _] _].
  unfold supersample in *.
  destruct (step_filter p (waveform p (step_phase p st)) (filter (step_phase p st))) as [f y].
  unfold step_delay in *. cbn [fst] in *.
  cbn [phase noiseBuffer phaser phaserBuffer set_phaser set_filter] in *.
  split; [|split; [exact Hle|exact Ht]].
  split; [exact Hpos|]. split; [exact Hn'|].
  change (length (<[Z.to_nat (Z.land (ipp (phaser (step_phase p st))) 1023) := y]>
                    (phaserBuffer (phaser (step_phase p st)))) = 1024%nat).
  rewrite length_insert, Hphaser. exact Hb.
Qed.

Lemma supersampling_tables (p : WaveParams) (k : nat) (acc : Synth * float) :
  0 < period (tone acc.1) ->
  tables_sized acc.1 ->
  let st := (Nat.iter k (supersample p) acc).1 in
  tables_sized st /\ phase st <= phase acc.1 + Z.of_nat k /\ tone st = tone acc.1.
Proof.
  intros Hp Hs. cbv zeta. induction k as [|k IH].
  - cbn [Nat.iter nat_rect]. split; [exact Hs|]. split; [lia|reflexivity].
  - change (Nat.iter (S k) (supersample p) acc)
      with (supersample p (Nat.iter k (supersample p) acc)).
    destruct IH as (Hs' & Hle & Ht).
    destruct (supersample_tables p (Nat.iter k (supersample p) acc)
                ltac:(rewrite Ht; exact Hp) Hs') as (Hs'' & Hle' & Ht').
    split; [exact Hs''|]. split; [lia|congruence].
Qed.

Lemma render_sample_state (p : WaveParams) (st : Synth) :
  (render_sample p st).1 = (Nat.iter MAX_SUPERSAMPLING (supersample p) (advance p st, fzero)).1.
Proof.
  unfold render_sample.
  destruct (Nat.iter MAX_SUPERSAMPLING (supersample p) (advance p st, fzero)). reflexivity.
Qed.

Lemma advance_tables_sized (p : WaveParams) (st : Synth) :
  tables_sized st ->
  tables_sized (advance p st) /\ phase (advance p st) = phase st
  /\ 0 < period (tone (advance p st)).
Proof.
  intros (Hph & Hn & Hb).
  destruct (advance_tables p st) as (E1 & E2 & E3).
  destruct (advance_tone p st) as [_ H8].
  unfold tables_sized. rewrite E1, E2, E3. repeat split; try assumption. lia.
Qed.

Lemma entry_tables (p : WaveParams) (g : rng) :
  tables_sized (entry p g) /\ phase (entry p g) = 0.
Proof.
  unfold entry, reset_sample.
  pose proof (length_noise_table 32
                (if negb (randSeed p =? 0) then srand (randSeed p) else g)) as Hl.
  destruct (noise_table 32 (if negb (randSeed p =? 0) then srand (randSeed p) else g))
    as [noise g'].
  cbn [fst] in Hl. unfold tables_sized.
  cbn [phase noiseBuffer phaser phaserBuffer reset_phaser].
  split; [|reflexivity]. split; [lia|]. split; [exact Hl|]. apply length_replicate.
Qed.

Lemma loop_state_tables (p : WaveParams) (g : rng) (n : nat) :
  tables_sized (loop_state p g n) /\ phase (loop_state p g n) <= 8 * Z.of_nat n.
Proof.
  induction n as [|n [Hs Hle]].
  - destruct (entry_tables p g) as [Hs H0].
    change (loop_state p g 0) with (entry p g). split; [exact Hs|lia].
  - rewrite loop_state_S, render_sample_state.
    destruct (advance_tables_sized (working_copy p) (loop_state p g n) Hs) as (Ha & Hph & Hp).
    destruct (supersampling_tables (working_copy p) MAX_SUPERSAMPLING
                (advance (working_copy p) (loop_state p g n), fzero) Hp Ha) as (Hs' & Hle' & _).
    cbn [fst] in Hle'. split; [exact Hs'|].
    change (Z.of_nat MAX_SUPERSAMPLING) with 8 in Hle'. lia.
Qed.

(** Every access to the noise table and to the phaser's delay line made
    while the loop of [GenerateWave] runs is inside the table.  In pass
    [n + 1] of the loop body and pass [k + 1] of its supersampling loop,
    after the oscillator has advanced: the phase is below the period, the
    product [phase*32] fits an [int], the index [phase*32/period] is below
    the 32 entries of [noiseBuffer], and the two indices into
    [phaserBuffer], masked with 1023, are below its 1024 entries. *)
Lemma tables_in_bounds (p : WaveParams) (g : rng) (n k : nat) :
  Z.of_nat n < MAX_SAMPLES -> (k < MAX_SUPERSAMPLING)%nat ->
  let w := working_copy p in
  let st := step_phase w (Nat.iter k (supersample w) (advance w (loop_state p g n), fzero)).1 in
  0 <= phase st < period (tone st)
  /\ phase st * 32 <= INT_MAX
  /\ 0 <= Z.quot (phase st * 32) (period (tone st)) < Z.of_nat (length (noiseBuffer st))
  /\ 0 <= Z.land (ipp (phaser st)) 1023 < Z.of_nat (length (phaserBuffer (phaser st)))
  /\ 0 <= Z.land (ipp (phaser st) - iphase (phaser st) + 1024) 1023
     < Z.of_nat (length (phaserBuffer (phaser st))).
Proof.
  intros Hn Hk w st.
  destruct (loop_state_tables p g n) as [Hs Hle].
  destruct (advance_tables_sized w (loop_state p g n) Hs) as (Ha & Hph & Hp).
  destruct (supersampling_tables w k (advance w (loop_state p g n), fzero) Hp Ha)
    as ((Hpos & Hnoise & Hbuf) & Hle' & Ht).
  cbn [fst] in Hle', Ht.
  set (before := (Nat.iter k (supersample w) (advance w (loop_state p g n), fzero)).1) in *.
  assert (Hp' : 0 < period (tone before)) by (rewrite Ht; exact Hp).
  destruct (step_phase_tables w before Hp' Hpos Hnoise) as (Hnoise' & Hphaser & Hstep).
  destruct (step_phase_bounds w before Hp' Hpos) as [Hphase Hidx]. fold st in Hphase, Hidx.
  fold st in Hnoise', Hphaser, Hstep.
  rewrite Hnoise', Hphaser, Hbuf.
  assert (Hmask : forall z, 0 <= Z.land z 1023 < Z.of_nat 1024).
  { intros z. change 1023 with (Z.ones 10). rewrite Z.land_ones by lia.
    pose proof (Z.mod_pos_bound z (2 ^ 10) ltac:(lia)). lia. }
  split; [exact Hphase|].
  split.
  { unfold MAX_SAMPLES, MAX_WAVE_LENGTH_SECONDS, WAVE_SAMPLE_RATE, MAX_SUPERSAMPLING in *.
    rewrite Hph in Hle'. unfold INT_MAX. clear -Hn Hk Hle Hle' Hstep. lia. }
  split; [exact Hidx|].
  split; apply Hmask.
Qed.

End Tables.

(* ===================================================================== *)
(** ** Defaults, presets and the randomizer *)
(* ===================================================================== *)

Section Generators.

Context {RS : RandomSource} {LM : Libm}.

(** *** Members a command does not assign *)

Lemma keeps_ret {V A} (f : WaveParams -> V) (a : A) : keeps f (ret a).
Proof. intros st. reflexivity. Qed.

Lemma keeps_bind {V A B} (f : WaveParams -> V) (c : Cmd A) (k : A -> Cmd B) :
  keeps f c -> (forall a, keeps f (k a)) -> keeps f (bind c k).
Proof.
  intros Hc Hk st. unfold bind. specialize (Hc st).
  destruct (c st) as [a st']. cbn [snd] in Hc. rewrite (Hk a st'). exact Hc.
Qed.

Lemma keeps_get {V A} (f : WaveParams -> V) (h : Globals -> A) : keeps f (get h).
Proof. intros st. reflexivity. Qed.

Lemma keeps_member {V A} (f : WaveParams -> V) (h : WaveParams -> A) : keeps f (member h).
Proof. intros st. reflexivity. Qed.

Lemma keeps_rand_int {V} (f : WaveParams -> V) (lo hi : Z) : keeps f (rand_int lo hi).
Proof. intros st. unfold rand_int. destruct (GetRandomValue lo hi (rand_state st)). reflexivity. Qed.

Lemma keeps_frnd {V} (f : WaveParams -> V) (range : float) : keeps f (frnd range).
Proof. intros st. unfold frnd. destruct (frnd_value range (rand_state st)). reflexivity. Qed.

Lemma keeps_seed_rng {V} (f : WaveParams -> V) (seed : Z) : keeps f (seed_rng seed).
Proof. intros st. reflexivity. Qed.

Lemma keeps_regenerate {V} (f : WaveParams -> V) (b : bool) :
  keeps f (modify (set_regenerate b)).
Proof. intros st. reflexivity. Qed.

Lemma keeps_when {V} (f : WaveParams -> V) (b : bool) (c : Cmd unit) :
  keeps f c -> keeps f (when b c).
Proof. intros Hc. destruct b; [exact Hc|apply keeps_ret]. Qed.

Lemma keeps_rnd_pow {V} (f : WaveParams -> V) (k : float) : keeps f (rnd_pow k).
Proof. apply keeps_bind; [apply keeps_frnd|intros a; apply keeps_ret]. Qed.

Lemma keeps_rnd_signed {V} (f : WaveParams -> V) : keeps f rnd_signed.
Proof. apply keeps_bind; [apply keeps_frnd|intros a; apply keeps_ret]. Qed.

(** Walks a command: draws, reads and conditionals keep every member, an
    assignment keeps every member but its own. *)
Ltac keeps_members :=
  repeat first
    [ simple apply @keeps_when | simple apply @keeps_rnd_pow | simple apply @keeps_rnd_signed
    | simple apply @keeps_frnd | simple apply @keeps_rand_int | simple apply @keeps_member
    | simple apply @keeps_get | simple apply @keeps_regenerate | simple apply @keeps_seed_rng
    | simple apply @keeps_ret
    | (simple apply @keeps_bind; [|intros ?])
    | match goal with |- keeps _ (if ?b then _ else _) => destruct b end
    | (intros ?; reflexivity) ].

Ltac keeps_block :=
  try unfold draw_frequency; try unfold correct_slide; try unfold draw_envelope;
  try unfold correct_envelope; try unfold draw_lowpass; try unfold correct_lowpass;
  try unfold draw_effects; keeps_members.

Lemma exec_seq {B} (c : Cmd unit) (k : Cmd B) (st : Globals) :
  exec (bind c (fun _ => k)) st = exec k (exec c st).
Proof. unfold exec, bind. destruct (c st) as [[] st']. reflexivity. Qed.

(** *** ResetWaveParams *)

(** C8 (defaults).  [ResetWaveParams] draws a seed between 1 and 0xFFFE,
    stores it, seeds the shared generator with it, and sets every other
    member to its default: square wave (type 0), attack 0, sustain 0.3,
    punch 0, decay 0.4, start frequency 0.3, low-pass cutoff 1.0 and all
    the rest 0.  The other globals are untouched. *)
Theorem ResetWaveParams_defaults (st : Globals) :
  let seed := (GetRandomValue 1 65534 (rand_state st)).1 in
  let st' := exec ResetWaveParams st in
  1 <= seed <= 65534
  /\ params st' = default_params seed
  /\ rand_state st' = srand seed
  /\ volumeValue st' = volumeValue st /\ regenerate st' = regenerate st
  /\ files st' = files st /\ console st' = console st.
Proof.
  cbv zeta. split; [apply GetRandomValue_range; lia|].
  unfold exec, ResetWaveParams, bind, rand_int.
  destruct (GetRandomValue 1 65534 (rand_state st)) as [seed g]. repeat split.
Qed.

(** *** The seed of a preset *)

Lemma after_reset (rest : Cmd unit) (st : Globals) :
  keeps randSeed rest ->
  randSeed (params (exec (bind ResetWaveParams (fun _ => rest)) st))
  = randSeed (params (exec ResetWaveParams st)).
Proof. intros H. rewrite exec_seq. apply H. Qed.

Lemma ResetWaveParams_seed (st : Globals) :
  randSeed (params (exec ResetWaveParams st)) = (GetRandomValue 1 65534 (rand_state st)).1.
Proof.
  unfold exec, ResetWaveParams, bind, rand_int.
  destruct (GetRandomValue 1 65534 (rand_state st)) as [seed g]. reflexivity.
Qed.

(** A preset keeps the seed that [ResetWaveParams] drew. *)
Lemma preset_seed (c : Cmd unit) (st : Globals) :
  In c presets ->
  randSeed (params (exec c st)) = (GetRandomValue 1 65534 (rand_state st)).1.
Proof.
  intros Hin. rewrite <- ResetWaveParams_seed.
  cbn [presets In] in Hin.
  repeat (destruct Hin as [<-|Hin]); [..|contradiction];
    apply after_reset; keeps_members.
Qed.

(** *** The randomizer *)

Lemma GenRandomize_seed (st : Globals) :
  randSeed (params (exec GenRandomize st)) = (GetRandomValue 0 65534 (rand_state st)).1.
Proof.
  unfold GenRandomize. rewrite !exec_seq.
  assert (K : forall c : Cmd unit, keeps randSeed c ->
              forall s, randSeed (params (exec c s)) = randSeed (params s))
    by (intros c Hc s; apply Hc).
  rewrite (K (modify (set_regenerate true))) by keeps_members.
  rewrite (K draw_effects) by (unfold draw_effects; keeps_members).
  rewrite (K correct_lowpass) by (unfold correct_lowpass; keeps_members).
  rewrite (K draw_lowpass) by (unfold draw_lowpass; keeps_members).
  rewrite (K correct_envelope) by (unfold correct_envelope; keeps_members).
  rewrite (K draw_envelope) by (unfold draw_envelope; keeps_members).
  rewrite (K correct_slide) by (unfold correct_slide; keeps_members).
  unfold draw_frequency.
  change (exec (bind (rand_int 0 65534) ?k) st) with ((bind (rand_int 0 65534) k st).2).
  unfold bind at 1, rand_int at 1.
  destruct (GetRandomValue 0 65534 (rand_state st)) as [seed g]. cbn [fst].
  set (st0 := set_rand_state g st).
  match goal with
  | |- randSeed (params (bind (assign set_randSeed seed) (fun _ => ?rest) st0).2) = _ =>
      change (randSeed (params (exec rest (exec (assign set_randSeed seed) st0))) = seed);
      rewrite (K rest) by keeps_members
  end.
  reflexivity.
Qed.

Lemma set_params_same (st : Globals) : set_params (params st) st = st.
Proof. destruct st; reflexivity. Qed.

Lemma correct_slide_rules (st : Globals) :
  exec correct_slide st = set_params (slide_rule_low (slide_rule_high (params st))) st.
Proof.
  unfold exec, correct_slide, bind, member, get, when, assign, modify, ret,
    slide_rule_low, slide_rule_high.
  cbn [fst snd].
  destruct (fgt (startFrequencyValue (params st)) (f32 7 10)
            && fgt (slideValue (params st)) (f32 2 10));
    cbn [fst snd params set_params startFrequencyValue slideValue set_slideValue];
    match goal with |- context [if ?c then _ else _] => destruct c end;
    cbn [fst snd params set_params]; try reflexivity;
    symmetry; apply set_params_same.
Qed.

Lemma correct_lowpass_rule (st : Globals) :
  exec correct_lowpass st = set_params (lowpass_rule (params st)) st.
Proof.
  unfold exec, correct_lowpass, bind, member, get, when, assign, modify, ret, lowpass_rule.
  cbn [fst snd].
  match goal with |- context [if ?c then _ else _] => destruct c end;
    cbn [fst snd]; try reflexivity. symmetry; apply set_params_same.
Qed.

Lemma correct_envelope_rule (st : Globals) :
  let r1 := frnd_value (f32 3 10) (rand_state st) in
  let r2 := frnd_value (f32 3 10) r1.2 in
  let p := params st in
  exec correct_envelope st
  = if flt (fadd (fadd (attackTimeValue p) (sustainTimeValue p)) (decayTimeValue p)) (f32 2 10)
    then set_rand_state r2.2 (set_params (envelope_rule r1.1 r2.1 p) st)
    else st.
Proof.
  cbv zeta.
  unfold exec, correct_envelope, bind, member, get, when, assign, modify, ret, envelope_rule, frnd.
  cbn [fst snd].
  destruct (flt (fadd (fadd (attackTimeValue (params st)) (sustainTimeValue (params st)))
                   (decayTimeValue (params st))) (f32 2 10)); [|reflexivity].
  destruct (frnd_value (f32 3 10) (rand_state st)) as [r1 g1].
  cbn [fst snd rand_state set_rand_state set_params].
  destruct (frnd_value (f32 3 10) g1) as [r2 g2]. reflexivity.
Qed.

(** C9 (corrective rules of the randomizer).  [GenRandomize] is four
    blocks of draws with one correction after each of the first three, and
    the corrections are these: after the frequency draws, [slide] is negated
    if [startFrequency > 0.7] and [slide > 0.2], and then negated if
    [startFrequency < 0.2] and [slide < -0.05]; after the envelope draws, if
    [attack + sustain + decay < 0.2] then [0.2 + frnd(0.3)] is added to
    [sustain] and, with a second draw, to [decay]; after the low-pass draws,
    [lpfCutoffSweep] is negated if [lpfCutoff < 0.1] and
    [lpfCutoffSweep < -0.05].  Nothing later in the function assigns a
    corrected member again. *)
Theorem GenRandomize_corrections (st : Globals) :
  let st1 := exec draw_frequency st in
  let st2 := exec correct_slide st1 in
  let st3 := exec draw_envelope st2 in
  let st4 := exec correct_envelope st3 in
  let st5 := exec draw_lowpass st4 in
  let st6 := exec correct_lowpass st5 in
  let st7 := exec draw_effects st6 in
  let final := exec GenRandomize st in
  let r1 := frnd_value (f32 3 10) (rand_state st3) in
  let r2 := frnd_value (f32 3 10) r1.2 in
  final = set_regenerate true st7
  /\ params st2 = slide_rule_low (slide_rule_high (params st1))
  /\ params st4 = envelope_rule r1.1 r2.1 (params st3)
  /\ params st6 = lowpass_rule (params st5)
  /\ startFrequencyValue (params final) = startFrequencyValue (params st2)
  /\ slideValue (params final) = slideValue (params st2)
  /\ attackTimeValue (params final) = attackTimeValue (params st4)
  /\ sustainTimeValue (params final) = sustainTimeValue (params st4)
  /\ decayTimeValue (params final) = decayTimeValue (params st4)
  /\ lpfCutoffValue (params final) = lpfCutoffValue (params st6)
  /\ lpfCutoffSweepValue (params final) = lpfCutoffSweepValue (params st6).
Proof.
  cbv zeta.
  assert (K : forall (V : Type) (f : WaveParams -> V) (c : Cmd unit), keeps f c ->
              forall s, f (params (exec c s)) = f (params s))
    by (intros V f c Hc s; apply Hc).
  assert (Hfinal : exec GenRandomize st
                   = set_regenerate true
                       (exec draw_effects (exec correct_lowpass (exec draw_lowpass
                          (exec correct_envelope (exec draw_envelope
                             (exec correct_slide (exec draw_frequency st)))))))).
  { unfold GenRandomize. rewrite !exec_seq. reflexivity. }
  rewrite Hfinal. clear Hfinal.
  set (st1 := exec draw_frequency st). set (st2 := exec correct_slide st1).
  set (st3 := exec draw_envelope st2). set (st4 := exec correct_envelope st3).
  set (st5 := exec draw_lowpass st4). set (st6 := exec correct_lowpass st5).
  set (st7 := exec draw_effects st6).
  cbn [params set_regenerate].
  split; [reflexivity|].
  split; [unfold st2; rewrite correct_slide_rules; reflexivity|].
  split.
  { unfold st4. rewrite correct_envelope_rule. unfold envelope_rule.
    destruct (flt _ (f32 2 10)); reflexivity. }
  split; [unfold st6; rewrite correct_lowpass_rule; reflexivity|].
  assert (E7 : forall (V : Type) (f : WaveParams -> V), keeps f draw_effects ->
               f (params st7) = f (params st6)) by (intros V f H; apply (K V f _ H)).
  assert (E6 : forall (V : Type) (f : WaveParams -> V), keeps f correct_lowpass ->
               f (params st6) = f (params st5)) by (intros V f H; apply (K V f _ H)).
  assert (E5 : forall (V : Type) (f : WaveParams -> V), keeps f draw_lowpass ->
               f (params st5) = f (params st4)) by (intros V f H; apply (K V f _ H)).
  assert (E4 : forall (V : Type) (f : WaveParams -> V), keeps f correct_envelope ->
               f (params st4) = f (params st3)) by (intros V f H; apply (K V f _ H)).
  assert (E3 : forall (V : Type) (f : WaveParams -> V), keeps f draw_envelope ->
               f (params st3) = f (params st2)) by (intros V f H; apply (K V f _ H)).
  assert (B : forall (V : Type) (f : WaveParams -> V),
              keeps f draw_envelope -> keeps f correct_envelope -> keeps f draw_lowpass ->
              keeps f correct_lowpass -> keeps f draw_effects ->
              f (params st7) = f (params st2)).
  { intros V f H3 H4 H5 H6 H7.
    rewrite (E7 V f H7), (E6 V f H6), (E5 V f H5), (E4 V f H4), (E3 V f H3). reflexivity. }
  assert (C : forall (V : Type) (f : WaveParams -> V),
              keeps f draw_lowpass -> keeps f correct_lowpass -> keeps f draw_effects ->
              f (params st7) = f (params st4)).
  { intros V f H5 H6 H7. rewrite (E7 V f H7), (E6 V f H6), (E5 V f H5). reflexivity. }
  split; [apply B; keeps_block|].
  split; [apply B; keeps_block|].
  split; [apply C; keeps_block|].
  split; [apply C; keeps_block|].
  split; [apply C; keeps_block|].
  split; apply E7; keeps_block.
Qed.

Lemma GenRandomize_waveType (st : Globals) :
  waveTypeValue (params (exec GenRandomize st)) = waveTypeValue (params st).
Proof.
  assert (K : keeps waveTypeValue GenRandomize) by (unfold GenRandomize; keeps_block).
  apply K.
Qed.

End Generators.

(** C10 (seed zero).  [GenRandomize] stores as seed what
    [GetRandomValue(0, 0xFFFE)] returns, a number from 0 on, and keeps the
    wave type; when the draw is 0 the stored seed is the "do not reseed"
    value, and a render of the stored record starts from the generator as
    it finds it.  [ResetWaveParams] and the seven presets store a seed
    between 1 and 0xFFFE, never 0, and a render with such a seed starts
    from the same state whatever the generator holds.  With the reference
    generator and the noise wave selected, there is a state in which
    [GenRandomize] stores seed 0: the wave that the program renders next
    from the stored record is not the wave it renders from the same record
    when the generator is in another state. *)
Theorem GenRandomize_may_store_seed_zero :
  (forall (RS : RandomSource) (LM : Libm) (st : Globals),
     let drawn := (GetRandomValue 0 65534 (rand_state st)).1 in
     let randomized := params (exec GenRandomize st) in
     randSeed randomized = drawn
     /\ 0 <= drawn <= 65534
     /\ waveTypeValue randomized = waveTypeValue (params st)
     /\ (drawn = 0 ->
         forall g, entry randomized g = reset_sample (working_copy randomized) g)
     /\ 1 <= randSeed (params (exec ResetWaveParams st)) <= 65534
     /\ (forall c, In c presets -> 1 <= randSeed (params (exec c st)) <= 65534)
     /\ (forall p g1 g2, randSeed p <> 0 -> entry p g1 = entry p g2))
  /\ (exists st : @Globals Reference.lcg,
        let after := exec (@GenRandomize Reference.lcg Reference.libm) st in
        let randomized := params after in
        randSeed randomized = 0
        /\ waveTypeValue randomized = 3
        /\ exists g : @rng Reference.lcg,
             data (@GenerateWave Reference.lcg Reference.libm randomized after).1
             <> data (@GenerateWave Reference.lcg Reference.libm randomized
                        (set_rand_state g after)).1).
Proof.
  split.
  - intros RS LM st. cbv zeta. pose proof (GenRandomize_seed st) as Hs.
    split; [exact Hs|].
    split; [apply GetRandomValue_range; lia|].
    split; [apply GenRandomize_waveType|].
    split; [intros H0 g; apply entry_unseeded; rewrite Hs; exact H0|].
    pose proof (GetRandomValue_range 1 65534 (rand_state st) ltac:(lia)) as Hr.
    split; [rewrite ResetWaveParams_seed; exact Hr|].
    split; [intros c Hc; rewrite (preset_seed c st Hc); exact Hr|].
    intros p g1 g2. apply entry_seeded.
  - exists noise_selected. cbv zeta.
    set (after := exec (@GenRandomize Reference.lcg Reference.libm) noise_selected).
    set (randomized := params after).
    assert (Hseed : randSeed randomized = 0).
    { unfold randomized, after. rewrite (@GenRandomize_seed Reference.lcg Reference.libm).
      vm_compute. reflexivity. }
    split; [exact Hseed|].
    split.
    { unfold randomized, after.
      rewrite (@GenRandomize_waveType Reference.lcg Reference.libm). reflexivity. }
    exists (1 : @rng Reference.lcg).
    assert (Hcount : forall st : @Globals Reference.lcg,
               0 < sampleCount (@GenerateWave Reference.lcg Reference.libm randomized st).1).
    { intros st. rewrite (@GenerateWave_count Reference.lcg Reference.libm).
      rewrite (@rendered_envelope Reference.lcg Reference.libm randomized (rand_state st));
        vm_compute; first [reflexivity | discriminate]. }
    intros H. apply (f_equal head) in H.
    rewrite !(@GenerateWave_first_sample Reference.lcg Reference.libm) in H by apply Hcount.
    cbn [rand_state set_rand_state] in H.
    vm_compute in H. discriminate H.
Qed.

(* ===================================================================== *)
(** ** Random draws, mutation and the presets *)
(* ===================================================================== *)

(** Decides a property of all draws by evaluation, with the literals of
    the property evaluated first. *)
Ltac enumerate :=
  cbv delta [unit_range signed_range];
  repeat match goal with
         | |- context [f32 ?n ?d] =>
             let v := eval vm_compute in (f32 n d) in change (f32 n d) with v
         end;
  vm_cast_no_check (eq_refl true).

Section Draws.

Context {RS : RandomSource} {LM : Libm}.

Lemma In_upto (n : nat) (z v : Z) : z <= v < z + Z.of_nat n -> In v (upto n z).
Proof.
  revert z. induction n as [|n IH]; intros z Hv; [lia|].
  cbn [upto In]. destruct (Z.eq_dec z v) as [E|E]; [left; exact E|].
  right. apply IH. lia.
Qed.

Lemma unit_draws_spec : unit_draws = map unit_draw (upto (Z.to_nat 10001) 0).
Proof.
  unfold unit_draw.
  let d := eval vm_compute in (f32 10000 1) in change (f32 10000 1) with d.
  vm_cast_no_check (eq_refl unit_draws).
Qed.

Lemma all_draws_spec (P : float -> bool) :
  all_draws P = true -> forall v, 0 <= v <= 10000 -> P (unit_draw v) = true.
Proof.
  unfold all_draws. rewrite unit_draws_spec, forallb_forall. intros H v Hv. apply H.
  apply in_map. apply In_upto. lia.
Qed.

Lemma frnd_value_draw (range : float) (g : rng) :
  (frnd_value range g).1 = draw range (GetRandomValue 0 10000 g).1.
Proof. unfold frnd_value. destruct (GetRandomValue 0 10000 g). reflexivity. Qed.

Lemma drawn (range : float) (g : rng) (P : float -> bool) :
  all_draws (fun u => P (fmul u range)) = true -> P (frnd_value range g).1 = true.
Proof.
  intros H. rewrite frnd_value_draw.
  apply (all_draws_spec _ H). apply GetRandomValue_range. lia.
Qed.

Lemma drawn_all (range : float) (g : rng) (P : float -> bool) :
  all_frnd range P = true -> P (frnd_value range g).1 = true.
Proof. apply drawn. Qed.

(** A property of one draw of [frnd], by enumeration. *)
Ltac by_draws :=
  cbv zeta;
  match goal with
  | |- context [(frnd_value ?range ?g).1] =>
      pattern ((frnd_value range g).1);
      match goal with
      | |- (fun r => @?P r = true) _ => refine (drawn_all range g P _); enumerate
      end
  end.

(** The draws of the presets: [frnd(range)] lies between 0 and its range,
    and each expression that a preset makes of it lies on the slider of the
    member it is assigned to ([GenExplosion] squares two of them). *)
Lemma frnd_10 (g : rng) :
  let r := (frnd_value (f32 1 10) g).1 in
  in_range fzero (f32 1 10) r
  && unit_range r
  && unit_range (fadd (f32 1 10) r) = true.
Proof. by_draws. Qed.

Lemma frnd_20 (g : rng) :
  let r := (frnd_value (f32 2 10) g).1 in
  in_range fzero (f32 2 10) r
  && unit_range r
  && signed_range (fneg r)
  && unit_range (fadd (f32 5 10) r)
  && unit_range (fadd (f32 1 10) r)
  && unit_range (fadd (f32 5 100) r)
  && signed_range (fsub (fneg (f32 15 100)) r)
  && signed_range (fsub (fneg (f32 2 10)) r) = true.
Proof. by_draws. Qed.

Lemma frnd_30 (g : rng) :
  let r := (frnd_value (f32 3 10) g).1 in
  in_range fzero (f32 3 10) r
  && unit_range r
  && signed_range (fneg r)
  && unit_range (fadd (f32 3 10) r)
  && unit_range (fadd (f32 1 10) r)
  && unit_range (fadd (f32 6 10) r)
  && unit_range (fadd (f32 2 10) r)
  && signed_range (fsub (fneg (f32 35 100)) r) = true.
Proof. by_draws. Qed.

Lemma frnd_40 (g : rng) :
  let r := (frnd_value (f32 4 10) g).1 in
  in_range fzero (f32 4 10) r
  && unit_range r
  && unit_range (fadd (f32 1 10) r)
  && unit_range (fadd (f32 2 10) r)
  && unit_range (fadd (f32 4 10) r)
  && signed_range (fadd (fneg (f32 1 10)) r)
  && signed_range (fsub (fneg (f32 3 10)) r)
  && unit_range (fmul (fadd (f32 1 10) r) (fadd (f32 1 10) r)) = true.
Proof. by_draws. Qed.

Lemma frnd_50 (g : rng) :
  let r := (frnd_value (f32 5 10) g).1 in
  in_range fzero (f32 5 10) r
  && unit_range r
  && unit_range (fadd (f32 4 10) r)
  && unit_range (fadd (f32 5 10) r)
  && unit_range (fadd (f32 3 10) r) = true.
Proof. by_draws. Qed.

Lemma frnd_60 (g : rng) :
  let r := (frnd_value (f32 6 10) g).1 in
  in_range fzero (f32 6 10) r
  && unit_range r
  && unit_range (fadd (f32 3 10) r)
  && unit_range (fadd (f32 2 10) r)
  && unit_range (fsub (f32 1 1) r) = true.
Proof. by_draws. Qed.

Lemma frnd_70 (g : rng) :
  let r := (frnd_value (f32 7 10) g).1 in
  in_range fzero (f32 7 10) r
  && unit_range r
  && signed_range (fneg r)
  && unit_range (fadd (f32 2 10) r)
  && unit_range (fmul (fadd (f32 2 10) r) (fadd (f32 2 10) r)) = true.
Proof. by_draws. Qed.

Lemma frnd_90 (g : rng) :
  let r := (frnd_value (f32 9 10) g).1 in
  in_range fzero (f32 9 10) r
  && signed_range (fadd (fneg (f32 3 10)) r) = true.
Proof. by_draws. Qed.

Lemma frnd_160 (g : rng) :
  let r := (frnd_value (f32 16 10) g).1 in
  in_range fzero (f32 16 10) r
  && signed_range (fsub (f32 8 10) r) = true.
Proof. by_draws. Qed.

(** The first of the facts on a draw. *)
Ltac first_fact facts :=
  let H := fresh "H" in
  pose proof facts as H; cbv zeta in H;
  repeat match type of H with
         | (_ && _) = true => apply andb_prop in H; destruct H as [H _]
         end;
  exact H.

(** For each range that the program passes to it, [frnd(range)] lies
    between 0 and the range, whatever the generator returns. *)
Lemma frnd_in_range (range : float) (g : rng) :
  In range frnd_ranges -> in_range fzero range (frnd_value range g).1 = true.
Proof.
  intros Hin. cbn [frnd_ranges In] in Hin.
  destruct Hin as [<-|Hin]; [first_fact (frnd_10 g)|].
  destruct Hin as [<-|Hin]; [first_fact (frnd_20 g)|].
  destruct Hin as [<-|Hin]; [first_fact (frnd_30 g)|].
  destruct Hin as [<-|Hin]; [first_fact (frnd_40 g)|].
  destruct Hin as [<-|Hin]; [first_fact (frnd_50 g)|].
  destruct Hin as [<-|Hin]; [first_fact (frnd_60 g)|].
  destruct Hin as [<-|Hin]; [first_fact (frnd_70 g)|].
  destruct Hin as [<-|Hin]; [apply (drawn _ g (in_range fzero _)); enumerate|].
  destruct Hin as [<-|Hin]; [first_fact (frnd_90 g)|].
  destruct Hin as [<-|Hin]; [apply (drawn _ g (in_range fzero _)); enumerate|].
  destruct Hin as [<-|Hin]; [first_fact (frnd_160 g)|].
  destruct Hin as [<-|Hin]; [apply (drawn _ g (in_range fzero _)); enumerate|].
  contradiction.
Qed.

(** Every entry of the noise table lies between -1 and 1. *)
Lemma noise_table_range (n : nat) (g : rng) :
  Forall (fun x => in_range (fneg (f32 1 1)) (f32 1 1) x = true) (noise_table n g).1.
Proof.
  assert (D : forall g, in_range (fneg (f32 1 1)) (f32 1 1) (noise_draw g).1 = true).
  { intros g0. unfold noise_draw.
    pose proof (GetRandomValue_range 0 10000 g0 ltac:(lia)) as Hv.
    destruct (GetRandomValue 0 10000 g0) as [v g1]. cbn [fst] in *.
    apply (all_draws_spec
             (fun u => in_range (fneg (f32 1 1)) (f32 1 1)
                         (fsub (fmul u (f32 2 1)) (f32 1 1)))); [enumerate|exact Hv]. }
  revert g. induction n as [|n IH]; intros g; cbn [noise_table]; [constructor|].
  specialize (D g). destruct (noise_draw g) as [x g1]. specialize (IH g1).
  destruct (noise_table n g1) as [l g2]. cbn [fst] in *. constructor; assumption.
Qed.

End Draws.

Section Mutation.

Context {RS : RandomSource} {LM : Libm}.

Lemma keeps_exec {V} (f : WaveParams -> V) (c : Cmd unit) (st : Globals) :
  keeps f c -> f (params (exec c st)) = f (params st).
Proof. intros H. apply H. Qed.

Lemma keeps_mutate {V} (f : WaveParams -> V) (value : WaveParams -> float)
    (set : float -> WaveParams -> WaveParams) :
  (forall v p, f (set v p) = f p) -> keeps f (mutate value set).
Proof.
  intros Hset. unfold mutate.
  apply keeps_bind; [apply keeps_rand_int|]. intros c. apply keeps_when.
  apply keeps_bind; [apply keeps_frnd|]. intros r.
  apply keeps_bind; [apply keeps_member|]. intros x.
  intros st. cbn [assign modify snd params set_params]. apply Hset.
Qed.

(** One statement of [GenMutate] on its own member. *)
Lemma mutate_nudged (value : WaveParams -> float)
    (set : float -> WaveParams -> WaveParams) (st : Globals) :
  (forall v p, value (set v p) = v) ->
  nudged (value (params st)) (value (params (exec (mutate value set) st))).
Proof.
  intros Hset. unfold exec, mutate, bind, rand_int.
  destruct (GetRandomValue 0 1 (rand_state st)) as [c g].
  destruct (negb (c =? 0)); cbn [when]; [|left; reflexivity].
  unfold frnd. cbn [rand_state set_rand_state].
  pose proof (drawn (f32 1 10) g
                (fun r => in_range (fneg (f32 5 100)) (f32 5 100) (fsub r (f32 5 100)))
                ltac:(enumerate)) as Hstep.
  destruct (frnd_value (f32 1 10) g) as [r g']. cbn [fst] in Hstep.
  cbn [member get assign modify fst snd params set_params set_rand_state].
  rewrite Hset. right. eexists. split; [exact Hstep|reflexivity].
Qed.

(** Strips from [f (params (exec c s))] the statements that keep [f]. *)
Ltac kept :=
  repeat match goal with
         | |- context [?f (params (exec ?c ?s))] =>
             rewrite (keeps_exec f c s)
               by first [ simple apply @keeps_regenerate
                        | apply keeps_mutate; intros ? ?; reflexivity ]
         end.

(** [GenMutate] moves each member it names by at most 0.05 either way, or
    leaves it: the new value is the old one or the old one plus a step
    between -0.05 and 0.05 (added in [float], without any clamp). *)
Lemma GenMutate_nudges (st : Globals) :
  Forall (fun value => nudged (value (params st)) (value (params (exec GenMutate st))))
    mutated_members.
Proof.
  unfold GenMutate. rewrite !exec_seq. unfold mutated_members.
  repeat (apply Forall_cons; split;
          [kept;
           match goal with
           | |- nudged _ (?f (params (exec (mutate ?f ?set) ?s))) =>
               replace (f (params st)) with (f (params s)) by (kept; reflexivity);
               apply mutate_nudged; intros ? ?; reflexivity
           end|]).
  apply Forall_nil. exact I.
Qed.

(** [GenMutate] never changes the seed, the wave type or the minimum
    frequency, and it always asks for the wave to be regenerated. *)
Lemma GenMutate_untouched (st : Globals) :
  let st' := exec GenMutate st in
  randSeed (params st') = randSeed (params st)
  /\ waveTypeValue (params st') = waveTypeValue (params st)
  /\ minFrequencyValue (params st') = minFrequencyValue (params st)
  /\ regenerate st' = true.
Proof.
  cbv zeta. unfold GenMutate. rewrite !exec_seq.
  split; [kept; reflexivity|]. split; [kept; reflexivity|]. split; [kept; reflexivity|].
  reflexivity.
Qed.

End Mutation.

Section Presets.

Context {RS : RandomSource} {LM : Libm}.

(** *** A preset is a function of its seed *)

Lemma local_ret {A} (a : A) : sound_local (ret a).
Proof. intros s1 s2 Hp Hg. repeat split; assumption. Qed.

Lemma local_bind {A B} (c : Cmd A) (k : A -> Cmd B) :
  sound_local c -> (forall a, sound_local (k a)) -> sound_local (bind c k).
Proof.
  intros Hc Hk s1 s2 Hp Hg. unfold bind. specialize (Hc s1 s2 Hp Hg).
  destruct (c s1) as [a1 t1], (c s2) as [a2 t2]. cbn [fst snd] in Hc.
  destruct Hc as (-> & Hp' & Hg'). apply Hk; assumption.
Qed.

Lemma local_member {V} (f : WaveParams -> V) : sound_local (member f).
Proof. intros s1 s2 Hp Hg. cbn. rewrite Hp. repeat split; assumption. Qed.

Lemma local_rand_int (lo hi : Z) : sound_local (rand_int lo hi).
Proof.
  intros s1 s2 Hp Hg. unfold rand_int. rewrite Hg.
  destruct (GetRandomValue lo hi (rand_state s2)). repeat split. exact Hp.
Qed.

Lemma local_frnd (range : float) : sound_local (frnd range).
Proof.
  intros s1 s2 Hp Hg. unfold frnd. rewrite Hg.
  destruct (frnd_value range (rand_state s2)). repeat split. exact Hp.
Qed.

Lemma local_assign {V} (set : V -> WaveParams -> WaveParams) (v : V) :
  sound_local (assign set v).
Proof. intros s1 s2 Hp Hg. cbn. rewrite Hp. repeat split. exact Hg. Qed.

Lemma local_regenerate (b : bool) : sound_local (modify (set_regenerate b)).
Proof. intros s1 s2 Hp Hg. repeat split; assumption. Qed.

Lemma local_when (b : bool) (c : Cmd unit) : sound_local c -> sound_local (when b c).
Proof. intros Hc. destruct b; [exact Hc|apply local_ret]. Qed.

(** Walks a command made of draws, reads, assignments and conditionals. *)
Ltac locals :=
  repeat first
    [ simple apply @local_when | simple apply @local_frnd | simple apply @local_rand_int
    | simple apply @local_member | simple apply @local_assign
    | simple apply @local_regenerate | simple apply @local_ret
    | (simple apply @local_bind; [|intros ?])
    | match goal with |- sound_local (if ?b then _ else _) => destruct b end ].

Lemma ResetWaveParams_sound (st : Globals) :
  let seed := (GetRandomValue 1 65534 (rand_state st)).1 in
  params (exec ResetWaveParams st) = default_params seed
  /\ rand_state (exec ResetWaveParams st) = srand seed.
Proof.
  cbv zeta. unfold exec, ResetWaveParams, bind, rand_int.
  destruct (GetRandomValue 1 65534 (rand_state st)) as [seed g]. split; reflexivity.
Qed.

Lemma after_reset_sound (rest : Cmd unit) (st1 st2 : Globals) :
  sound_local rest ->
  (GetRandomValue 1 65534 (rand_state st1)).1 = (GetRandomValue 1 65534 (rand_state st2)).1 ->
  params (exec (bind ResetWaveParams (fun _ => rest)) st1)
  = params (exec (bind ResetWaveParams (fun _ => rest)) st2).
Proof.
  intros Hrest Hseed. rewrite !exec_seq.
  destruct (ResetWaveParams_sound st1) as [P1 G1].
  destruct (ResetWaveParams_sound st2) as [P2 G2].
  apply Hrest; congruence.
Qed.

(** The parameters that a preset builds are a function of the seed that
    its [ResetWaveParams] drew (every later draw comes from the generator
    that [srand(seed)] restarted), and so is the wave rendered from them:
    two runs of a preset that store the same seed store the same record
    and sound the same. *)
Lemma preset_determined_by_seed (c : Cmd unit) (st1 st2 : Globals) :
  In c presets ->
  randSeed (params (exec c st1)) = randSeed (params (exec c st2)) ->
  params (exec c st1) = params (exec c st2)
  /\ (GenerateWave (params (exec c st1)) (exec c st1)).1
     = (GenerateWave (params (exec c st2)) (exec c st2)).1.
Proof.
  intros Hin Hseed.
  pose proof (preset_seed c st1 Hin) as S1. pose proof (preset_seed c st2 Hin) as S2.
  assert (Hdraw : (GetRandomValue 1 65534 (rand_state st1)).1
                  = (GetRandomValue 1 65534 (rand_state st2)).1) by congruence.
  assert (Hparams : params (exec c st1) = params (exec c st2)).
  { cbn [presets In] in Hin.
    repeat (destruct Hin as [<-|Hin]); [..|contradiction];
      (apply after_reset_sound; [locals|exact Hdraw]). }
  split; [exact Hparams|]. rewrite <- Hparams.
  assert (Hnz : randSeed (params (exec c st1)) <> 0).
  { rewrite S1. pose proof (GetRandomValue_range 1 65534 (rand_state st1) ltac:(lia)). lia. }
  unfold GenerateWave, rendered.
  rewrite (entry_seeded _ (rand_state (exec c st1)) (rand_state (exec c st2)) Hnz).
  destruct (render_loop _ _ _ _ _) as [[n b] final]. reflexivity.
Qed.

(** *** The presets stay on the sliders *)

Lemma carries_ret {A} (P : WaveParams -> Prop) (a : A) : carries P P (ret a).
Proof. intros st H. exact H. Qed.

Lemma carries_bind {A B} (P R Q : WaveParams -> Prop) (c : Cmd A) (k : A -> Cmd B) :
  carries P R c -> (forall a, carries R Q (k a)) -> carries P Q (bind c k).
Proof.
  intros Hc Hk st H. unfold bind. specialize (Hc st H).
  destruct (c st) as [a st']. apply Hk. exact Hc.
Qed.

Lemma carries_seq {A B} (P : WaveParams -> Prop) (c : Cmd A) (k : A -> Cmd B) :
  carries P P c -> (forall a, carries P P (k a)) -> carries P P (bind c k).
Proof. apply carries_bind. Qed.

Lemma carries_member {V} (P : WaveParams -> Prop) (f : WaveParams -> V) :
  carries P P (member f).
Proof. intros st H. exact H. Qed.

(** A read of a member, with the value read. *)
Lemma carries_read {V B} (P Q : WaveParams -> Prop) (f : WaveParams -> V) (k : V -> Cmd B) :
  (forall x, carries (fun p => P p /\ f p = x) Q (k x)) ->
  carries P Q (bind (member f) k).
Proof. intros Hk st H. apply (Hk (f (params st))). split; [exact H|reflexivity]. Qed.

Lemma carries_regenerate (P : WaveParams -> Prop) (b : bool) :
  carries P P (modify (set_regenerate b)).
Proof. intros st H. exact H. Qed.

Lemma carries_when (P : WaveParams -> Prop) (b : bool) (c : Cmd unit) :
  carries P P c -> carries P P (when b c).
Proof. intros Hc. destruct b; [exact Hc|apply carries_ret]. Qed.

(** A draw of an integer, with what is known of the integer. *)
Lemma carries_rand_int {B} (P Q : WaveParams -> Prop) (lo hi : Z) (k : Z -> Cmd B) :
  lo <= hi ->
  (forall v, lo <= v <= hi -> carries P Q (k v)) ->
  carries P Q (bind (rand_int lo hi) k).
Proof.
  intros Hle Hk st H. unfold bind, rand_int.
  pose proof (GetRandomValue_range lo hi (rand_state st) Hle) as Hv.
  destruct (GetRandomValue lo hi (rand_state st)) as [v g]. apply (Hk v Hv). exact H.
Qed.

(** A draw of [frnd], with the generator it was drawn from. *)
Lemma carries_frnd {B} (P Q : WaveParams -> Prop) (range : float) (k : float -> Cmd B) :
  (forall g, carries P Q (k (frnd_value range g).1)) ->
  carries P Q (bind (frnd range) k).
Proof.
  intros Hk st H. unfold bind, frnd. specialize (Hk (rand_state st)).
  destruct (frnd_value range (rand_state st)) as [r g]. apply Hk. exact H.
Qed.

Lemma carries_assign {V} (P Q : WaveParams -> Prop) (set : V -> WaveParams -> WaveParams)
    (v : V) :
  (forall p, P p -> Q (set v p)) -> carries P Q (assign set v).
Proof. intros Hset st H. apply Hset. exact H. Qed.

(** A value on a slider from 0 to 1 is on one from -1 to 1. *)
Lemma unit_range_signed (x : float) : unit_range x = true -> signed_range x = true.
Proof.
  unfold unit_range, signed_range, in_range. rewrite !andb_true_iff. intros [H0 H1].
  split; [|exact H1]. clear H1. revert H0.
  let m := eval vm_compute in (fneg (f32 1 1)) in change (fneg (f32 1 1)) with m.
  unfold fle, SFleb, fzero.
  destruct x as [[|]|[|]| |[|] mx ex]; cbn; intros H; first [reflexivity|discriminate H].
Qed.

(** What is known of a draw of [frnd(range)]. *)
Ltac draw_facts range g :=
  lazymatch range with
  | f32 1 10 => constr:(frnd_10 g)
  | f32 2 10 => constr:(frnd_20 g)
  | f32 3 10 => constr:(frnd_30 g)
  | f32 4 10 => constr:(frnd_40 g)
  | f32 5 10 => constr:(frnd_50 g)
  | f32 6 10 => constr:(frnd_60 g)
  | f32 7 10 => constr:(frnd_70 g)
  | f32 9 10 => constr:(frnd_90 g)
  | f32 16 10 => constr:(frnd_160 g)
  end.

(** The value assigned is on its slider: a literal is evaluated, a value
    made from a draw is among the facts on the draw. *)
Ltac on_slider :=
  first
    [ match goal with
      | |- context [(frnd_value ?range ?g).1] =>
          let facts := draw_facts range g in
          let H := fresh "H" in
          pose proof facts as H; cbv zeta in H;
          repeat match type of H with
                 | (_ && _) = true =>
                     apply andb_prop in H; let H' := fresh "H" in destruct H as [H H']
                 end;
          first [assumption | apply unit_range_signed; assumption]
      end
    | vm_compute; reflexivity ].

(** The members of a record after an assignment to one of them. *)
Ltac members :=
  cbn [randSeed waveTypeValue attackTimeValue sustainTimeValue sustainPunchValue
       decayTimeValue startFrequencyValue minFrequencyValue slideValue deltaSlideValue
       vibratoDepthValue vibratoSpeedValue changeAmountValue changeSpeedValue squareDutyValue
       dutySweepValue repeatSpeedValue phaserOffsetValue phaserSweepValue lpfCutoffValue
       lpfCutoffSweepValue lpfResonanceValue hpfCutoffValue hpfCutoffSweepValue
       set_randSeed set_waveTypeValue set_attackTimeValue set_sustainTimeValue
       set_sustainPunchValue set_decayTimeValue set_startFrequencyValue
       set_minFrequencyValue set_slideValue set_deltaSlideValue set_vibratoDepthValue
       set_vibratoSpeedValue set_changeAmountValue set_changeSpeedValue set_squareDutyValue
       set_dutySweepValue set_repeatSpeedValue set_phaserOffsetValue set_phaserSweepValue
       set_lpfCutoffValue set_lpfCutoffSweepValue set_lpfResonanceValue set_hpfCutoffValue
       set_hpfCutoffSweepValue].

(** An assignment keeps the members on their sliders when the value
    assigned is on its own. *)
Ltac slider_kept :=
  let H := fresh "H" in
  intros H; unfold on_sliders, in_sliders_but_min in *; members;
  rewrite !andb_true_iff in H; rewrite !andb_true_iff;
  repeat match type of H with _ /\ _ => let H' := fresh "H" in destruct H as [H H'] end;
  intros; repeat split;
  first [ match goal with K : ?G |- ?G => exact K end
        | apply Z.leb_le; lia ].

Lemma slider_waveTypeValue (v : Z) (p : WaveParams) :
  on_sliders p -> 0 <= v <= 3 -> on_sliders (set_waveTypeValue v p).
Proof. slider_kept. Qed.

Lemma slider_minFrequencyValue (v : float) (p : WaveParams) :
  on_sliders p -> on_sliders (set_minFrequencyValue v p).
Proof. slider_kept. Qed.

Lemma slider_attackTimeValue (v : float) (p : WaveParams) :
  on_sliders p -> unit_range v = true -> on_sliders (set_attackTimeValue v p).
Proof. slider_kept. Qed.

Lemma slider_sustainTimeValue (v : float) (p : WaveParams) :
  on_sliders p -> unit_range v = true -> on_sliders (set_sustainTimeValue v p).
Proof. slider_kept. Qed.

Lemma slider_sustainPunchValue (v : float) (p : WaveParams) :
  on_sliders p -> unit_range v = true -> on_sliders (set_sustainPunchValue v p).
Proof. slider_kept. Qed.

Lemma slider_decayTimeValue (v : float) (p : WaveParams) :
  on_sliders p -> unit_range v = true -> on_sliders (set_decayTimeValue v p).
Proof. slider_kept. Qed.

Lemma slider_startFrequencyValue (v : float) (p : WaveParams) :
  on_sliders p -> unit_range v = true -> on_sliders (set_startFrequencyValue v p).
Proof. slider_kept. Qed.

Lemma slider_slideValue (v : float) (p : WaveParams) :
  on_sliders p -> signed_range v = true -> on_sliders (set_slideValue v p).
Proof. slider_kept. Qed.

Lemma slider_deltaSlideValue (v : float) (p : WaveParams) :
  on_sliders p -> signed_range v = true -> on_sliders (set_deltaSlideValue v p).
Proof. slider_kept. Qed.

Lemma slider_vibratoDepthValue (v : float) (p : WaveParams) :
  on_sliders p -> unit_range v = true -> on_sliders (set_vibratoDepthValue v p).
Proof. slider_kept. Qed.

Lemma slider_vibratoSpeedValue (v : float) (p : WaveParams) :
  on_sliders p -> unit_range v = true -> on_sliders (set_vibratoSpeedValue v p).
Proof. slider_kept. Qed.

Lemma slider_changeAmountValue (v : float) (p : WaveParams) :
  on_sliders p -> signed_range v = true -> on_sliders (set_changeAmountValue v p).
Proof. slider_kept. Qed.

Lemma slider_changeSpeedValue (v : float) (p : WaveParams) :
  on_sliders p -> unit_range v = true -> on_sliders (set_changeSpeedValue v p).
Proof. slider_kept. Qed.

Lemma slider_squareDutyValue (v : float) (p : WaveParams) :
  on_sliders p -> unit_range v = true -> on_sliders (set_squareDutyValue v p).
Proof. slider_kept. Qed.

Lemma slider_dutySweepValue (v : float) (p : WaveParams) :
  on_sliders p -> signed_range v = true -> on_sliders (set_dutySweepValue v p).
Proof. slider_kept. Qed.

Lemma slider_repeatSpeedValue (v : float) (p : WaveParams) :
  on_sliders p -> unit_range v = true -> on_sliders (set_repeatSpeedValue v p).
Proof. slider_kept. Qed.

Lemma slider_phaserOffsetValue (v : float) (p : WaveParams) :
  on_sliders p -> signed_range v = true -> on_sliders (set_phaserOffsetValue v p).
Proof. slider_kept. Qed.

Lemma slider_phaserSweepValue (v : float) (p : WaveParams) :
  on_sliders p -> signed_range v = true -> on_sliders (set_phaserSweepValue v p).
Proof. slider_kept. Qed.

Lemma slider_lpfCutoffValue (v : float) (p : WaveParams) :
  on_sliders p -> unit_range v = true -> on_sliders (set_lpfCutoffValue v p).
Proof. slider_kept. Qed.

Lemma slider_lpfCutoffSweepValue (v : float) (p : WaveParams) :
  on_sliders p -> signed_range v = true -> on_sliders (set_lpfCutoffSweepValue v p).
Proof. slider_kept. Qed.

Lemma slider_lpfResonanceValue (v : float) (p : WaveParams) :
  on_sliders p -> unit_range v = true -> on_sliders (set_lpfResonanceValue v p).
Proof. slider_kept. Qed.

Lemma slider_hpfCutoffValue (v : float) (p : WaveParams) :
  on_sliders p -> unit_range v = true -> on_sliders (set_hpfCutoffValue v p).
Proof. slider_kept. Qed.

Lemma slider_hpfCutoffSweepValue (v : float) (p : WaveParams) :
  on_sliders p -> signed_range v = true -> on_sliders (set_hpfCutoffSweepValue v p).
Proof. slider_kept. Qed.

Ltac assigned :=
  let p := fresh "p" in
  let H := fresh "H" in
  intros p H;
  first
    [ simple apply slider_minFrequencyValue; exact H
    | simple apply slider_waveTypeValue; [exact H|lia]
    | simple apply slider_attackTimeValue; [exact H|on_slider]
    | simple apply slider_sustainTimeValue; [exact H|on_slider]
    | simple apply slider_sustainPunchValue; [exact H|on_slider]
    | simple apply slider_decayTimeValue; [exact H|on_slider]
    | simple apply slider_startFrequencyValue; [exact H|on_slider]
    | simple apply slider_slideValue; [exact H|on_slider]
    | simple apply slider_deltaSlideValue; [exact H|on_slider]
    | simple apply slider_vibratoDepthValue; [exact H|on_slider]
    | simple apply slider_vibratoSpeedValue; [exact H|on_slider]
    | simple apply slider_changeAmountValue; [exact H|on_slider]
    | simple apply slider_changeSpeedValue; [exact H|on_slider]
    | simple apply slider_squareDutyValue; [exact H|on_slider]
    | simple apply slider_dutySweepValue; [exact H|on_slider]
    | simple apply slider_repeatSpeedValue; [exact H|on_slider]
    | simple apply slider_phaserOffsetValue; [exact H|on_slider]
    | simple apply slider_phaserSweepValue; [exact H|on_slider]
    | simple apply slider_lpfCutoffValue; [exact H|on_slider]
    | simple apply slider_lpfCutoffSweepValue; [exact H|on_slider]
    | simple apply slider_lpfResonanceValue; [exact H|on_slider]
    | simple apply slider_hpfCutoffValue; [exact H|on_slider]
    | simple apply slider_hpfCutoffSweepValue; [exact H|on_slider] ].

Ltac sliders :=
  repeat first
    [ simple apply @carries_when | simple apply @carries_member
    | simple apply @carries_regenerate | simple apply @carries_ret
    | (simple apply @carries_frnd; intros ?)
    | (simple apply @carries_rand_int; [lia|intros ? ?])
    | (simple apply @carries_assign; assigned)
    | (simple apply @carries_seq; [|intros ?])
    | match goal with |- carries _ _ (if ?b then _ else _) => destruct b eqn:? end ].

Lemma ResetWaveParams_sliders (P : WaveParams -> Prop) :
  carries P on_sliders ResetWaveParams.
Proof.
  intros st _. destruct (ResetWaveParams_sound st) as [Hp _].
  change ((ResetWaveParams st).2) with (exec ResetWaveParams st). rewrite Hp.
  vm_compute. reflexivity.
Qed.

Ltac preset :=
  eapply carries_bind; [apply (ResetWaveParams_sliders (fun _ => True))|intros _; sliders].

Lemma GenPickupCoin_sliders : carries (fun _ => True) on_sliders GenPickupCoin.
Proof. unfold GenPickupCoin. preset. Qed.

Lemma GenLaserShoot_sliders : carries (fun _ => True) on_sliders GenLaserShoot.
Proof. unfold GenLaserShoot. preset. Qed.

(** The explosion squares its start frequency: between the draw and the
    square, the square of the member is on the slider too. *)
Lemma GenExplosion_sliders : carries (fun _ => True) on_sliders GenExplosion.
Proof.
  unfold GenExplosion.
  eapply carries_bind; [apply (ResetWaveParams_sliders (fun _ => True))|intros _].
  simple apply @carries_seq; [simple apply @carries_assign; assigned|intros _].
  simple apply @carries_rand_int; [lia|intros c Hc].
  eapply (carries_bind _
            (fun p => on_sliders p
                      /\ unit_range (fmul (startFrequencyValue p) (startFrequencyValue p))
                         = true)).
  - destruct (negb (c =? 0));
      (simple apply @carries_frnd; intros g;
       eapply (carries_bind _
                 (fun p => on_sliders p
                           /\ unit_range (fmul (startFrequencyValue p)
                                               (startFrequencyValue p)) = true));
       [ apply carries_assign; intros p H; split;
         [ apply slider_startFrequencyValue; [exact H|on_slider]
         | members; on_slider ]
       | intros _; simple apply @carries_frnd; intros g'; apply carries_assign;
         intros p [H Hsq]; split;
         [ apply slider_slideValue; [exact H|on_slider]
         | members; exact Hsq ] ]).
  - intros _. apply carries_read. intros sf.
    eapply (carries_bind _ on_sliders).
    + apply carries_assign. intros p [[H Hsq] Hsf].
      apply slider_startFrequencyValue; [exact H|]. rewrite <- Hsf. exact Hsq.
    + intros _. sliders.
Qed.

Lemma GenPowerup_sliders : carries (fun _ => True) on_sliders GenPowerup.
Proof. unfold GenPowerup. preset. Qed.

Lemma GenHitHurt_sliders : carries (fun _ => True) on_sliders GenHitHurt.
Proof. unfold GenHitHurt. preset. Qed.

Lemma GenJump_sliders : carries (fun _ => True) on_sliders GenJump.
Proof. unfold GenJump. preset. Qed.

Lemma GenBlipSelect_sliders : carries (fun _ => True) on_sliders GenBlipSelect.
Proof. unfold GenBlipSelect. preset. Qed.

(** Walks a command: draws, reads and conditionals keep every member, an
    assignment keeps every member but its own. *)
Ltac unassigned :=
  repeat first
    [ simple apply @keeps_when | simple apply @keeps_frnd | simple apply @keeps_rand_int
    | simple apply @keeps_member | simple apply @keeps_regenerate | simple apply @keeps_ret
    | (simple apply @keeps_bind; [|intros ?])
    | match goal with |- keeps _ (if ?b then _ else _) => destruct b end
    | (intros ?; reflexivity) ].

Lemma after_reset_minFrequency (rest : Cmd unit) (st : Globals) :
  keeps minFrequencyValue rest ->
  minFrequencyValue (params (exec (bind ResetWaveParams (fun _ => rest)) st)) = fzero.
Proof.
  intros H. rewrite exec_seq, (keeps_exec _ _ _ H).
  destruct (ResetWaveParams_sound st) as [-> _]. reflexivity.
Qed.

(** Every preset leaves the wave type among the four of the toggle group
    and every member but the minimum frequency on its slider ([0, 1], or
    [-1, 1] for the slides, sweeps, the phaser offset and the change
    amount); every preset but the laser leaves the minimum frequency at
    0. *)
Lemma presets_on_sliders (c : Cmd unit) (st : Globals) :
  In c presets ->
  in_sliders_but_min (params (exec c st)) = true
  /\ (c = GenLaserShoot \/ minFrequencyValue (params (exec c st)) = fzero).
Proof.
  intros Hin. cbn [presets In] in Hin.
  destruct Hin as [<-|[<-|[<-|[<-|[<-|[<-|[<-|[]]]]]]]].
  - split; [apply GenPickupCoin_sliders; exact I|right].
    apply after_reset_minFrequency. unassigned.
  - split; [apply GenLaserShoot_sliders; exact I|left; reflexivity].
  - split; [apply GenExplosion_sliders; exact I|right].
    apply after_reset_minFrequency. unassigned.
  - split; [apply GenPowerup_sliders; exact I|right].
    apply after_reset_minFrequency. unassigned.
  - split; [apply GenHitHurt_sliders; exact I|right].
    apply after_reset_minFrequency. unassigned.
  - split; [apply GenJump_sliders; exact I|right].
    apply after_reset_minFrequency. unassigned.
  - split; [apply GenBlipSelect_sliders; exact I|right].
    apply after_reset_minFrequency. unassigned.
Qed.

End Presets.

(* ===================================================================== *)
(** ** The command line *)
(* ===================================================================== *)

Module CommandLineFacts.

Import CommandLine.

Section Arguments.

Context {RS : RandomSource} {LM : Libm} {FN : FileNames} {CL : CommandLineLibrary}.

(** The loop is its pass, repeated on the entries the pass leaves. *)
Lemma process_arguments_pass (arg : string) (rest : list string) (o : Options)
    (out : list string) :
  process_arguments (arg :: rest) o out
  = match pass arg rest o out with
    | Some (args', o', out') => process_arguments args' o' out'
    | None => None
    end.
Proof.
  unfold pass, take_file_name. cbn [process_arguments].
  destruct (is_option "-h" "--help" arg); [reflexivity|].
  destruct (is_option "-i" "--input" arg).
  { destruct rest as [|next rest']; [reflexivity|].
    destruct (file_name_accepted _ next); [|reflexivity].
    destruct (strcpy next); reflexivity. }
  destruct (is_option "-o" "--output" arg).
  { destruct rest as [|next rest']; [reflexivity|].
    destruct (file_name_accepted _ next); [|reflexivity].
    destruct (strcpy next); reflexivity. }
  destruct (is_option "-f" "--format" arg).
  { destruct rest as [|next rest']; [reflexivity|].
    destruct (negb (is_dash next)); [|reflexivity].
    destruct (read_format _ o out); reflexivity. }
  destruct (is_option "-p" "--play" arg); [|reflexivity].
  destruct rest as [|next rest']; [reflexivity|].
  destruct (file_name_accepted _ next); [|reflexivity].
  destruct (strcpy next); reflexivity.
Qed.

(** A pass leaves the entries after the current one, or those after the
    next one when it took the next one as a file name. *)
Lemma pass_rest (arg : string) (rest : list string) (o : Options) (out : list string)
    (args' : list string) (o' : Options) (out' : list string) :
  pass arg rest o out = Some (args', o', out') ->
  args' = rest
  \/ exists next, rest = next :: args' /\ is_dash next = false
                  /\ (String.length next < 256)%nat.
Proof.
  assert (T : forall extensions refusal set,
             take_file_name extensions refusal set rest o out = Some (args', o', out') ->
             args' = rest
             \/ exists next, rest = next :: args' /\ is_dash next = false
                             /\ (String.length next < 256)%nat).
  { intros extensions refusal set. unfold take_file_name.
    destruct rest as [|next rest']; [intros [= <- _ _]; left; reflexivity|].
    destruct (file_name_accepted extensions next) eqn:A;
      [|intros [= <- _ _]; left; reflexivity].
    unfold strcpy. destruct (String.length next <? 256)%nat eqn:L; [|discriminate].
    intros [= <- _ _]. right. exists next.
    unfold file_name_accepted in A. apply andb_true_iff in A. destruct A as [A _].
    apply negb_true_iff in A. apply Nat.ltb_lt in L. repeat split; assumption. }
  unfold pass.
  destruct (is_option "-h" "--help" arg); [intros [= <- _ _]; left; reflexivity|].
  destruct (is_option "-i" "--input" arg); [apply T|].
  destruct (is_option "-o" "--output" arg); [apply T|].
  destruct (is_option "-f" "--format" arg).
  { destruct rest as [|next rest']; [intros [= <- _ _]; left; reflexivity|].
    destruct (negb (is_dash next)); [|intros [= <- _ _]; left; reflexivity].
    destruct (read_format _ o out). intros [= <- _ _]. left. reflexivity. }
  destruct (is_option "-p" "--play" arg); [apply T|].
  intros [= <- _ _]. left. reflexivity.
Qed.

(** Induction on the run of the loop: a relation between the entries to
    process, the state before and the state after holds of every run that
    ends, if it holds of the empty run and composes with a pass. *)
Lemma process_arguments_run
    (R : list string -> Options -> list string -> Options -> list string -> Prop) :
  (forall o out, R [] o out o out) ->
  (forall arg rest o out args1 o1 out1 o2 out2,
      pass arg rest o out = Some (args1, o1, out1) ->
      R args1 o1 out1 o2 out2 ->
      R (arg :: rest) o out o2 out2) ->
  forall args o out o' out',
    process_arguments args o out = Some (o', out') -> R args o out o' out'.
Proof.
  intros Hnil Hpass args.
  remember (length args) as n eqn:Hn. revert args Hn.
  induction n as [n IH] using lt_wf_ind. intros args Hn o out o' out' Hrun.
  destruct args as [|arg rest].
  - cbn [process_arguments] in Hrun. injection Hrun as <- <-. apply Hnil.
  - rewrite process_arguments_pass in Hrun.
    destruct (pass arg rest o out) as [[[args1 o1] out1]|] eqn:P; [|discriminate].
    apply (Hpass arg rest o out args1 o1 out1 o' out' P).
    apply (IH (length args1)); [|reflexivity|exact Hrun].
    subst n. cbn [length].
    destruct (pass_rest _ _ _ _ _ _ _ P) as [->|(next & -> & _)]; cbn [length]; lia.
Qed.

(** Case analysis of a pass that returned. *)
Ltac pass_cases P :=
  unfold pass, take_file_name in P;
  repeat match type of P with
         | context [if ?c then _ else _] => destruct c eqn:?
         | context [match ?l with [] => _ | _ :: _ => _ end] => destruct l eqn:?
         | context [let (_, _) := ?x in _] => destruct x eqn:?
         | context [match strcpy ?n with _ => _ end] => destruct (strcpy n) eqn:?
         end;
  try discriminate P; injection P as <- <- <-.

Lemma read_format_supported (values : list string) (o : Options) (out : list string) :
  supported o = true -> supported (read_format values o out).1 = true.
Proof.
  intros Ho. unfold read_format.
  destruct values as [|v0 [|v1 [|v2 [|]]]]; try exact Ho.
  cbn [fst]. unfold supported, set_format. cbn [sampleRate sampleSize channels].
  destruct (atoi v0 =? 44100) eqn:R1; destruct (atoi v0 =? 22050) eqn:R2;
    destruct (atoi v1 =? 8) eqn:S1; destruct (atoi v1 =? 16) eqn:S2;
    destruct (atoi v1 =? 32) eqn:S3;
    destruct (atoi v2 =? 1) eqn:C1; destruct (atoi v2 =? 2) eqn:C2;
    cbn [negb andb orb]; rewrite ?R1, ?R2, ?S1, ?S2, ?S3, ?C1, ?C2; reflexivity.
Qed.

(** Whatever the arguments, the options the loop ends with hold a
    supported format: [WaveFormat] is never asked for another sample rate,
    sample size or number of channels than the documented ones. *)
Lemma process_arguments_format (args : list string) (o : Options) (out : list string)
    (o' : Options) (out' : list string) :
  supported o = true ->
  process_arguments args o out = Some (o', out') ->
  supported o' = true.
Proof.
  intros Ho Hrun. revert Ho.
  apply (process_arguments_run
           (fun _ o _ o' _ => supported o = true -> supported o' = true))
    with (args := args) (out := out) (out' := out'); [auto| |exact Hrun].
  clear. intros arg rest o out args1 o1 out1 o2 out2 P IH Ho. apply IH. clear IH.
  pass_cases P; try exact Ho.
  match goal with
  | E : read_format ?v o out = _ |- _ =>
      pose proof (read_format_supported v o out Ho) as H; rewrite E in H; exact H
  end.
Qed.

Lemma is_option_dash (short long arg : string) :
  is_dash short = true -> is_dash long = true -> is_dash arg = false ->
  is_option short long arg = false.
Proof.
  intros Hs Hl Ha. unfold is_option.
  destruct (String.eqb arg short) eqn:E1; [apply String.eqb_eq in E1; congruence|].
  destruct (String.eqb arg long) eqn:E2; [apply String.eqb_eq in E2; congruence|].
  reflexivity.
Qed.

Lemma accepted_no_dash (extensions : list string) (arg : string) :
  file_name_accepted extensions arg = true -> is_dash arg = false.
Proof.
  unfold file_name_accepted. rewrite andb_true_iff, negb_true_iff. tauto.
Qed.

Lemma read_format_frame (values : list string) (o : Options) (out : list string) :
  let o' := (read_format values o out).1 in
  showUsageInfo o' = showUsageInfo o /\ inFileName o' = inFileName o
  /\ outFileName o' = outFileName o /\ playFileName o' = playFileName o.
Proof.
  cbv zeta. unfold read_format.
  destruct values as [|v0 [|v1 [|v2 [|]]]]; repeat split.
Qed.

(** Rewrites the options that a [--format] pass returned to the options it
    started from, for the members it does not assign. *)
Ltac format_frame :=
  try match goal with
      | E : read_format ?v ?o ?out = (?o0, _) |- _ =>
          let F := fresh in
          pose proof (read_format_frame v o out) as F; rewrite E in F; cbn [fst] in F;
          let F1 := fresh in let F2 := fresh in let F3 := fresh in let F4 := fresh in
          destruct F as (F1 & F2 & F3 & F4); rewrite ?F1, ?F2, ?F3, ?F4
      end.

Lemma pass_usage (arg : string) (rest : list string) (o : Options) (out : list string)
    (args1 : list string) (o1 : Options) (out1 : list string) :
  pass arg rest o out = Some (args1, o1, out1) ->
  showUsageInfo o1 || existsb (is_option "-h" "--help") args1
  = showUsageInfo o || existsb (is_option "-h" "--help") (arg :: rest).
Proof.
  intros P. pass_cases P; format_frame;
    cbn [existsb showUsageInfo set_showUsageInfo set_inFileName set_outFileName
           set_playFileName];
    rewrite ?Heqb;
    try match goal with
        | A : file_name_accepted _ ?s = true |- _ =>
            rewrite (is_option_dash "-h" "--help" s eq_refl eq_refl (accepted_no_dash _ _ A))
        end;
    rewrite ?orb_false_l, ?orb_false_r, ?orb_true_l, ?orb_true_r; reflexivity.
Qed.

(** The usage text is asked for exactly when one of the arguments is [-h]
    or [--help], wherever it stands: an argument that starts with a dash is
    never taken as a file name or a format. *)
Lemma process_arguments_usage (args : list string) (o : Options) (out : list string)
    (o' : Options) (out' : list string) :
  process_arguments args o out = Some (o', out') ->
  showUsageInfo o' = showUsageInfo o || existsb (is_option "-h" "--help") args.
Proof.
  apply (process_arguments_run
           (fun args o _ o' _ =>
              showUsageInfo o' = showUsageInfo o || existsb (is_option "-h" "--help") args)).
  - intros o0 _. cbn [existsb]. rewrite orb_false_r. reflexivity.
  - clear. intros arg rest o out args1 o1 out1 o2 out2 P IH.
    rewrite IH. apply pass_usage with (out := out) (out1 := out1). exact P.
Qed.

Lemma taken_step (extensions : list string) (arg : string) (rest args1 : list string)
    (a b c : string) :
  args1 = rest \/ (exists next, rest = next :: args1) ->
  taken extensions (arg :: rest) a b ->
  taken extensions args1 b c ->
  taken extensions (arg :: rest) a c.
Proof.
  intros Hrest [->|Hab] [->|(Hin & Hacc & Hlen)].
  - left; reflexivity.
  - right. split; [|split; assumption].
    destruct Hrest as [->|[next ->]]; cbn [In]; tauto.
  - right. exact Hab.
  - right. split; [|split; assumption].
    destruct Hrest as [->|[next ->]]; cbn [In]; tauto.
Qed.

Lemma strcpy_Some (src name : string) :
  strcpy src = Some name -> name = src /\ (String.length src < 256)%nat.
Proof.
  unfold strcpy. destruct (String.length src <? 256)%nat eqn:L; [|discriminate].
  intros [= <-]. apply Nat.ltb_lt in L. split; [reflexivity|exact L].
Qed.

Lemma pass_names (arg : string) (rest : list string) (o : Options) (out : list string)
    (args1 : list string) (o1 : Options) (out1 : list string) :
  pass arg rest o out = Some (args1, o1, out1) ->
  taken [".rfx"; ".sfs"; ".wav"] (arg :: rest) (inFileName o) (inFileName o1)
  /\ taken [".wav"; ".h"] (arg :: rest) (outFileName o) (outFileName o1)
  /\ taken [".wav"; ".ogg"; ".flac"; ".mp3"] (arg :: rest) (playFileName o) (playFileName o1).
Proof.
  intros P. pass_cases P; format_frame;
    cbn [inFileName outFileName playFileName set_showUsageInfo set_inFileName
           set_outFileName set_playFileName];
    try match goal with
        | E : strcpy ?s = Some ?n |- _ => apply strcpy_Some in E; destruct E as [-> ?]
        end;
    repeat split;
    first [ left; reflexivity
          | right; split; [cbn [In]; tauto|split; assumption] ].
Qed.

(** The file names the loop ends with are those it started with or
    arguments that were accepted: an input name has the extension .rfx,
    .sfs or .wav, an output name .wav or .h, a name to play .wav, .ogg,
    .flac or .mp3; none starts with a dash and each fits its array of 256
    characters. *)
Lemma process_arguments_names (args : list string) (o : Options) (out : list string)
    (o' : Options) (out' : list string) :
  process_arguments args o out = Some (o', out') ->
  taken [".rfx"; ".sfs"; ".wav"] args (inFileName o) (inFileName o')
  /\ taken [".wav"; ".h"] args (outFileName o) (outFileName o')
  /\ taken [".wav"; ".ogg"; ".flac"; ".mp3"] args (playFileName o) (playFileName o').
Proof.
  apply (process_arguments_run
           (fun args o _ o' _ =>
              taken [".rfx"; ".sfs"; ".wav"] args (inFileName o) (inFileName o')
              /\ taken [".wav"; ".h"] args (outFileName o) (outFileName o')
              /\ taken [".wav"; ".ogg"; ".flac"; ".mp3"] args
                   (playFileName o) (playFileName o'))).
  - intros o0 _. repeat split; left; reflexivity.
  - clear. intros arg rest o out args1 o1 out1 o2 out2 P (I1 & I2 & I3).
    destruct (pass_names _ _ _ _ _ _ _ P) as (N1 & N2 & N3).
    assert (Hrest : args1 = rest \/ (exists next, rest = next :: args1)).
    { destruct (pass_rest _ _ _ _ _ _ _ P) as [->|(next & -> & _)];
        [left; reflexivity|right; exists next; reflexivity]. }
    repeat split; eapply taken_step; eassumption.
Qed.

(** *** Overruns *)

Lemma pass_defined (arg : string) (rest : list string) (o : Options) (out : list string) :
  Forall fits rest -> exists r, pass arg rest o out = Some r.
Proof.
  intros Hfit.
  assert (T : forall extensions refusal set,
             exists r, take_file_name extensions refusal set rest o out = Some r).
  { intros extensions refusal set. unfold take_file_name.
    destruct rest as [|next rest']; [eexists; reflexivity|].
    destruct (file_name_accepted extensions next); [|eexists; reflexivity].
    apply Forall_cons in Hfit. destruct Hfit as [Hnext _].
    unfold strcpy. apply Nat.ltb_lt in Hnext. rewrite Hnext. eexists; reflexivity. }
  unfold pass.
  destruct (is_option "-h" "--help" arg); [eexists; reflexivity|].
  destruct (is_option "-i" "--input" arg); [apply T|].
  destruct (is_option "-o" "--output" arg); [apply T|].
  destruct (is_option "-f" "--format" arg).
  { destruct rest as [|next rest']; [eexists; reflexivity|].
    destruct (negb (is_dash next)); [|eexists; reflexivity].
    destruct (read_format _ o out). eexists; reflexivity. }
  destruct (is_option "-p" "--play" arg); [apply T|].
  eexists; reflexivity.
Qed.

(** When every argument is shorter than 256 characters, no [strcpy] of
    the loop overruns its array: the loop ends with its options. *)
Lemma process_arguments_defined (args : list string) (o : Options) (out : list string) :
  Forall fits args ->
  exists o' out', process_arguments args o out = Some (o', out').
Proof.
  remember (length args) as n eqn:Hn. revert args Hn o out.
  induction n as [n IH] using lt_wf_ind. intros args Hn o out Hfit.
  destruct args as [|arg rest].
  - exists o, out. reflexivity.
  - apply Forall_cons in Hfit. destruct Hfit as [_ Hfit].
    rewrite process_arguments_pass.
    destruct (pass_defined arg rest o out Hfit) as [[[args1 o1] out1] P]. rewrite P.
    apply (IH (length args1)); [|reflexivity|].
    + subst n. cbn [length].
      destruct (pass_rest _ _ _ _ _ _ _ P) as [->|(next & -> & _)]; cbn [length]; lia.
    + destruct (pass_rest _ _ _ _ _ _ _ P) as [->|(next & -> & _)]; [exact Hfit|].
      apply Forall_cons in Hfit. apply Hfit.
Qed.

Lemma is_option_cases (short long arg : string) :
  is_option short long arg = true -> arg = short \/ arg = long.
Proof.
  unfold is_option. rewrite orb_true_iff, !String.eqb_eq. tauto.
Qed.

(** An accepted file name of 256 characters or more does not fit the
    array it is copied to: the [strcpy] writes past the end of
    [inFileName], [outFileName] or [playFileName], and the behaviour of the
    program is undefined from there. *)
Lemma process_arguments_overrun (arg next : string) (rest : list string) (o : Options)
    (out : list string) :
  (is_option "-i" "--input" arg = true
   /\ file_name_accepted [".rfx"; ".sfs"; ".wav"] next = true)
  \/ (is_option "-o" "--output" arg = true
      /\ file_name_accepted [".wav"; ".h"] next = true)
  \/ (is_option "-p" "--play" arg = true
      /\ file_name_accepted [".wav"; ".ogg"; ".flac"; ".mp3"] next = true) ->
  (256 <= String.length next)%nat ->
  process_arguments (arg :: next :: rest) o out = None.
Proof.
  intros H Hlen.
  assert (Hcpy : strcpy next = None).
  { unfold strcpy. destruct (String.length next <? 256)%nat eqn:L; [|reflexivity].
    apply Nat.ltb_lt in L. lia. }
  rewrite process_arguments_pass. unfold pass, take_file_name.
  destruct H as [[Ho Ha]|[[Ho Ha]|[Ho Ha]]];
    apply is_option_cases in Ho; destruct Ho as [-> | ->];
    cbv [is_option String.eqb Ascii.eqb Bool.eqb orb andb];
    rewrite Ha, Hcpy; reflexivity.
Qed.

(** *** An input file on the command line *)

Lemma set_console_same (st : Globals) : set_console (console st) st = st.
Proof. destruct st; reflexivity. Qed.

Lemma GenerateWave_wave (p : WaveParams) (st1 st2 : Globals) :
  rand_state st1 = rand_state st2 -> (GenerateWave p st1).1 = (GenerateWave p st2).1.
Proof.
  intros H. unfold GenerateWave. rewrite H.
  destruct (rendered p (rand_state st2)) as [[c b] final]. reflexivity.
Qed.

Lemma GenerateWave_globals (p : WaveParams) (st : Globals) :
  let st' := (GenerateWave p st).2 in
  params st' = params st /\ files st' = files st /\ console st' = console st
  /\ volumeValue st' = volumeValue st /\ regenerate st' = regenerate st.
Proof.
  cbv zeta. unfold GenerateWave.
  destruct (rendered p (rand_state st)) as [[c b] final]. repeat split.
Qed.

Lemma bind_assoc {A B C} (c : Cmd A) (k1 : A -> Cmd B) (k2 : B -> Cmd C) (st : Globals) :
  bind (bind c k1) k2 st = bind c (fun a => bind (k1 a) k2) st.
Proof. unfold bind. destruct (c st) as [a st']. reflexivity. Qed.

Lemma bind_modify {B} (f : Globals -> Globals) (k : unit -> Cmd B) (st : Globals) :
  bind (modify f) k st = k tt (f st).
Proof. reflexivity. Qed.

Lemma bind_ret {A B} (a : A) (k : A -> Cmd B) (st : Globals) : bind (ret a) k st = k a st.
Proof. reflexivity. Qed.

Lemma bind_run {A B} (c : Cmd A) (k : A -> Cmd B) (st : Globals) :
  bind c k st = k (c st).1 (c st).2.
Proof. unfold bind. destruct (c st). reflexivity. Qed.

(** [rfxgen -i sound.rfx] with the helpers of raylib 2.x.  The name passes
    the test of the command line, which hands [IsFileExtension] the whole
    name, but [LoadWaveParams] does not open the file: whatever the file
    holds, the program stores the zeroed record in the global [params],
    renders it, converts the wave to the default format (44100 Hz, 16 bits,
    mono) and exports it as "output.wav"; it prints the three lines on the
    input, the output and the format, and no diagnostic. *)
Lemma ProcessCommandLine_input_ignored (sig0 : list byte) (v0 : Z)
    (program option fileName e : string) (st : Globals) :
  raylib_names ->
  is_option "-i" "--input" option = true ->
  is_dash fileName = false -> fits fileName -> given fileName = true ->
  IsFileExtension fileName ".rfx" = true \/ IsFileExtension fileName ".sfs" = true ->
  GetExtension fileName = Some e ->
  IsFileExtension "output.wav" ".wav" = true ->
  let run := ProcessCommandLine sig0 v0 [program; option; fileName] st in
  run.1 = Some tt
  /\ params run.2 = zero_params
  /\ files run.2
     = ExportWave (WaveFormat (GenerateWave zero_params st).1 44100 16 1) "output.wav"
         (files st)
  /\ console run.2
     = console st
       ++ [newline +:+ "Input file:       " +:+ fileName;
           newline +:+ "Output file:      output.wav";
           newline +:+ "Output format:    44100 Hz, 16 bits, Mono" +:+ newline +:+ newline].
Proof.
  intros Hnames Hopt Hdash Hfit Hgiven Hext He Hout run.
  assert (Hone : IsFileExtension fileName ".rfx" || IsFileExtension fileName ".sfs" = true)
    by (destruct Hext as [-> | ->]; [reflexivity|apply orb_true_r]).
  assert (Hargs : process_arguments [option; fileName] initial []
                  = Some (set_inFileName fileName initial, [])).
  { rewrite process_arguments_pass. unfold pass, take_file_name.
    apply is_option_cases in Hopt.
    assert (Hacc : file_name_accepted [".rfx"; ".sfs"; ".wav"] fileName = true).
    { unfold file_name_accepted, has_one_of. cbn [existsb]. rewrite Hdash.
      rewrite orb_assoc, Hone. reflexivity. }
    assert (Hcpy : strcpy fileName = Some fileName).
    { unfold strcpy. apply Nat.ltb_lt in Hfit. rewrite Hfit. reflexivity. }
    destruct Hopt as [-> | ->];
      cbv [is_option String.eqb Ascii.eqb Bool.eqb orb andb];
      rewrite Hacc, Hcpy; reflexivity. }
  assert (Hload : forall s, LoadWaveParams sig0 v0 fileName s = (Some zero_params, s)).
  { intros s.
    apply LoadWaveParams_skipped; apply (has_extension_raylib fileName e _ Hnames He). }
  set (line1 := newline +:+ "Input file:       " +:+ fileName).
  set (line2 := newline +:+ "Output file:      output.wav").
  set (line3 := newline +:+ "Output format:    44100 Hz, 16 bits, Mono" +:+ newline +:+ newline).
  set (printed := set_console (console st ++ [line1; line2; line3]) st).
  set (wave := WaveFormat (GenerateWave zero_params st).1 44100 16 1).
  assert (Hrun : run = (Some tt,
                        set_files (ExportWave wave "output.wav" (files st))
                          (GenerateWave zero_params (set_params zero_params printed)).2)).
  { subst run. unfold ProcessCommandLine. cbn [drop]. rewrite Hargs.
    cbn [inFileName playFileName showUsageInfo set_inFileName initial].
    rewrite Hgiven. cbn [given when].
    rewrite bind_modify. rewrite app_nil_r, set_console_same.
    unfold process_input.
    cbn [inFileName outFileName sampleRate sampleSize channels set_inFileName initial given].
    rewrite Hone, Hout. unfold printf.
    rewrite !bind_assoc, bind_modify. rewrite !bind_assoc, bind_modify.
    rewrite !bind_assoc, bind_modify. cbn [console set_console]. rewrite <- !app_assoc.
    cbn [app].
    change (newline +:+ "Output format:    " +:+ pretty 44100 +:+ " Hz, " +:+ pretty 16
            +:+ " bits, " +:+ (if 1 =? 1 then "Mono" else "Stereo") +:+ newline +:+ newline)
      with line3.
    match goal with |- bind _ _ ?s = _ => change s with printed end.
    rewrite !bind_assoc. rewrite bind_run, (Hload printed). cbn [fst snd]. cbv beta iota.
    pose proof (GenerateWave_wave zero_params (set_params zero_params printed) st eq_refl)
      as Gw.
    pose proof (GenerateWave_globals zero_params (set_params zero_params printed)) as G.
    cbv zeta in G. destruct G as (_ & Gf & _).
    cbv [bind modify ret].
    destruct (GenerateWave zero_params (set_params zero_params printed)) as [w s'].
    cbn [fst snd] in *. rewrite Gw, Gf. reflexivity. }
  rewrite Hrun. cbn [fst snd].
  pose proof (GenerateWave_globals zero_params (set_params zero_params printed)) as G.
  cbv zeta in G. destruct G as (Gp & Gf & Gc & _).
  cbn [params files console set_files]. rewrite Gp, Gc.
  unfold printed. cbn [params console set_params set_console].
  repeat split.
Qed.

End Arguments.

End CommandLineFacts.



(* ===================================================================== *)
(** ** The reference file names *)
(* ===================================================================== *)

Section ReferenceNames.

Lemma last_dot_None (s : string) : Reference.last_dot s = None -> dotted s = false.
Proof.
  induction s as [|c rest IH]; [reflexivity|]. cbn [Reference.last_dot dotted].
  destruct (Reference.last_dot rest); [discriminate|].
  destruct (Ascii.eqb c "."); [discriminate|]. intros _. apply IH. reflexivity.
Qed.

Lemma last_dot_Some (s t : string) :
  Reference.last_dot s = Some t ->
  dotted s = true /\ exists c e, t = String c e /\ dotted e = false.
Proof.
  revert t. induction s as [|c rest IH]; intros t; [discriminate|].
  cbn [Reference.last_dot dotted].
  destruct (Reference.last_dot rest) as [t'|] eqn:E.
  - intros H. injection H as <-. destruct (IH t' eq_refl) as [Hd He].
    split; [rewrite Hd; apply orb_true_r|exact He].
  - destruct (Ascii.eqb c ".") eqn:Ec; [|discriminate].
    intros H. injection H as <-. split; [reflexivity|].
    exists c, rest. split; [reflexivity|apply last_dot_None; exact E].
Qed.

(** The reference helpers are those of raylib 2.x. *)
Lemma reference_names : @raylib_names Reference.names.
Proof.
  split.
  - intros fileName e. cbn [GetExtension Reference.names]. unfold Reference.get_extension.
    destruct (Reference.last_dot fileName) as [[|c x]|] eqn:E; try discriminate.
    destruct (String.length x + 1 =? String.length fileName)%nat; [discriminate|].
    intros H. injection H as <-.
    destruct (last_dot_Some _ _ E) as (_ & c' & e' & Heq & Hd).
    injection Heq as _ <-. exact Hd.
  - intros fileName ext. cbn [IsFileExtension Reference.names].
    unfold Reference.is_file_extension.
    destruct (Reference.last_dot fileName) as [t|] eqn:E; [|discriminate].
    intros _. apply (last_dot_Some _ _ E).
Qed.

End ReferenceNames.

(* ===================================================================== *)
(** ** Concrete runs *)
(* ===================================================================== *)

Section Concrete.

#[local] Existing Instance Reference.lcg.
#[local] Existing Instance Reference.libm.
#[local] Existing Instance Reference.names.
#[local] Existing Instance Reference.command_line.

(** C2, refuted as stated, at two parameter sets whose members are all
    finite numbers.  With [hpf_gate_params] the high-pass cutoff is never
    clamped: after the first pass it is 0, below 0.00001.  With
    [punch_params] the sample stored at index 68, where the square wave
    changes sign inside the supersampling loop, is the sum of infinities of
    both signs: a NaN, which is not in [-1, 1]. *)
Lemma clamping_counterexample :
  clamping_claim (loop_state hpf_gate_params 0 1) = false
  /\ flthpd (filter (loop_state hpf_gate_params 0 1)) = fzero
  /\ flthp (filter (loop_state hpf_gate_params 0 1)) = fzero
  /\ in_range (f32 1 100000) (f32 1 10) (flthp (filter (loop_state hpf_gate_params 0 1))) = false
  /\ (rendered punch_params 0).1.2 !! 68%nat = Some S754_nan
  /\ in_range (fneg (f32 1 1)) (f32 1 1) S754_nan = false.
Proof.
  split; [vm_compute; reflexivity|].
  split; [vm_compute; reflexivity|].
  split; [vm_compute; reflexivity|].
  split; [vm_compute; reflexivity|].
  split; [|reflexivity].
  assert (H : (render_loop 69 (working_copy punch_params) 0 (entry punch_params 0) []).1.2
              !! 68%nat = Some S754_nan) by (vm_compute; reflexivity).
  eapply prefix_lookup_Some; [exact H|].
  unfold rendered. apply render_loop_more_fuel.
  unfold MAX_WAVE_LENGTH_SECONDS, WAVE_SAMPLE_RATE. lia.
Qed.

(** C3 with "sound.rfx" holding the defaults with seed 7 in the format of
    [SaveWaveParams]: saving the defaults with seed 8 under that name
    changes nothing, and loading the file gives the zeroed record, which is
    neither. *)
Lemma SaveWaveParams_LoadWaveParams_lost_witness :
  SaveWaveParams (default_params 8) "sound.rfx" stored_sound = (Some tt, stored_sound)
  /\ LoadWaveParams [] 0 "sound.rfx" stored_sound = (Some zero_params, stored_sound)
  /\ files stored_sound !! "sound.rfx"
     = Some (signature ++ word_bytes 120 ++ params_bytes (default_params 7))
  /\ zero_params <> default_params 7 /\ zero_params <> default_params 8.
Proof.
  split; [|split; [|split; [apply lookup_singleton_eq|split; discriminate]]];
    apply (SaveWaveParams_LoadWaveParams_lost [] 0 (default_params 8) "sound.rfx" "rfx"
             stored_sound reference_names eq_refl).
Defined.

(** C4 at the short noise with seed 7, from two states of the generator. *)
Lemma GenerateWave_deterministic_witness :
  (GenerateWave (set_randSeed 7 noise_params) (Reference.start 1)).1
  = (GenerateWave (set_randSeed 7 noise_params) (Reference.start 2)).1
  /\ rand_state (GenerateWave (set_randSeed 7 noise_params) (Reference.start 1)).2
     = rand_state (GenerateWave (set_randSeed 7 noise_params) (Reference.start 2)).2.
Proof.
  apply (GenerateWave_deterministic (set_randSeed 7 noise_params)
           (Reference.start 1) (Reference.start 2)).
  cbn. lia.
Defined.

(** C5 at an .rfx file of format version 119: zeroed parameters, nothing
    printed. *)
Lemma LoadWaveParams_unrecognized_version_witness :
  LoadWaveParams [] 0 "sound.rfx" version_119 = (Some zero_params, version_119).
Proof.
  apply (LoadWaveParams_unrecognized_version [] 0 "sound.rfx" version_119 119 []).
  - reflexivity.
  - apply lookup_singleton_eq.
  - reflexivity.
  - lia.
  - lia.
Defined.


(** C6 at [unordered_params], with the globals holding that record: the
    working copy has the minimum frequency lowered to 0.3 and the slide
    raised to 0.2, and the stored record is unchanged. *)
Lemma GenerateWave_clamps_copy_witness :
  let st := set_params unordered_params (Reference.start 1) in
  let w := working_copy unordered_params in
  minFrequencyValue w = f32 3 10 /\ slideValue w = f32 2 10
  /\ fle (minFrequencyValue w) (startFrequencyValue w) = true
  /\ fge (slideValue w) (deltaSlideValue w) = true
  /\ params (GenerateWave (params st) st).2 = unordered_params.
Proof.
  pose proof (GenerateWave_clamps_copy unordered_params
                (set_params unordered_params (Reference.start 1)))
    as (_ & _ & Hmin & Hslide & _ & _ & Hparams & _).
  cbv zeta.
  split; [vm_compute; reflexivity|].
  split; [vm_compute; reflexivity|].
  split; [apply Hmin; reflexivity|].
  split; [apply Hslide; reflexivity|].
  exact Hparams.
Defined.

(** The render of the defaults lasts 0 + 9000 + 16000 + 3 samples. *)
Lemma GenerateWave_envelope_length_witness :
  let w := (GenerateWave (default_params 1) (Reference.start 0)).1 in
  sampleCount w = 25003
  /\ Z.of_nat (length (data w)) = 25003
  /\ Z.of_nat (length (rendered (default_params 1) 0).1.2) = 25003.
Proof.
  pose proof (GenerateWave_envelope_length (default_params 1) (Reference.start 0)) as H.
  cbv zeta in H.
  assert (Hw : working_copy (default_params 1) = default_params 1) by reflexivity.
  rewrite Hw in H.
  assert (H0 : stage_length (attackTimeValue (default_params 1)) = 0) by (vm_compute; reflexivity).
  assert (H1 : stage_length (sustainTimeValue (default_params 1)) = 9000)
    by (vm_compute; reflexivity).
  assert (H2 : stage_length (decayTimeValue (default_params 1)) = 16000)
    by (vm_compute; reflexivity).
  rewrite H0, H1, H2 in H.
  apply H; [reflexivity|lia|lia|lia|reflexivity].
Defined.

(** The same record saved as "sound.txt": nothing happens. *)
Lemma SaveWaveParams_refused_witness :
  SaveWaveParams (default_params 7) "sound.txt" (Reference.start 1)
  = (Some tt, Reference.start 1).
Proof.
  apply (SaveWaveParams_refused (default_params 7) "sound.txt" (Reference.start 1)).
  left. reflexivity.
Defined.

(** "sound.rfx" when there is no such file. *)
Lemma LoadWaveParams_nothing_to_read_witness :
  LoadWaveParams [] 0 "sound.rfx" (Reference.start 1)
  = (Some zero_params, Reference.start 1).
Proof.
  apply (LoadWaveParams_nothing_to_read [] 0 "sound.rfx" (Reference.start 1)).
  right. split; [discriminate|apply lookup_empty].
Defined.

(** The envelope stage after the first pass on the defaults. *)
Lemma envelopeStage_in_bounds_witness :
  0 <= envelopeStage (envelope (loop_state (default_params 1) 0 1)) <= 2.
Proof.
  apply (envelopeStage_in_bounds (default_params 1) (0 : @rng Reference.lcg) 1).
  vm_compute. reflexivity.
Defined.

(** The tables in the first pass on the short noise. *)
Lemma tables_in_bounds_witness :
  let w := working_copy noise_params in
  let st := step_phase w (Nat.iter 0 (supersample w) (advance w (loop_state noise_params 0 0), fzero)).1 in
  0 <= phase st < period (tone st)
  /\ phase st * 32 <= INT_MAX
  /\ 0 <= Z.quot (phase st * 32) (period (tone st)) < Z.of_nat (length (noiseBuffer st))
  /\ 0 <= Z.land (ipp (phaser st)) 1023 < Z.of_nat (length (phaserBuffer (phaser st)))
  /\ 0 <= Z.land (ipp (phaser st) - iphase (phaser st) + 1024) 1023
     < Z.of_nat (length (phaserBuffer (phaser st))).
Proof.
  apply (tables_in_bounds noise_params (0 : @rng Reference.lcg) 0 0).
  - reflexivity.
  - unfold MAX_SUPERSAMPLING. lia.
Defined.

(** [frnd(0.5f)]. *)
Lemma frnd_in_range_witness :
  in_range fzero (f32 5 10) (frnd_value (f32 5 10) 1).1 = true.
Proof.
  apply (frnd_in_range (f32 5 10) (1 : @rng Reference.lcg)).
  cbn [frnd_ranges In]. do 4 right. left. reflexivity.
Defined.

(** The jump preset from two states in which the next draw is the same
    seed: the generator's state differs by 2^32, and so do the parameters,
    the volume and the flag. *)
Lemma preset_determined_by_seed_witness :
  let st1 := Reference.start 1 in
  let st2 := set_regenerate true (set_params (long_attack 3) (Reference.start (1 + 2 ^ 32))) in
  params (exec GenJump st1) = params (exec GenJump st2)
  /\ (GenerateWave (params (exec GenJump st1)) (exec GenJump st1)).1
     = (GenerateWave (params (exec GenJump st2)) (exec GenJump st2)).1.
Proof.
  apply (preset_determined_by_seed GenJump (Reference.start 1)
           (set_regenerate true (set_params (long_attack 3) (Reference.start (1 + 2 ^ 32))))).
  - cbn [presets In]. do 5 right. left. reflexivity.
  - vm_compute. reflexivity.
Defined.

(** The jump preset. *)
Lemma presets_on_sliders_witness :
  in_sliders_but_min (params (exec GenJump (Reference.start 1))) = true
  /\ (GenJump = GenLaserShoot
      \/ minFrequencyValue (params (exec GenJump (Reference.start 1))) = fzero).
Proof.
  apply (presets_on_sliders GenJump (Reference.start 1)).
  cbn [presets In]. do 5 right. left. reflexivity.
Defined.

(** [rfxgen -f 22050,8,3]: three channels are refused, with a warning. *)
Lemma process_arguments_format_witness :
  CommandLine.supported (CommandLine.set_format 22050 8 1 CommandLine.initial) = true.
Proof.
  apply (CommandLineFacts.process_arguments_format ["-f"; "22050,8,3"]
           CommandLine.initial []
           (CommandLine.set_format 22050 8 1 CommandLine.initial)
           [CommandLine.warning "Channels number not supported. Default: 1 (mono)"]).
  - reflexivity.
  - vm_compute. reflexivity.
Defined.

(** [rfxgen -i sound.rfx -h]. *)
Lemma process_arguments_defined_witness :
  exists o' out',
    CommandLine.process_arguments ["-i"; "sound.rfx"; "-h"] CommandLine.initial []
    = Some (o', out').
Proof.
  apply (CommandLineFacts.process_arguments_defined ["-i"; "sound.rfx"; "-h"]
           CommandLine.initial []).
  repeat constructor; vm_compute; lia.
Defined.

(** [rfxgen -i] followed by a name of 260 characters. *)
Lemma process_arguments_overrun_witness :
  CommandLine.process_arguments ["-i"; long_name; "-h"] CommandLine.initial [] = None.
Proof.
  apply (CommandLineFacts.process_arguments_overrun "-i" long_name ["-h"]
           CommandLine.initial []).
  - left. split; vm_compute; reflexivity.
  - vm_compute. lia.
Defined.

(** [rfxgen -i -h]: the input option is refused with a warning and the
    usage is asked for. *)
Lemma process_arguments_usage_witness :
  CommandLine.showUsageInfo (CommandLine.set_showUsageInfo true CommandLine.initial)
  = CommandLine.showUsageInfo CommandLine.initial
    || existsb (CommandLine.is_option "-h" "--help") ["-i"; "-h"].
Proof.
  apply (CommandLineFacts.process_arguments_usage ["-i"; "-h"] CommandLine.initial []
           (CommandLine.set_showUsageInfo true CommandLine.initial)
           [CommandLine.warning "Input file extension not recognized"]).
  vm_compute. reflexivity.
Defined.

(** [rfxgen -i sound.sfs -o -p jump.wav -o sound.h]: the first output
    option is refused. *)
Lemma process_arguments_names_witness :
  let args := ["-i"; "sound.sfs"; "-o"; "-p"; "jump.wav"; "-o"; "sound.h"] in
  let o := CommandLine.initial in
  let o' := CommandLine.set_outFileName "sound.h"
              (CommandLine.set_playFileName "jump.wav"
                 (CommandLine.set_inFileName "sound.sfs" CommandLine.initial)) in
  CommandLine.taken [".rfx"; ".sfs"; ".wav"] args
    (CommandLine.inFileName o) (CommandLine.inFileName o')
  /\ CommandLine.taken [".wav"; ".h"] args
       (CommandLine.outFileName o) (CommandLine.outFileName o')
  /\ CommandLine.taken [".wav"; ".ogg"; ".flac"; ".mp3"] args
       (CommandLine.playFileName o) (CommandLine.playFileName o').
Proof.
  apply (CommandLineFacts.process_arguments_names
           ["-i"; "sound.sfs"; "-o"; "-p"; "jump.wav"; "-o"; "sound.h"]
           CommandLine.initial []
           (CommandLine.set_outFileName "sound.h"
              (CommandLine.set_playFileName "jump.wav"
                 (CommandLine.set_inFileName "sound.sfs" CommandLine.initial)))
           [CommandLine.warning "Output file extension not recognized"]).
  vm_compute. reflexivity.
Defined.

(** [rfxgen -i sound.rfx] where "sound.rfx" holds the defaults with seed
    7: the zeroed record is rendered. *)
Lemma ProcessCommandLine_input_ignored_witness :
  let run := CommandLine.ProcessCommandLine [] 0 ["rfxgen"; "-i"; "sound.rfx"] stored_sound in
  run.1 = Some tt
  /\ params run.2 = zero_params
  /\ files run.2
     = ExportWave (WaveFormat (GenerateWave zero_params stored_sound).1 44100 16 1)
         "output.wav" (files stored_sound)
  /\ console run.2
     = console stored_sound
       ++ [newline +:+ "Input file:       " +:+ "sound.rfx";
           newline +:+ "Output file:      output.wav";
           newline +:+ "Output format:    44100 Hz, 16 bits, Mono" +:+ newline +:+ newline].
Proof.
  apply (CommandLineFacts.ProcessCommandLine_input_ignored [] 0
           "rfxgen" "-i" "sound.rfx" "rfx" stored_sound).
  - exact reference_names.
  - reflexivity.
  - reflexivity.
  - vm_compute. lia.
  - reflexivity.
  - left. reflexivity.
  - reflexivity.
  - reflexivity.
Defined.

End Concrete.
